(** * Cold Calling Display: the position and filter logic of the dashboard

    A shallow embedding of the two revisions of the [App] component that
    restore the position once the rows have been fetched:
    - [src/src/App.tsx]: the card view with Previous / Next buttons and the
      editable position ([commitIndex]);
    - [src/unnamed/part_000]: the view with the industry filter, the URL
      query parameter and the jump box ([handleJump]).

    The helpers [clamp], [formatPhoneNumber], [parseBusinesses] and
    [getStoredIndex] are textually the same in both revisions and are
    embedded once.  The oldest revision, kept next to [button.tsx], embeds
    its CSV text, reads the stored position in the state initializer and
    has no hydration step; it shares the helpers and is modelled as
    [AppEmbedded].  [CsvTable] is the table of
    [src/src/components/csv-table.tsx]. *)

From Stdlib Require Import ZArith Lia String Ascii.
From stdpp Require Import base gmap list strings sorting.

Local Open Scope Z_scope.

(** ** The JavaScript primitives the program calls *)

Module JS.

(** Strings are sequences of character codes; [ascii] covers the code
    units below 256, so the white space of [trim] and [parseInt] is the
    part of the ECMAScript WhiteSpace and LineTerminator classes in that
    range: TAB, LF, VT, FF, CR, SP and NBSP. *)
Definition is_white_space (c : ascii) : bool :=
  let n := N_of_ascii c in
  ((9 <=? n)%N && (n <=? 13)%N) || (n =? 32)%N || (n =? 160)%N.

(** [\d] without the unicode flag: the ten ASCII digits. *)
Definition is_digit (c : ascii) : bool :=
  let n := N_of_ascii c in (48 <=? n)%N && (n <=? 57)%N.

Definition digit_value (c : ascii) : Z := Z.of_N (N_of_ascii c) - 48.

Definition digit_char (d : Z) : ascii := ascii_of_N (Z.to_N (48 + d)).

(** A string is truthy when it is not empty. *)
Definition truthy (s : string) : bool :=
  match s with EmptyString => false | String _ _ => true end.

(** [s.trimStart()], [s.trimEnd()] and [s.trim()]. *)
Fixpoint trimStart (s : string) : string :=
  match s with
  | String c r => if is_white_space c then trimStart r else s
  | EmptyString => EmptyString
  end.

Fixpoint trimEnd (s : string) : string :=
  match s with
  | String c r =>
      match trimEnd r with
      | EmptyString => if is_white_space c then EmptyString else String c EmptyString
      | r' => String c r'
      end
  | EmptyString => EmptyString
  end.

Definition trim (s : string) : string := trimEnd (trimStart s).

(** [s.replace(/\D/g, '')]: every character that is not a digit goes. *)
Fixpoint strip_non_digits (s : string) : string :=
  match s with
  | String c r =>
      if is_digit c then String c (strip_non_digits r) else strip_non_digits r
  | EmptyString => EmptyString
  end.

(** [s.slice(from, to)] and [s.slice(from)] for indices that are natural
    numbers (the only ones the program passes). *)
Fixpoint drop (n : nat) (s : string) : string :=
  match n, s with
  | S n', String _ r => drop n' r
  | _, _ => s
  end.

Fixpoint take (n : nat) (s : string) : string :=
  match n, s with
  | S n', String c r => String c (take n' r)
  | _, _ => EmptyString
  end.

Definition slice (s : string) (from to : nat) : string :=
  take (to - from) (drop from s).

Definition slice_from (s : string) (from : nat) : string := drop from s.

(** Numbers.  The program only meets integers (array lengths, indices,
    results of [parseInt]) and the two non-numbers [parseInt] can give:
    [NaN] and an infinity.  Finite values are kept exact; every finite
    value the program keeps is clamped to, or tested against, an array
    length, which is far below 2^53, where doubles are exact. *)
Inductive number : Type :=
| NaN
| Infinity (negative : bool)
| Finite (z : Z).

Definition Number_isFinite (x : number) : bool :=
  match x with Finite _ => true | _ => false end.

(** [x >= n] and [x <= n] for an integer [n]; a comparison with [NaN]
    is false. *)
Definition geb (x : number) (n : Z) : bool :=
  match x with
  | NaN => false
  | Infinity negative => negb negative
  | Finite z => n <=? z
  end.

Definition leb (x : number) (n : Z) : bool :=
  match x with
  | NaN => false
  | Infinity negative => negative
  | Finite z => z <=? n
  end.

(** The magnitude from which the conversion of an integer to a double
    rounds to an infinity: 2^1024 - 2^970. *)
Definition overflow_bound : Z := 2 ^ 1024 - 2 ^ 970.

(** The value of the longest prefix of decimal digits. *)
Fixpoint digits_value (acc : Z) (s : string) : Z :=
  match s with
  | String c r =>
      if is_digit c then digits_value (10 * acc + digit_value c) r else acc
  | EmptyString => acc
  end.

(** [parseInt(s, 10)]: leading white space is skipped, one sign is
    read, then the longest prefix of digits; no digit gives [NaN].  With
    the radix given as 10 no [0x] prefix is recognised. *)
Definition parseInt (s : string) : number :=
  let s1 := trimStart s in
  let '(negative, s2) :=
    match s1 with
    | String "-"%char r => (true, r)
    | String "+"%char r => (false, r)
    | _ => (false, s1)
    end in
  match s2 with
  | String c _ =>
      if is_digit c then
        let m := digits_value 0 s2 in
        if overflow_bound <=? m then Infinity negative
        else Finite (if negative then - m else m)
      else NaN
  | EmptyString => NaN
  end.

(** [String(n)] for an integer [n] (below 10^21, where JavaScript still
    prints plain decimal digits). *)
Fixpoint decimal (fuel : nat) (n : Z) (acc : string) : string :=
  let acc' := String (digit_char (n mod 10)) acc in
  match fuel with
  | O => acc'
  | S fuel' => if n <? 10 then acc' else decimal fuel' (n / 10) acc'
  end.

Definition String_of (n : Z) : string :=
  if n <? 0 then String "-"%char (decimal (Z.to_nat (Z.log2 (- n))) (- n) EmptyString)
  else decimal (Z.to_nat (Z.log2 n)) n EmptyString.

End JS.

(** ** Helpers shared by both revisions *)

Definition STORAGE_KEY : string := "cold-calling-display:current-index".
Definition INDUSTRY_STORAGE_KEY : string := "cold-calling-display:selected-industry".

(** [Math.min(Math.max(value, min), max)] *)
Definition clamp (value min max : Z) : Z := Z.min (Z.max value min) max.

Definition formatPhoneNumber (phone : string) : string :=
  let digits := JS.strip_non_digits phone in
  if (String.length digits =? 10)%nat then
    ("(" +:+ JS.slice digits 0 3 +:+ ") " +:+ JS.slice digits 3 6 +:+ "-"
       +:+ JS.slice_from digits 6)%string
  else phone.

(** One parsed row, every field already trimmed. *)
Record Business : Type := mkBusiness {
  site_url : string;
  business_name : string;
  industry : string;
  company_name : string;
  city : string;
  phone_number : string
}.

(** What [Papa.parse] hands back with [header: true]: one object per data
    line, keyed by the header names (a key is absent when the line is
    shorter than the header), and the list of row-level errors. *)
Record ParseResult (ParseError : Type) : Type := mkParseResult {
  data : list (gmap string string);
  errors : list ParseError
}.
Arguments mkParseResult {ParseError} data errors.
Arguments data {ParseError} p.
Arguments errors {ParseError} p.

(** [row.key?.trim() ?? ''] *)
Definition trimmed_field (row : gmap string string) (key : string) : string :=
  default EmptyString (JS.trim <$> row !! key).

Definition normalize (row : gmap string string) : Business :=
  {| site_url := trimmed_field row "site_url";
     business_name := trimmed_field row "business_name";
     industry := trimmed_field row "industry";
     company_name := trimmed_field row "company_name";
     city := trimmed_field row "city";
     phone_number := trimmed_field row "phone_number" |}.

(** [Boolean(business_name || company_name || site_url || phone_number)] *)
Definition has_contact (b : Business) : bool :=
  JS.truthy (business_name b) || JS.truthy (company_name b)
  || JS.truthy (site_url b) || JS.truthy (phone_number b).

Section Parsing.

(** The CSV parser is a library; the program is embedded over any
    function of its type. *)
Context {ParseError : Type}.
Variable Papa_parse : string -> ParseResult ParseError.

Definition parseBusinesses (csvText : string) : list Business * list ParseError :=
  let parsed := Papa_parse (JS.trim csvText) in
  (List.filter has_contact (List.map normalize (data parsed)), errors parsed).

End Parsing.

(** ** The browser: key-value storage and the URL *)

(** What the program did to the browser, in the order it did it.  The
    journal is a ghost record kept for stating the ordering properties. *)
Inductive Action : Type :=
| SetItem (key value : string)
| ReplaceState (industry_param : option string)
| Hydrated
| IndexReset.

Definition is_write (a : Action) : bool :=
  match a with
  | SetItem _ _ | ReplaceState _ => true
  | Hydrated | IndexReset => false
  end.

(** [storage_ok = false] is a browser whose [localStorage] throws on every
    access (storage disabled).  [url_industry] is the value of the
    [industry] parameter of [window.location.search]. *)
Record Browser : Type := mkBrowser {
  storage_ok : bool;
  storage : gmap string string;
  url_industry : option string;
  journal : list Action
}.

Definition record (a : Action) (w : Browser) : Browser :=
  {| storage_ok := storage_ok w; storage := storage w;
     url_industry := url_industry w; journal := journal w ++ [a] |}.

(** Computations that read and write the browser and may throw. *)
Inductive completion (A : Type) : Type :=
| Normal (a : A)
| Throws.
Arguments Normal {A} a.
Arguments Throws {A}.

Definition Eff (A : Type) : Type := Browser -> completion A * Browser.

Definition ret {A} (a : A) : Eff A := fun w => (Normal a, w).

Definition bind {A B} (m : Eff A) (k : A -> Eff B) : Eff B :=
  fun w =>
    match m w with
    | (Normal a, w') => k a w'
    | (Throws, w') => (Throws, w')
    end.

Definition try_catch {A} (body handler : Eff A) : Eff A :=
  fun w =>
    match body w with
    | (Normal a, w') => (Normal a, w')
    | (Throws, w') => handler w'
    end.

Notation "'let*' x ':=' m 'in' k" := (bind m (fun x => k))
  (at level 10, x binder, m at level 100, k at level 200).

Definition getItem (key : string) : Eff (option string) :=
  fun w => if storage_ok w then (Normal (storage w !! key), w) else (Throws, w).

Definition setItem (key value : string) : Eff unit :=
  fun w =>
    if storage_ok w then
      (Normal tt,
       {| storage_ok := true; storage := <[key := value]> (storage w);
          url_industry := url_industry w;
          journal := journal w ++ [SetItem key value] |})
    else (Throws, w).

(** [new URLSearchParams(window.location.search).get('industry')] *)
Definition url_get_industry : Eff (option string) :=
  fun w => (Normal (url_industry w), w).

(** [history.replaceState] with the [industry] parameter set or deleted. *)
Definition replaceState (industry_param : option string) : Eff unit :=
  fun w =>
    (Normal tt,
     {| storage_ok := storage_ok w; storage := storage w;
        url_industry := industry_param;
        journal := journal w ++ [ReplaceState industry_param] |}).

(** The result and the browser a computation leaves. *)
Definition result_of {A} (m : Eff A) (w : Browser) : completion A := fst (m w).
Definition browser_after {A} (m : Eff A) (w : Browser) : Browser := snd (m w).

Definition getStoredIndex (total : Z) : Eff Z :=
  if total =? 0 then ret 0
  else
    try_catch
      (let* stored := getItem STORAGE_KEY in
       let parsed :=
         match stored with
         | Some s => if JS.truthy s then JS.parseInt s else JS.Finite 0
         | None => JS.Finite 0
         end in
       ret (match parsed with
            | JS.Finite z => clamp z 0 (total - 1)
            | _ => 0
            end))
      (ret 0).

(** The value [getStoredIndex] returns; it never throws (see
    [getStoredIndex_returns]). *)
Definition stored_index (total : Z) (w : Browser) : Z :=
  match result_of (getStoredIndex total) w with
  | Normal z => z
  | Throws => 0
  end.

(** [array[i]] for a number [i]: [undefined] outside the array. *)
Definition at_index {A} (l : list A) (i : Z) : option A :=
  if i <? 0 then None else l !! Z.to_nat i.

(** The restore step, common to both revisions: the value [getStoredIndex]
    returns and the browser it leaves; [None] if it were to throw. *)
Definition read_stored_index (total : Z) (w : Browser) : option Z * Browser :=
  match getStoredIndex total w with
  | (Normal z, w') => (Some z, w')
  | (Throws, w') => (None, w')
  end.

(** ** The filter revision ([src/unnamed/part_000])

    A render is modelled by [commit]: it runs, in the order of their
    declaration, the effects whose dependencies differ from those of the
    previous commit (all of them at mount).  [setCurrentIndex] called from
    an effect or a handler is queued in [pendingIndex] and applied before
    the next render; [render] repeats until no update is queued. *)

Module AppFilter.

Record State : Type := mkState {
  browser : Browser;
  csvText : string;
  selectedIndustry : string;
  currentIndex : Z;
  jumpInput : string;
  showJumpInput : bool;
  initializedRef : bool;
  hasInitializedRef : bool;
  (** the request of the mount effect is still unanswered *)
  fetching : bool;
  (** the queued [setCurrentIndex] (the last call wins) *)
  pendingIndex : option Z;
  (** [currentIndex], [selectedIndustry] and [total] of the last commit *)
  committed : option (Z * string * Z)
}.

Definition with_browser (v : Browser) (st : State) : State :=
  {| browser := v;
     csvText := csvText st;
     selectedIndustry := selectedIndustry st;
     currentIndex := currentIndex st;
     jumpInput := jumpInput st;
     showJumpInput := showJumpInput st;
     initializedRef := initializedRef st;
     hasInitializedRef := hasInitializedRef st;
     fetching := fetching st;
     pendingIndex := pendingIndex st;
     committed := committed st |}.

Definition with_csvText (v : string) (st : State) : State :=
  {| browser := browser st;
     csvText := v;
     selectedIndustry := selectedIndustry st;
     currentIndex := currentIndex st;
     jumpInput := jumpInput st;
     showJumpInput := showJumpInput st;
     initializedRef := initializedRef st;
     hasInitializedRef := hasInitializedRef st;
     fetching := fetching st;
     pendingIndex := pendingIndex st;
     committed := committed st |}.

Definition with_selectedIndustry (v : string) (st : State) : State :=
  {| browser := browser st;
     csvText := csvText st;
     selectedIndustry := v;
     currentIndex := currentIndex st;
     jumpInput := jumpInput st;
     showJumpInput := showJumpInput st;
     initializedRef := initializedRef st;
     hasInitializedRef := hasInitializedRef st;
     fetching := fetching st;
     pendingIndex := pendingIndex st;
     committed := committed st |}.

Definition with_currentIndex (v : Z) (st : State) : State :=
  {| browser := browser st;
     csvText := csvText st;
     selectedIndustry := selectedIndustry st;
     currentIndex := v;
     jumpInput := jumpInput st;
     showJumpInput := showJumpInput st;
     initializedRef := initializedRef st;
     hasInitializedRef := hasInitializedRef st;
     fetching := fetching st;
     pendingIndex := pendingIndex st;
     committed := committed st |}.

Definition with_jumpInput (v : string) (st : State) : State :=
  {| browser := browser st;
     csvText := csvText st;
     selectedIndustry := selectedIndustry st;
     currentIndex := currentIndex st;
     jumpInput := v;
     showJumpInput := showJumpInput st;
     initializedRef := initializedRef st;
     hasInitializedRef := hasInitializedRef st;
     fetching := fetching st;
     pendingIndex := pendingIndex st;
     committed := committed st |}.

Definition with_showJumpInput (v : bool) (st : State) : State :=
  {| browser := browser st;
     csvText := csvText st;
     selectedIndustry := selectedIndustry st;
     currentIndex := currentIndex st;
     jumpInput := jumpInput st;
     showJumpInput := v;
     initializedRef := initializedRef st;
     hasInitializedRef := hasInitializedRef st;
     fetching := fetching st;
     pendingIndex := pendingIndex st;
     committed := committed st |}.

Definition with_initializedRef (v : bool) (st : State) : State :=
  {| browser := browser st;
     csvText := csvText st;
     selectedIndustry := selectedIndustry st;
     currentIndex := currentIndex st;
     jumpInput := jumpInput st;
     showJumpInput := showJumpInput st;
     initializedRef := v;
     hasInitializedRef := hasInitializedRef st;
     fetching := fetching st;
     pendingIndex := pendingIndex st;
     committed := committed st |}.

Definition with_hasInitializedRef (v : bool) (st : State) : State :=
  {| browser := browser st;
     csvText := csvText st;
     selectedIndustry := selectedIndustry st;
     currentIndex := currentIndex st;
     jumpInput := jumpInput st;
     showJumpInput := showJumpInput st;
     initializedRef := initializedRef st;
     hasInitializedRef := v;
     fetching := fetching st;
     pendingIndex := pendingIndex st;
     committed := committed st |}.

Definition with_fetching (v : bool) (st : State) : State :=
  {| browser := browser st;
     csvText := csvText st;
     selectedIndustry := selectedIndustry st;
     currentIndex := currentIndex st;
     jumpInput := jumpInput st;
     showJumpInput := showJumpInput st;
     initializedRef := initializedRef st;
     hasInitializedRef := hasInitializedRef st;
     fetching := v;
     pendingIndex := pendingIndex st;
     committed := committed st |}.

Definition with_pendingIndex (v : option Z) (st : State) : State :=
  {| browser := browser st;
     csvText := csvText st;
     selectedIndustry := selectedIndustry st;
     currentIndex := currentIndex st;
     jumpInput := jumpInput st;
     showJumpInput := showJumpInput st;
     initializedRef := initializedRef st;
     hasInitializedRef := hasInitializedRef st;
     fetching := fetching st;
     pendingIndex := v;
     committed := committed st |}.

Definition with_committed (v : option (Z * string * Z)) (st : State) : State :=
  {| browser := browser st;
     csvText := csvText st;
     selectedIndustry := selectedIndustry st;
     currentIndex := currentIndex st;
     jumpInput := jumpInput st;
     showJumpInput := showJumpInput st;
     initializedRef := initializedRef st;
     hasInitializedRef := hasInitializedRef st;
     fetching := fetching st;
     pendingIndex := pendingIndex st;
     committed := v |}.

Definition setCurrentIndex (v : Z) : State -> State := with_pendingIndex (Some v).
Definition setSelectedIndustry : string -> State -> State := with_selectedIndustry.
Definition setCsvText : string -> State -> State := with_csvText.
Definition setJumpInput : string -> State -> State := with_jumpInput.
Definition setShowJumpInput : bool -> State -> State := with_showJumpInput.

Definition log (a : Action) (st : State) : State :=
  with_browser (record a (browser st)) st.

(** [businesses.filter(b => b.industry === selectedIndustry)], or all of
    them when no industry is selected. *)
Definition filterBusinesses (businesses : list Business) (selected : string)
  : list Business :=
  if negb (JS.truthy selected) then businesses
  else List.filter (fun b => String.eqb (industry b) selected) businesses.

(** The initializer of [selectedIndustry]: the URL first, then storage. *)
Definition initial_industry : Eff string :=
  let* urlIndustry := url_get_industry in
  let fallback :=
    try_catch
      (let* saved := getItem INDUSTRY_STORAGE_KEY in
       ret (match saved with
            | Some s => if JS.truthy s then s else EmptyString
            | None => EmptyString
            end))
      (ret EmptyString) in
  match urlIndustry with
  | Some u => if JS.truthy u then ret u else fallback
  | None => fallback
  end.

Section Component.

Context {ParseError : Type}.
Variable Papa_parse : string -> ParseResult ParseError.

Definition businesses (st : State) : list Business :=
  fst (parseBusinesses Papa_parse (csvText st)).

Definition filteredBusinesses (st : State) : list Business :=
  filterBusinesses (businesses st) (selectedIndustry st).

Definition total (st : State) : Z := Z.of_nat (length (filteredBusinesses st)).

Definition currentBusiness (st : State) : option Business :=
  at_index (filteredBusinesses st) (currentIndex st).

Definition canGoBack (st : State) : bool := 0 <? currentIndex st.
Definition canGoNext (st : State) : bool := currentIndex st <? total st - 1.

(** [total > 0 && currentBusiness]: the card, with the filter selector
    and the jump box, is on screen. *)
Definition card_shown (st : State) : bool :=
  (0 <? total st) && bool_decide (is_Some (currentBusiness st)).

(** [uniqueIndustries.add(x)]: a [Set] keeps its elements in the order in
    which they were first added. *)
Definition Set_add (s : list string) (x : string) : list string :=
  if bool_decide (x ∈ s) then s else s ++ [x].

(** The [Set] built by the [forEach] over the businesses. *)
Definition uniqueIndustries (bs : list Business) : list string :=
  fold_left
    (fun acc b =>
       if JS.truthy (industry b) && JS.truthy (JS.trim (industry b))
       then Set_add acc (industry b) else acc)
    bs [].

(** [Array.from(uniqueIndustries).sort()].  The default order of [sort]
    compares strings by code units, which is [String.le]; the elements are
    distinct, so the sorted array does not depend on the algorithm. *)
Definition industries_of (bs : list Business) : list string :=
  merge_sort String.le (uniqueIndustries bs).

Definition industries (st : State) : list string := industries_of (businesses st).

(** The values of the options of the selector: "All Industries", then
    one per industry. *)
Definition filter_options (st : State) : list string :=
  EmptyString :: industries st.

(** *** Effects *)

Definition fetch_effect (st : State) : State := with_fetching true st.

Definition persist_effect (st : State) : State :=
  if negb (hasInitializedRef st) then st
  else
    let selected := selectedIndustry st in
    let writes :=
      try_catch
        (let* _u := setItem STORAGE_KEY (JS.String_of (currentIndex st)) in
         let* _v := setItem INDUSTRY_STORAGE_KEY selected in
         replaceState (if JS.truthy selected then Some selected else None))
        (ret tt) in
    with_browser (browser_after writes (browser st)) st.

Definition restore_effect (st : State) : State :=
  if negb (initializedRef st) && (0 <? total st) then
    let st1 := log Hydrated (with_hasInitializedRef true (with_initializedRef true st)) in
    match read_stored_index (total st) (browser st1) with
    | (Some z, w) => setCurrentIndex z (with_browser w st1)
    | (None, w) => with_browser w st1
    end
  else st.

Definition reset_effect (st : State) : State :=
  if hasInitializedRef st then setCurrentIndex 0 (log IndexReset st) else st.

(** One render followed by its effects. *)
Definition commit (st : State) : State :=
  let i := currentIndex st in
  let f := selectedIndustry st in
  let t := total st in
  let '(first, index_changed, filter_changed, total_changed) :=
    match committed st with
    | None => (true, true, true, true)
    | Some (i0, f0, t0) =>
        (false, negb (i0 =? i), negb (String.eqb f0 f), negb (t0 =? t))
    end in
  let st1 := if first then fetch_effect st else st in
  let st2 := if index_changed || filter_changed then persist_effect st1 else st1 in
  let st3 := if total_changed then restore_effect st2 else st2 in
  let st4 := if filter_changed then reset_effect st3 else st3 in
  with_committed (Some (i, f, t)) st4.

Definition apply_pending (st : State) : State :=
  match pendingIndex st with
  | Some v => with_pendingIndex None (with_currentIndex v st)
  | None => st
  end.

Fixpoint render (fuel : nat) (st : State) : State :=
  let st' := commit (apply_pending st) in
  match fuel, pendingIndex st' with
  | S fuel', Some _ => render fuel' st'
  | _, _ => st'
  end.

(** *** Handlers *)

Definition goPrevious (st : State) : State :=
  if canGoBack st then setCurrentIndex (Z.max 0 (currentIndex st - 1)) st else st.

Definition goNext (st : State) : State :=
  if canGoNext st then
    setCurrentIndex (Z.min (total st - 1) (currentIndex st + 1)) st
  else st.

Definition handleJump (st : State) : State :=
  let num := JS.parseInt (jumpInput st) in
  if JS.geb num 1 && JS.leb num (total st) then
    match num with
    | JS.Finite n =>
        setJumpInput EmptyString (setShowJumpInput false (setCurrentIndex (n - 1) st))
    | _ => st
    end
  else st.

Definition on_fetch (body : option string) (st : State) : State :=
  if fetching st then
    let st' := with_fetching false st in
    match body with
    | Some text =>
        if JS.truthy text && (0 <? String.length (JS.trim text))%nat
        then setCsvText text st' else st'
    | None => st'
    end
  else st.

(** What can happen to a mounted component.  [FetchDone None] is a
    request that failed or was answered with an error status. *)
Inductive Event : Type :=
| FetchDone (body : option string)
| ClickPrevious
| ClickNext
| SelectIndustry (value : string)
| ClickEntry
| TypeJump (value : string)
| SubmitJump
| CancelJump.

Definition handler (e : Event) (st : State) : State :=
  match e with
  | FetchDone body => on_fetch body st
  | ClickPrevious => goPrevious st
  | ClickNext => goNext st
  | SelectIndustry value =>
      if card_shown st then setSelectedIndustry value st else st
  | ClickEntry =>
      if card_shown st && negb (showJumpInput st)
      then setShowJumpInput true st else st
  | TypeJump value =>
      if card_shown st && showJumpInput st then setJumpInput value st else st
  | SubmitJump =>
      if card_shown st && showJumpInput st then handleJump st else st
  | CancelJump =>
      if card_shown st && showJumpInput st
      then setJumpInput EmptyString (setShowJumpInput false st) else st
  end.

Definition step (st : State) (e : Event) : State := render 2 (handler e st).

Definition run (st : State) (events : list Event) : State :=
  fold_left step events st.

(** A page load in browser [w]: the state initializers, then the first
    render.  The journal starts empty for the new run. *)
Definition mount (w : Browser) : State :=
  let w0 := {| storage_ok := storage_ok w; storage := storage w;
               url_industry := url_industry w; journal := [] |} in
  let selected :=
    match result_of initial_industry w0 with
    | Normal s => s
    | Throws => EmptyString
    end in
  let total0 :=
    Z.of_nat (length (filterBusinesses
                        (fst (parseBusinesses Papa_parse EmptyString)) selected)) in
  render 2
    {| browser := w0; csvText := EmptyString; selectedIndustry := selected;
       currentIndex := stored_index total0 w0;
       jumpInput := EmptyString; showJumpInput := false;
       initializedRef := false; hasInitializedRef := false;
       fetching := false; pendingIndex := None; committed := None |}.

End Component.

End AppFilter.

(** ** The card revision ([src/src/App.tsx])

    Same rendering model; there is no filter, the position is edited in
    place and committed by [commitIndex]. *)

Module AppCard.

Record State : Type := mkState {
  browser : Browser;
  csvText : string;
  currentIndex : Z;
  isEditingIndex : bool;
  inputIndex : string;
  initializedRef : bool;
  hasInitializedRef : bool;
  fetching : bool;
  pendingIndex : option Z;
  (** [currentIndex] and [total] of the last commit *)
  committed : option (Z * Z)
}.

Definition with_browser (v : Browser) (st : State) : State :=
  {| browser := v;
     csvText := csvText st;
     currentIndex := currentIndex st;
     isEditingIndex := isEditingIndex st;
     inputIndex := inputIndex st;
     initializedRef := initializedRef st;
     hasInitializedRef := hasInitializedRef st;
     fetching := fetching st;
     pendingIndex := pendingIndex st;
     committed := committed st |}.

Definition with_csvText (v : string) (st : State) : State :=
  {| browser := browser st;
     csvText := v;
     currentIndex := currentIndex st;
     isEditingIndex := isEditingIndex st;
     inputIndex := inputIndex st;
     initializedRef := initializedRef st;
     hasInitializedRef := hasInitializedRef st;
     fetching := fetching st;
     pendingIndex := pendingIndex st;
     committed := committed st |}.

Definition with_currentIndex (v : Z) (st : State) : State :=
  {| browser := browser st;
     csvText := csvText st;
     currentIndex := v;
     isEditingIndex := isEditingIndex st;
     inputIndex := inputIndex st;
     initializedRef := initializedRef st;
     hasInitializedRef := hasInitializedRef st;
     fetching := fetching st;
     pendingIndex := pendingIndex st;
     committed := committed st |}.

Definition with_isEditingIndex (v : bool) (st : State) : State :=
  {| browser := browser st;
     csvText := csvText st;
     currentIndex := currentIndex st;
     isEditingIndex := v;
     inputIndex := inputIndex st;
     initializedRef := initializedRef st;
     hasInitializedRef := hasInitializedRef st;
     fetching := fetching st;
     pendingIndex := pendingIndex st;
     committed := committed st |}.

Definition with_inputIndex (v : string) (st : State) : State :=
  {| browser := browser st;
     csvText := csvText st;
     currentIndex := currentIndex st;
     isEditingIndex := isEditingIndex st;
     inputIndex := v;
     initializedRef := initializedRef st;
     hasInitializedRef := hasInitializedRef st;
     fetching := fetching st;
     pendingIndex := pendingIndex st;
     committed := committed st |}.

Definition with_initializedRef (v : bool) (st : State) : State :=
  {| browser := browser st;
     csvText := csvText st;
     currentIndex := currentIndex st;
     isEditingIndex := isEditingIndex st;
     inputIndex := inputIndex st;
     initializedRef := v;
     hasInitializedRef := hasInitializedRef st;
     fetching := fetching st;
     pendingIndex := pendingIndex st;
     committed := committed st |}.

Definition with_hasInitializedRef (v : bool) (st : State) : State :=
  {| browser := browser st;
     csvText := csvText st;
     currentIndex := currentIndex st;
     isEditingIndex := isEditingIndex st;
     inputIndex := inputIndex st;
     initializedRef := initializedRef st;
     hasInitializedRef := v;
     fetching := fetching st;
     pendingIndex := pendingIndex st;
     committed := committed st |}.

Definition with_fetching (v : bool) (st : State) : State :=
  {| browser := browser st;
     csvText := csvText st;
     currentIndex := currentIndex st;
     isEditingIndex := isEditingIndex st;
     inputIndex := inputIndex st;
     initializedRef := initializedRef st;
     hasInitializedRef := hasInitializedRef st;
     fetching := v;
     pendingIndex := pendingIndex st;
     committed := committed st |}.

Definition with_pendingIndex (v : option Z) (st : State) : State :=
  {| browser := browser st;
     csvText := csvText st;
     currentIndex := currentIndex st;
     isEditingIndex := isEditingIndex st;
     inputIndex := inputIndex st;
     initializedRef := initializedRef st;
     hasInitializedRef := hasInitializedRef st;
     fetching := fetching st;
     pendingIndex := v;
     committed := committed st |}.

Definition with_committed (v : option (Z * Z)) (st : State) : State :=
  {| browser := browser st;
     csvText := csvText st;
     currentIndex := currentIndex st;
     isEditingIndex := isEditingIndex st;
     inputIndex := inputIndex st;
     initializedRef := initializedRef st;
     hasInitializedRef := hasInitializedRef st;
     fetching := fetching st;
     pendingIndex := pendingIndex st;
     committed := v |}.

Definition setCurrentIndex (v : Z) : State -> State := with_pendingIndex (Some v).
Definition setCsvText : string -> State -> State := with_csvText.
Definition setIsEditingIndex : bool -> State -> State := with_isEditingIndex.
Definition setInputIndex : string -> State -> State := with_inputIndex.

Definition log (a : Action) (st : State) : State :=
  with_browser (record a (browser st)) st.

Section Component.

Context {ParseError : Type}.
Variable Papa_parse : string -> ParseResult ParseError.

Definition businesses (st : State) : list Business :=
  fst (parseBusinesses Papa_parse (csvText st)).

Definition total (st : State) : Z := Z.of_nat (length (businesses st)).

Definition currentBusiness (st : State) : option Business :=
  at_index (businesses st) (currentIndex st).

Definition showNavigation (st : State) : bool := 0 <? total st.

(** The [disabled] attributes of the two buttons. *)
Definition previous_disabled (st : State) : bool :=
  negb (showNavigation st) || (currentIndex st =? 0).

Definition next_disabled (st : State) : bool :=
  negb (showNavigation st) || (total st - 1 <=? currentIndex st).

(** *** Effects *)

Definition fetch_effect (st : State) : State := with_fetching true st.

Definition persist_effect (st : State) : State :=
  if negb (hasInitializedRef st) then st
  else
    let writes :=
      try_catch (setItem STORAGE_KEY (JS.String_of (currentIndex st))) (ret tt) in
    with_browser (browser_after writes (browser st)) st.

Definition restore_effect (st : State) : State :=
  if negb (initializedRef st) && (0 <? total st) then
    let st1 := log Hydrated (with_hasInitializedRef true (with_initializedRef true st)) in
    match read_stored_index (total st) (browser st1) with
    | (Some z, w) => setCurrentIndex z (with_browser w st1)
    | (None, w) => with_browser w st1
    end
  else st.

Definition commit (st : State) : State :=
  let i := currentIndex st in
  let t := total st in
  let '(first, index_changed, total_changed) :=
    match committed st with
    | None => (true, true, true)
    | Some (i0, t0) => (false, negb (i0 =? i), negb (t0 =? t))
    end in
  let st1 := if first then fetch_effect st else st in
  let st2 := if index_changed then persist_effect st1 else st1 in
  let st3 := if total_changed then restore_effect st2 else st2 in
  with_committed (Some (i, t)) st3.

Definition apply_pending (st : State) : State :=
  match pendingIndex st with
  | Some v => with_pendingIndex None (with_currentIndex v st)
  | None => st
  end.

Fixpoint render (fuel : nat) (st : State) : State :=
  let st' := commit (apply_pending st) in
  match fuel, pendingIndex st' with
  | S fuel', Some _ => render fuel' st'
  | _, _ => st'
  end.

(** *** Handlers *)

Definition goPrevious (st : State) : State :=
  if previous_disabled st then st
  else setCurrentIndex (clamp (currentIndex st - 1) 0 (total st - 1)) st.

Definition goNext (st : State) : State :=
  if next_disabled st then st
  else setCurrentIndex (clamp (currentIndex st + 1) 0 (total st - 1)) st.

Definition commitIndex (st : State) : State :=
  let parsed := JS.parseInt (inputIndex st) in
  let st' :=
    match parsed with
    | JS.Finite n => setCurrentIndex (clamp (n - 1) 0 (total st - 1)) st
    | _ => st
    end in
  setIsEditingIndex false st'.

Definition on_fetch (body : option string) (st : State) : State :=
  if fetching st then
    let st' := with_fetching false st in
    match body with
    | Some text =>
        if JS.truthy text && (0 <? String.length (JS.trim text))%nat
        then setCsvText text st' else st'
    | None => st'
    end
  else st.

Inductive Event : Type :=
| FetchDone (body : option string)
| ClickPrevious
| ClickNext
| ClickPosition
| TypeIndex (value : string)
| CommitEdit
| CancelEdit.

Definition handler (e : Event) (st : State) : State :=
  match e with
  | FetchDone body => on_fetch body st
  | ClickPrevious => goPrevious st
  | ClickNext => goNext st
  | ClickPosition =>
      if showNavigation st && negb (isEditingIndex st) then
        setInputIndex (JS.String_of (currentIndex st + 1)) (setIsEditingIndex true st)
      else st
  | TypeIndex value =>
      if showNavigation st && isEditingIndex st then setInputIndex value st else st
  | CommitEdit =>
      if showNavigation st && isEditingIndex st then commitIndex st else st
  | CancelEdit =>
      if showNavigation st && isEditingIndex st then setIsEditingIndex false st else st
  end.

Definition step (st : State) (e : Event) : State := render 2 (handler e st).

Definition run (st : State) (events : list Event) : State :=
  fold_left step events st.

Definition mount (w : Browser) : State :=
  let w0 := {| storage_ok := storage_ok w; storage := storage w;
               url_industry := url_industry w; journal := [] |} in
  let total0 := Z.of_nat (length (fst (parseBusinesses Papa_parse EmptyString))) in
  render 2
    {| browser := w0; csvText := EmptyString;
       currentIndex := stored_index total0 w0;
       isEditingIndex := false; inputIndex := EmptyString;
       initializedRef := false; hasInitializedRef := false;
       fetching := false; pendingIndex := None; committed := None |}.

End Component.

End AppCard.

(** ** The table of rows ([src/src/components/csv-table.tsx]) *)

Module CsvTable.

(** What a cell holds: the text of a field, the dash shown for an empty
    field, or the link of a site. *)
Inductive Cell : Type :=
| Text (s : string)
| Dash
| Link (href label : string).

Inductive Stripe : Type := bg_white | bg_slate_50.

Record Tr : Type := mkTr {
  key : nat;
  className : Stripe;
  cells : list Cell
}.

(** The body is the line "No rows to display." or one line per row. *)
Inductive Tbody : Type :=
| NoRows
| Lines (trs : list Tr).

(** The note "Showing first [shown] of [of_rows] rows". *)
Record Note : Type := mkNote {
  shown : JS.number;
  of_rows : nat
}.

Record View : Type := mkView {
  tbody : Tbody;
  note : option Note
}.

(** The end index of [rows.slice(0, end)] for an array of [len] elements:
    [NaN] counts as 0, a negative end counts from the end of the array. *)
Definition slice_end (len : nat) (e : JS.number) : nat :=
  match e with
  | JS.NaN => 0
  | JS.Infinity neg => if neg then 0 else len
  | JS.Finite z =>
      if z <? 0 then Z.to_nat (Z.max (Z.of_nat len + z) 0)
      else Z.to_nat (Z.min z (Z.of_nat len))
  end.

Definition slice_to {A} (l : list A) (e : JS.number) : list A :=
  take (slice_end (length l) e) l.

(** [len > x] for an array length [len]; false when [x] is [NaN]. *)
Definition length_gt (len : nat) (x : JS.number) : bool :=
  match x with
  | JS.NaN => false
  | JS.Infinity neg => neg
  | JS.Finite z => z <? Z.of_nat len
  end.

(** [field || dash] *)
Definition or_dash (field : string) : Cell :=
  if JS.truthy field then Text field else Dash.

Definition tr (idx : nat) (row : Business) : Tr :=
  {| key := idx;
     className := if (idx mod 2 =? 0)%nat then bg_white else bg_slate_50;
     cells := [ or_dash (business_name row); or_dash (company_name row);
                or_dash (industry row); or_dash (city row);
                or_dash (phone_number row);
                if JS.truthy (site_url row)
                then Link (site_url row) (site_url row) else Dash ] |}.

(** The component; [maxRows] is [None] when the property is not given.
    A limit with a fraction is outside [JS.number]. *)
Definition CsvTable (rows : list Business) (maxRows : option JS.number) : View :=
  let maxRows := default (JS.Finite 100) maxRows in
  let display := slice_to rows maxRows in
  {| tbody := if (length display =? 0)%nat then NoRows else Lines (imap tr display);
     note := if length_gt (length rows) maxRows
             then Some (mkNote maxRows (length rows)) else None |}.

(** The rows on screen. *)
Definition lines (v : View) : list Tr :=
  match tbody v with
  | NoRows => []
  | Lines trs => trs
  end.

Definition cell_filled (c : Cell) : bool :=
  match c with
  | Text s => JS.truthy s
  | Dash => true
  | Link href label => JS.truthy href && JS.truthy label
  end.

End CsvTable.

(** ** The first revision, with the data in the program
    ([src/src/components/ui/button.tsx], after the [Button] component)

    One state variable and one effect: the index is read from storage by
    the state initializer and written back after the first render and
    after every render in which it changed. *)

Module AppEmbedded.

Definition dquote : string := String (ascii_of_nat 34) EmptyString.

Definition CSV_DATA : string :=
  "site_url,business_name,industry,company_name,city,phone_number
https://ontariolitigationlawyers.com/toronto-civil-litigation/,Toronto Civil Litigation Lawyers - Powell Litigation,Law Firm,Toronto Civil Litigation Lawyers - Powell Litigation,"
  +:+ dquote +:+ "Toronto, ON" +:+ dquote +:+ ",(437) 222-2234
https://acmeplumbing.com,Acme Plumbing,Home Services,Acme Plumbing Co.,"
  +:+ dquote +:+ "Austin, TX" +:+ dquote +:+ ",(512) 555-1212
https://designhub.ca,Design Hub,Creative Agency,Design Hub Inc.,"
  +:+ dquote +:+ "Vancouver, BC" +:+ dquote +:+ ",(604) 123-4567
https://greenfarms.org,Green Farms Market,Food & Beverage,Green Farms Market,"
  +:+ dquote +:+ "Denver, CO" +:+ dquote +:+ ",(303) 555-9876
".

Record State : Type := mkState {
  browser : Browser;
  currentIndex : Z
}.

Section Component.

Context {ParseError : Type}.
Variable Papa_parse : string -> ParseResult ParseError.

(** [parseBusinesses()] of this revision reads [CSV_DATA]. *)
Definition businesses : list Business := fst (parseBusinesses Papa_parse CSV_DATA).

Definition total : Z := Z.of_nat (length businesses).

Definition currentBusiness (st : State) : option Business :=
  at_index businesses (currentIndex st).

Definition showNavigation : bool := 0 <? total.

Definition previous_disabled (st : State) : bool :=
  negb showNavigation || (currentIndex st =? 0).

Definition next_disabled (st : State) : bool :=
  negb showNavigation || (total - 1 <=? currentIndex st).

Definition persist_effect (st : State) : State :=
  let writes :=
    try_catch (setItem STORAGE_KEY (JS.String_of (currentIndex st))) (ret tt) in
  {| browser := browser_after writes (browser st); currentIndex := currentIndex st |}.

(** [setCurrentIndex(update)] with the render it causes and the effect of
    that render; an index equal to the old one causes no render. *)
Definition setCurrentIndex (update : Z -> Z) (st : State) : State :=
  let index := update (currentIndex st) in
  if index =? currentIndex st then st
  else persist_effect {| browser := browser st; currentIndex := index |}.

Inductive Event : Type :=
| ClickPrevious
| ClickNext.

Definition step (st : State) (e : Event) : State :=
  match e with
  | ClickPrevious =>
      if previous_disabled st then st
      else setCurrentIndex (fun index => clamp (index - 1) 0 (total - 1)) st
  | ClickNext =>
      if next_disabled st then st
      else setCurrentIndex (fun index => clamp (index + 1) 0 (total - 1)) st
  end.

Definition run (st : State) (events : list Event) : State :=
  fold_left step events st.

(** A page load in browser [w]: the state initializer, the first render
    and its effect. *)
Definition mount (w : Browser) : State :=
  let w0 := {| storage_ok := storage_ok w; storage := storage w;
               url_industry := url_industry w; journal := [] |} in
  persist_effect {| browser := w0; currentIndex := stored_index total w0 |}.

End Component.

End AppEmbedded.

(** ** A small browser session used in the examples *)

Definition row (site name ind company town phone : string) : gmap string string :=
  <["site_url" := site]> (<["business_name" := name]> (<["industry" := ind]>
  (<["company_name" := company]> (<["city" := town]> (<["phone_number" := phone]> ∅))))).

Definition demo_rows : list (gmap string string) :=
  [ row "https://acme.test" " Acme Plumbing " "Home Services" "Acme Co." "Austin, TX" "(512) 555-1212";
    row "https://hub.test" "Design Hub" "Creative Agency" "Design Hub Inc." "Vancouver, BC" "6041234567";
    row "" "" "Home Services" "" "Denver, CO" "  ";
    row "" "" "Law Firm" "" "" "555-CALL-NOW";
    row "https://farm.test" "Green Farms" "Home Services" "Green Farms Market" "Denver, CO" "3035559876";
    row "https://law.test" "Powell Litigation" "Law Firm" "Powell" "Toronto, ON" "(437) 222-2234" ].

(** A stand-in for the parser: the text ["csv"] parses to [demo_rows],
    ["four"] to the first four of them that have a contact, everything
    else to no row. *)
Definition demo_parse (text : string) : ParseResult unit :=
  if String.eqb text "csv" then mkParseResult demo_rows []
  else if String.eqb text "four" then
    mkParseResult
      [ row "https://acme.test" " Acme Plumbing " "Home Services" "Acme Co." "Austin, TX" "(512) 555-1212";
        row "https://hub.test" "Design Hub" "Creative Agency" "Design Hub Inc." "Vancouver, BC" "6041234567";
        row "" "" "Law Firm" "" "" "555-CALL-NOW";
        row "https://farm.test" "Green Farms" "Home Services" "Green Farms Market" "Denver, CO" "3035559876" ]
      []
  else mkParseResult [] [].

Definition browser_with (idx : option string) (ind : option string) (url : option string)
  : Browser :=
  let m0 : gmap string string := ∅ in
  let m1 := match idx with Some v => <[STORAGE_KEY := v]> m0 | None => m0 end in
  let m2 := match ind with Some v => <[INDUSTRY_STORAGE_KEY := v]> m1 | None => m1 end in
  {| storage_ok := true; storage := m2; url_industry := url; journal := [] |}.

(** ** Vocabulary of the statements *)

Fixpoint all_chars (P : ascii -> bool) (s : string) : bool :=
  match s with
  | String c r => P c && all_chars P r
  | EmptyString => true
  end.

Definition first_char (s : string) : option ascii :=
  match s with String c _ => Some c | EmptyString => None end.

Fixpoint last_char (s : string) : option ascii :=
  match s with
  | String c EmptyString => Some c
  | String _ r => last_char r
  | EmptyString => None
  end.

(** No white space at either end. *)
Definition is_trimmed (s : string) : Prop :=
  (forall c, first_char s = Some c -> JS.is_white_space c = false) /\
  (forall c, last_char s = Some c -> JS.is_white_space c = false).

(** The shape [formatPhoneNumber] gives to ten digits. *)
Definition phone_shape (a b c e f g h i j k : ascii) : string :=
  String "(" (String a (String b (String c (String ")" (String " "
    (String e (String f (String g (String "-"
      (String h (String i (String j (String k EmptyString))))))))))))).

(** The tracked fields of a row: a row is kept when one is not empty. *)
Definition has_tracked_field (b : Business) : Prop :=
  business_name b <> EmptyString \/ company_name b <> EmptyString \/
  site_url b <> EmptyString \/ phone_number b <> EmptyString.

Definition fields_trimmed (b : Business) : Prop :=
  is_trimmed (site_url b) /\ is_trimmed (business_name b) /\
  is_trimmed (industry b) /\ is_trimmed (company_name b) /\
  is_trimmed (city b) /\ is_trimmed (phone_number b).

(** [t] is [s] without the white space around it. *)
Definition is_trim_of (s t : string) : Prop :=
  exists pre post,
    s = (pre +:+ t +:+ post)%string /\
    all_chars JS.is_white_space pre = true /\
    all_chars JS.is_white_space post = true /\
    is_trimmed t.

(** The text of a column in a parsed line, empty when the column is
    missing. *)
Definition raw_field (row : gmap string string) (key : string) : string :=
  default EmptyString (row !! key).

(** Every field of [b] is the matching column of [row] without the white
    space around it. *)
Definition trimmed_copy (row : gmap string string) (b : Business) : Prop :=
  is_trim_of (raw_field row "site_url") (site_url b) /\
  is_trim_of (raw_field row "business_name") (business_name b) /\
  is_trim_of (raw_field row "industry") (industry b) /\
  is_trim_of (raw_field row "company_name") (company_name b) /\
  is_trim_of (raw_field row "city") (city b) /\
  is_trim_of (raw_field row "phone_number") (phone_number b).

#[local] Instance has_tracked_field_dec (b : Business) : Decision (has_tracked_field b).
Proof. unfold has_tracked_field. apply _. Defined.

(** The journal keeps every write after the hydration. *)
Definition writes_follow_hydration (j : list Action) : Prop :=
  forall pre a post,
    j = pre ++ a :: post -> is_write a = true -> Hydrated ∈ pre.

(** How many times the filter effect put the index back to 0. *)
Definition is_reset (a : Action) : bool :=
  match a with IndexReset => true | _ => false end.

Definition resets (j : list Action) : nat := length (List.filter is_reset j).

Definition is_hydration (a : Action) : bool :=
  match a with Hydrated => true | _ => false end.

Definition hydrations (j : list Action) : nat := length (List.filter is_hydration j).

(** The longest array JavaScript allows. *)
Definition MAX_ARRAY_LENGTH : Z := 2 ^ 32 - 1.

(** The browser a page load starts from: the journal of the run is empty. *)
Definition fresh (w : Browser) : Browser :=
  {| storage_ok := storage_ok w; storage := storage w;
     url_industry := url_industry w; journal := [] |}.

(** The browser after the persist effect wrote position [i] and filter
    [selected]. *)
Definition persisted (i : Z) (selected : string) (w : Browser) : Browser :=
  if storage_ok w then
    {| storage_ok := true;
       storage := <[INDUSTRY_STORAGE_KEY := selected]>
                    (<[STORAGE_KEY := JS.String_of i]> (storage w));
       url_industry := if JS.truthy selected then Some selected else None;
       journal := journal w ++
                  [SetItem STORAGE_KEY (JS.String_of i);
                   SetItem INDUSTRY_STORAGE_KEY selected;
                   ReplaceState (if JS.truthy selected then Some selected else None)] |}
  else w.

(** The text the component keeps from an answer to its request. *)
Definition accepted_text (body : option string) : string :=
  match body with
  | Some text =>
      if JS.truthy text && (0 <? String.length (JS.trim text))%nat
      then text else EmptyString
  | None => EmptyString
  end.

Module FilterSpec.
Import AppFilter.
Section Spec.
Context {ParseError : Type}.
Variable Papa_parse : string -> ParseResult ParseError.

Definition active_total (csv selected : string) : Z :=
  Z.of_nat (length (filterBusinesses (fst (parseBusinesses Papa_parse csv)) selected)).

(** Nothing is queued and the effects have seen the current values. *)
Definition settled (st : State) : Prop :=
  pendingIndex st = None /\
  committed st = Some (currentIndex st, selectedIndustry st, total Papa_parse st).

Definition hydrated (st : State) : Prop :=
  initializedRef st = true /\ hasInitializedRef st = true.

(** What the browser holds would bring a reload back to this state. *)
Definition consistent (st : State) : Prop :=
  settled st /\
  storage_ok (browser st) = true /\
  initializedRef st = hasInitializedRef st /\
  result_of initial_industry (browser st) = Normal (selectedIndustry st) /\
  stored_index (total Papa_parse st) (browser st) = currentIndex st /\
  (hasInitializedRef st = false -> total Papa_parse st = 0) /\
  (fetching st = true -> csvText st = EmptyString /\ hasInitializedRef st = false).

(** When the index moved, storage holds the new one. *)
Definition stores_move (st st' : State) : Prop :=
  currentIndex st' <> currentIndex st ->
  storage (browser st') !! STORAGE_KEY = Some (JS.String_of (currentIndex st')).

(** [st'] is [st] but for the jump box and the queued index. *)
Definition same_core (st st' : State) : Prop :=
  browser st' = browser st /\ csvText st' = csvText st /\
  selectedIndustry st' = selectedIndustry st /\ currentIndex st' = currentIndex st /\
  initializedRef st' = initializedRef st /\
  hasInitializedRef st' = hasInitializedRef st /\
  fetching st' = fetching st /\ committed st' = committed st.

(** The event changes the selected industry. *)
Definition changes_filter (st : State) (e : Event) : bool :=
  match e with
  | SelectIndustry value =>
      card_shown Papa_parse st && negb (String.eqb value (selectedIndustry st))
  | _ => false
  end.

(** What the effects never touch. *)
Definition frame (st st' : State) : Prop :=
  csvText st' = csvText st /\ selectedIndustry st' = selectedIndustry st /\
  currentIndex st' = currentIndex st /\ jumpInput st' = jumpInput st /\
  showJumpInput st' = showJumpInput st /\ fetching st' = fetching st.

(** The industry selected when the page loads in browser [w]. *)
Definition first_industry (w : Browser) : string :=
  match result_of initial_industry (fresh w) with
  | Normal s => s
  | Throws => EmptyString
  end.

(** What a step of a consistent component gives. *)
Definition follows (st st' : State) : Prop :=
  consistent st' /\
  (fetching st = false -> fetching st' = false /\ csvText st' = csvText st) /\
  stores_move st st'.

(** Until the component is hydrated the browser is the one the page was
    loaded in; every write comes after the hydration, which happens at
    most once. *)
Definition guarded (w0 : Browser) (st : State) : Prop :=
  writes_follow_hydration (journal (browser st)) /\
  (hasInitializedRef st = true -> Hydrated ∈ journal (browser st)) /\
  (hasInitializedRef st = false ->
   storage (browser st) = storage w0 /\ url_industry (browser st) = url_industry w0) /\
  hydrations (journal (browser st)) = (if initializedRef st then 1 else 0)%nat.

(** The part of the state the journal properties speak about. *)
Definition same_refs (st st' : State) : Prop :=
  browser st' = browser st /\ initializedRef st' = initializedRef st /\
  hasInitializedRef st' = hasInitializedRef st.


(** Storage is disabled and nothing was written. *)
Definition silent (w0 : Browser) (st : State) : Prop :=
  storage_ok (browser st) = false /\
  storage (browser st) = storage w0 /\
  url_industry (browser st) = url_industry w0 /\
  Forall (fun a => is_write a = false) (journal (browser st)).

(** The index points into the active list, and a list with rows means a
    hydrated component. *)
Definition ranged (st : State) : Prop :=
  settled st /\
  initializedRef st = hasInitializedRef st /\
  (fetching st = true -> csvText st = EmptyString /\ hasInitializedRef st = false) /\
  (hasInitializedRef st = false -> total Papa_parse st = 0) /\
  (total Papa_parse st = 0 -> currentIndex st = 0) /\
  (0 < total Papa_parse st -> 0 <= currentIndex st <= total Papa_parse st - 1).

End Spec.
End FilterSpec.

(** The browser after the persist effect of the card revision wrote
    position [i]. *)
Definition persisted_index_only (i : Z) (w : Browser) : Browser :=
  if storage_ok w then
    {| storage_ok := true;
       storage := <[STORAGE_KEY := JS.String_of i]> (storage w);
       url_industry := url_industry w;
       journal := journal w ++ [SetItem STORAGE_KEY (JS.String_of i)] |}
  else w.

Module CardSpec.
Import AppCard.
Section Spec.
Context {ParseError : Type}.
Variable Papa_parse : string -> ParseResult ParseError.

Definition rows_total (csv : string) : Z :=
  Z.of_nat (length (fst (parseBusinesses Papa_parse csv))).

Definition settled (st : State) : Prop :=
  pendingIndex st = None /\
  committed st = Some (currentIndex st, total Papa_parse st).

Definition consistent (st : State) : Prop :=
  settled st /\
  storage_ok (browser st) = true /\
  initializedRef st = hasInitializedRef st /\
  stored_index (total Papa_parse st) (browser st) = currentIndex st /\
  (hasInitializedRef st = false -> total Papa_parse st = 0) /\
  (fetching st = true -> csvText st = EmptyString /\ hasInitializedRef st = false).

Definition stores_move (st st' : State) : Prop :=
  currentIndex st' <> currentIndex st ->
  storage (browser st') !! STORAGE_KEY = Some (JS.String_of (currentIndex st')).

(** [st'] is [st] but for the position editor and the queued index. *)
Definition same_core (st st' : State) : Prop :=
  browser st' = browser st /\ csvText st' = csvText st /\
  currentIndex st' = currentIndex st /\
  initializedRef st' = initializedRef st /\
  hasInitializedRef st' = hasInitializedRef st /\
  fetching st' = fetching st /\ committed st' = committed st.

Definition guarded (w0 : Browser) (st : State) : Prop :=
  writes_follow_hydration (journal (browser st)) /\
  (hasInitializedRef st = true -> Hydrated ∈ journal (browser st)) /\
  (hasInitializedRef st = false ->
   storage (browser st) = storage w0 /\ url_industry (browser st) = url_industry w0) /\
  hydrations (journal (browser st)) = (if initializedRef st then 1 else 0)%nat.

Definition same_refs (st st' : State) : Prop :=
  browser st' = browser st /\ initializedRef st' = initializedRef st /\
  hasInitializedRef st' = hasInitializedRef st.

Definition follows (st st' : State) : Prop :=
  consistent st' /\
  (fetching st = false -> fetching st' = false /\ csvText st' = csvText st) /\
  stores_move st st'.


(** Storage is disabled and nothing was written. *)
Definition silent (w0 : Browser) (st : State) : Prop :=
  storage_ok (browser st) = false /\
  storage (browser st) = storage w0 /\
  url_industry (browser st) = url_industry w0 /\
  Forall (fun a => is_write a = false) (journal (browser st)).

(** The index points into the list, and a list with rows means a hydrated
    component. *)
Definition ranged (st : State) : Prop :=
  settled st /\
  initializedRef st = hasInitializedRef st /\
  (fetching st = true -> csvText st = EmptyString /\ hasInitializedRef st = false) /\
  (hasInitializedRef st = false -> total Papa_parse st = 0) /\
  (total Papa_parse st = 0 -> currentIndex st = 0) /\
  (0 < total Papa_parse st -> 0 <= currentIndex st <= total Papa_parse st - 1).

End Spec.
End CardSpec.

(** ** The states of the examples *)

Definition demo_browser : Browser := browser_with (Some "2") None None.

(** The filter revision after the rows arrived: position 2 of 5. *)
Definition filter_demo : AppFilter.State :=
  AppFilter.run demo_parse (AppFilter.mount demo_parse demo_browser)
    [AppFilter.FetchDone (Some "csv")].

(** The same with [text] typed in the jump box. *)
Definition filter_jumping (text : string) : AppFilter.State :=
  AppFilter.run demo_parse filter_demo [AppFilter.ClickEntry; AppFilter.TypeJump text].

(** The card revision after the rows arrived: position 2 of 5. *)
Definition card_demo : AppCard.State :=
  AppCard.run demo_parse (AppCard.mount demo_parse demo_browser)
    [AppCard.FetchDone (Some "csv")].

(** The same with [text] typed in the position editor. *)
Definition card_editing (text : string) : AppCard.State :=
  AppCard.run demo_parse card_demo [AppCard.ClickPosition; AppCard.TypeIndex text].

(** A session of the filter revision, and the page reloaded in the browser
    the session leaves. *)
Definition filter_session : AppFilter.State :=
  AppFilter.run demo_parse (AppFilter.mount demo_parse demo_browser)
    [AppFilter.FetchDone (Some "csv"); AppFilter.ClickNext;
     AppFilter.SelectIndustry "Home Services"; AppFilter.ClickNext].

Definition filter_reloaded : AppFilter.State :=
  AppFilter.run demo_parse (AppFilter.mount demo_parse (AppFilter.browser filter_session))
    [AppFilter.FetchDone (Some "csv")].

(** A session of the card revision, and the page reloaded in the browser
    the session leaves. *)
Definition card_session : AppCard.State :=
  AppCard.run demo_parse (AppCard.mount demo_parse demo_browser)
    [AppCard.FetchDone (Some "csv"); AppCard.ClickNext].

Definition card_reloaded : AppCard.State :=
  AppCard.run demo_parse (AppCard.mount demo_parse (AppCard.browser card_session))
    [AppCard.FetchDone (Some "csv")].

(** [filter_demo] with another industry selected. *)
Definition filter_selected : AppFilter.State :=
  AppFilter.step demo_parse filter_demo (AppFilter.SelectIndustry "Law Firm").

(** The rows of the examples. *)
Definition demo_businesses : list Business := fst (parseBusinesses demo_parse "csv").

(** A browser whose storage is disabled, opened on a link that names an
    industry. *)
Definition disabled_browser : Browser :=
  {| storage_ok := false; storage := ∅;
     url_industry := Some "Law Firm"%string; journal := [] |}.

(** A browser that kept an industry of which the data has no row. *)
Definition stale_browser : Browser := browser_with (Some "2") (Some "Bakery") None.

(** ** The first revision: what every state keeps *)

Module EmbeddedSpec.
Import AppEmbedded.
Section Spec.
Context {ParseError : Type}.
Variable Papa_parse : string -> ParseResult ParseError.

(** The index is in the list, only the key of the position was written,
    and a working storage holds the index. *)
Definition kept (w : Browser) (st : State) : Prop :=
  storage_ok (browser st) = storage_ok w /\
  url_industry (browser st) = url_industry w /\
  (forall k, k <> STORAGE_KEY -> storage (browser st) !! k = storage w !! k) /\
  (storage_ok w = true ->
   storage (browser st) !! STORAGE_KEY = Some (JS.String_of (currentIndex st))) /\
  (storage_ok w = false -> storage (browser st) = storage w /\ journal (browser st) = []) /\
  (0 < total Papa_parse -> 0 <= currentIndex st <= total Papa_parse - 1) /\
  (total Papa_parse = 0 -> currentIndex st = 0).

End Spec.
End EmbeddedSpec.

(** A stand-in for the parser on the text of the first revision: its
    four lines. *)
Definition embedded_rows : list (gmap string string) :=
  [ row "https://ontariolitigationlawyers.com/toronto-civil-litigation/"
      "Toronto Civil Litigation Lawyers - Powell Litigation" "Law Firm"
      "Toronto Civil Litigation Lawyers - Powell Litigation" "Toronto, ON" "(437) 222-2234";
    row "https://acmeplumbing.com" "Acme Plumbing" "Home Services" "Acme Plumbing Co."
      "Austin, TX" "(512) 555-1212";
    row "https://designhub.ca" "Design Hub" "Creative Agency" "Design Hub Inc."
      "Vancouver, BC" "(604) 123-4567";
    row "https://greenfarms.org" "Green Farms Market" "Food & Beverage" "Green Farms Market"
      "Denver, CO" "(303) 555-9876" ].

Definition embedded_parse (text : string) : ParseResult unit :=
  mkParseResult embedded_rows [].

(** ** What both revisions with a fetch have in common *)

(** The answer to the request and the two buttons. *)
Inductive Move : Type :=
| Answer (body : option string)
| Previous
| Next.

Definition card_event (m : Move) : AppCard.Event :=
  match m with
  | Answer body => AppCard.FetchDone body
  | Previous => AppCard.ClickPrevious
  | Next => AppCard.ClickNext
  end.

Definition filter_event (m : Move) : AppFilter.Event :=
  match m with
  | Answer body => AppFilter.FetchDone body
  | Previous => AppFilter.ClickPrevious
  | Next => AppFilter.ClickNext
  end.

(** The two components show the same position of the same rows. *)
Definition same_view {E} (Papa : string -> ParseResult E)
    (sf : AppFilter.State) (sc : AppCard.State) : Prop :=
  FilterSpec.ranged Papa sf /\ CardSpec.ranged Papa sc /\
  AppFilter.selectedIndustry sf = EmptyString /\
  AppFilter.csvText sf = AppCard.csvText sc /\
  AppFilter.currentIndex sf = AppCard.currentIndex sc /\
  AppFilter.fetching sf = AppCard.fetching sc /\
  (AppFilter.fetching sf = true -> AppFilter.browser sf = AppCard.browser sc).

(** * Properties *)

(** ** Strings *)

Lemma strip_non_digits_filter (p : string) :
  list_ascii_of_string (JS.strip_non_digits p)
  = List.filter JS.is_digit (list_ascii_of_string p).
Proof.
  induction p as [|c r IH]; simpl; [reflexivity|].
  destruct (JS.is_digit c); simpl; congruence.
Qed.

Lemma strip_non_digits_all_digits (p : string) :
  all_chars JS.is_digit (JS.strip_non_digits p) = true.
Proof.
  induction p as [|c r IH]; simpl; [reflexivity|].
  destruct (JS.is_digit c) eqn:E; simpl; [rewrite E|]; exact IH.
Qed.

Lemma strip_non_digits_fixed (d : string) :
  all_chars JS.is_digit d = true -> JS.strip_non_digits d = d.
Proof.
  induction d as [|c r IH]; simpl; [reflexivity|].
  intros [Hc Hr]%andb_prop. rewrite Hc, (IH Hr). reflexivity.
Qed.

Lemma string_length_list (s : string) :
  String.length s = length (list_ascii_of_string s).
Proof. induction s; simpl; congruence. Qed.

Lemma ten_chars (d : string) :
  String.length d = 10%nat ->
  exists a b c e f g h i j k,
    d = String a (String b (String c (String e (String f (String g
          (String h (String i (String j (String k EmptyString))))))))).
Proof.
  intros H.
  do 10 (destruct d as [|? d]; [discriminate H|]).
  destruct d; [|discriminate H].
  repeat eexists.
Qed.

Lemma formatPhoneNumber_ten (p : string) (a b c e f g h i j k : ascii) :
  JS.strip_non_digits p
  = String a (String b (String c (String e (String f (String g
      (String h (String i (String j (String k EmptyString))))))))) ->
  formatPhoneNumber p = phone_shape a b c e f g h i j k.
Proof. intros H. unfold formatPhoneNumber. rewrite H. reflexivity. Qed.

Lemma formatPhoneNumber_other (p : string) :
  String.length (JS.strip_non_digits p) <> 10%nat -> formatPhoneNumber p = p.
Proof.
  intros H. unfold formatPhoneNumber.
  destruct (Nat.eqb_spec (String.length (JS.strip_non_digits p)) 10%nat); congruence.
Qed.

(** C8: the displayed phone is [(XXX) XXX-XXXX] built from the digits of
    [p] when exactly ten digits remain after every non-digit is removed,
    and [p] itself otherwise; ["5551234567"] becomes ["(555) 123-4567"] and
    ["555-CALL-NOW"] stays as it is. *)
Theorem formatPhoneNumber_spec (p : string) :
  let digits := List.filter JS.is_digit (list_ascii_of_string p) in
  (length digits = 10%nat ->
   exists a b c e f g h i j k,
     digits = [a; b; c; e; f; g; h; i; j; k] /\
     formatPhoneNumber p = phone_shape a b c e f g h i j k) /\
  (length digits <> 10%nat -> formatPhoneNumber p = p) /\
  formatPhoneNumber "5551234567" = "(555) 123-4567"%string /\
  formatPhoneNumber "555-CALL-NOW" = "555-CALL-NOW"%string.
Proof.
  cbv zeta. rewrite <- strip_non_digits_filter, <- string_length_list.
  split; [|split; [|split; reflexivity]].
  - intros H. destruct (ten_chars _ H) as (a & b & c & e & f & g & h & i & j & k & Hd).
    exists a, b, c, e, f, g, h, i, j, k. split.
    + rewrite Hd. reflexivity.
    + apply formatPhoneNumber_ten, Hd.
  - apply formatPhoneNumber_other.
Qed.

Lemma formatPhoneNumber_spec_witness :
  exists a b c e f g h i j k,
    List.filter JS.is_digit (list_ascii_of_string "(604) 123-4567")
    = [a; b; c; e; f; g; h; i; j; k] /\
    formatPhoneNumber "(604) 123-4567" = phone_shape a b c e f g h i j k.
Proof.
  apply (proj1 (formatPhoneNumber_spec "(604) 123-4567")). reflexivity.
Defined.

(** C10: formatting a phone number twice is the same as formatting it
    once. *)
Theorem formatPhoneNumber_idempotent (p : string) :
  formatPhoneNumber (formatPhoneNumber p) = formatPhoneNumber p.
Proof.
  destruct (Nat.eq_dec (String.length (JS.strip_non_digits p)) 10%nat) as [H|H].
  - destruct (ten_chars _ H) as (a & b & c & e & f & g & h & i & j & k & Hd).
    pose proof (strip_non_digits_all_digits p) as Hall.
    rewrite Hd in Hall. simpl in Hall.
    repeat (apply andb_prop in Hall; destruct Hall as [? Hall]).
    rewrite (formatPhoneNumber_ten p _ _ _ _ _ _ _ _ _ _ Hd).
    apply formatPhoneNumber_ten.
    unfold phone_shape. simpl.
    repeat match goal with E : JS.is_digit _ = true |- _ => rewrite E; clear E end.
    reflexivity.
  - rewrite (formatPhoneNumber_other p H). apply formatPhoneNumber_other, H.
Qed.

(** ** [trim] *)

Lemma trimStart_split (s : string) :
  exists pre,
    s = (pre +:+ JS.trimStart s)%string /\
    all_chars JS.is_white_space pre = true /\
    (forall c, first_char (JS.trimStart s) = Some c -> JS.is_white_space c = false).
Proof.
  induction s as [|c r (pre & Hs & Hpre & Hfirst)]; simpl.
  - exists EmptyString. split; [reflexivity|]. split; [reflexivity|discriminate].
  - destruct (JS.is_white_space c) eqn:E.
    + exists (String c pre). simpl. rewrite E, Hpre.
      split; [exact (f_equal (String c) Hs)|]. split; [reflexivity|exact Hfirst].
    + exists EmptyString. simpl.
      split; [reflexivity|]. split; [reflexivity|]. intros c' [= <-]. exact E.
Qed.

Lemma trimEnd_split (s : string) :
  exists post,
    s = (JS.trimEnd s +:+ post)%string /\
    all_chars JS.is_white_space post = true /\
    (forall c, last_char (JS.trimEnd s) = Some c -> JS.is_white_space c = false).
Proof.
  induction s as [|c r (post & Hs & Hpost & Hlast)]; simpl.
  - exists EmptyString. split; [reflexivity|]. split; [reflexivity|discriminate].
  - destruct (JS.trimEnd r) as [|c' r'] eqn:Er.
    + change (r = post) in Hs. subst r. destruct (JS.is_white_space c) eqn:E.
      * exists (String c post). simpl. rewrite E, Hpost.
        split; [reflexivity|]. split; [reflexivity|discriminate].
      * exists post. simpl.
        split; [reflexivity|]. split; [exact Hpost|]. intros c' [= <-]. exact E.
    + exists post.
      split; [exact (f_equal (String c) Hs)|]. split; [exact Hpost|exact Hlast].
Qed.

Lemma trimEnd_first (s : string) (c : ascii) :
  first_char (JS.trimEnd s) = Some c -> first_char s = Some c.
Proof.
  destruct s as [|a r]; simpl; [discriminate|].
  destruct (JS.trimEnd r); [destruct (JS.is_white_space a)|]; simpl; congruence.
Qed.

Lemma trim_is_trim_of (s : string) : is_trim_of s (JS.trim s).
Proof.
  destruct (trimStart_split s) as (pre & Hs & Hpre & Hfirst).
  destruct (trimEnd_split (JS.trimStart s)) as (post & Ht & Hpost & Hlast).
  exists pre, post. unfold JS.trim.
  split; [rewrite <- Ht; exact Hs|]. split; [exact Hpre|]. split; [exact Hpost|].
  split; [|exact Hlast].
  intros c Hc. apply Hfirst, trimEnd_first, Hc.
Qed.

(** ** [getStoredIndex] *)

Lemma clamp_in_range (v hi : Z) : 0 <= hi -> 0 <= clamp v 0 hi <= hi.
Proof. unfold clamp. lia. Qed.

Lemma clamp_fixed (v hi : Z) : 0 <= v <= hi -> clamp v 0 hi = v.
Proof. unfold clamp. lia. Qed.

(** [getStoredIndex] never throws and leaves the browser alone. *)
Lemma getStoredIndex_returns (total : Z) (w : Browser) :
  getStoredIndex total w = (Normal (stored_index total w), w).
Proof.
  unfold stored_index, result_of, getStoredIndex.
  destruct (total =? 0); [reflexivity|].
  unfold try_catch, bind, getItem, ret.
  destruct (storage_ok w); reflexivity.
Qed.

Lemma stored_index_in_range (total : Z) (w : Browser) :
  0 < total -> 0 <= stored_index total w <= total - 1.
Proof.
  intros Ht. unfold stored_index, result_of, getStoredIndex.
  destruct (Z.eqb_spec total 0); [lia|].
  unfold try_catch, bind, getItem, ret.
  destruct (storage_ok w); simpl; [|lia].
  destruct (storage w !! STORAGE_KEY) as [s|]; [destruct (JS.truthy s)|].
  - destruct (JS.parseInt s); try lia. apply clamp_in_range. lia.
  - apply clamp_in_range. lia.
  - apply clamp_in_range. lia.
Qed.

Lemma stored_index_zero (w : Browser) : stored_index 0 w = 0.
Proof. reflexivity. Qed.

(** C9: [getStoredIndex] always returns, whatever the storage holds (or
    throws): 0 for an empty list, and an index of the list otherwise. *)
Theorem getStoredIndex_in_bounds (w : Browser) (n : nat) :
  exists z,
    getStoredIndex (Z.of_nat n) w = (Normal z, w) /\
    (n = 0%nat -> z = 0) /\
    ((0 < n)%nat -> 0 <= z <= Z.of_nat n - 1).
Proof.
  exists (stored_index (Z.of_nat n) w). split; [apply getStoredIndex_returns|]. split.
  - intros ->. reflexivity.
  - intros Hn. apply stored_index_in_range. lia.
Qed.

Lemma getStoredIndex_in_bounds_witness :
  exists z,
    getStoredIndex 4 (browser_with (Some "99") None None)
    = (Normal z, browser_with (Some "99") None None) /\ 0 <= z <= 3.
Proof.
  destruct (getStoredIndex_in_bounds (browser_with (Some "99") None None) 4)
    as (z & Hz & _ & Hr).
  exists z. split; [exact Hz|]. apply Hr. lia.
Defined.

(** What corrupted storage gives on a list of four rows. *)
Example getStoredIndex_corrupted :
  let throwing := {| storage_ok := false; storage := ∅;
                     url_industry := None; journal := [] |} in
  stored_index 4 (browser_with None None None) = 0 /\
  stored_index 4 (browser_with (Some "") None None) = 0 /\
  stored_index 4 (browser_with (Some "abc") None None) = 0 /\
  stored_index 4 (browser_with (Some "-5") None None) = 0 /\
  stored_index 4 (browser_with (Some "99") None None) = 3 /\
  stored_index 4 (browser_with (Some "2") None None) = 2 /\
  stored_index 4 throwing = 0 /\
  stored_index 0 (browser_with (Some "2") None None) = 0.
Proof. repeat split; vm_compute; reflexivity. Qed.

(** ** Parsing and filtering *)

Lemma truthy_nonempty (s : string) : JS.truthy s = true <-> s <> EmptyString.
Proof. destruct s; simpl; split; congruence. Qed.

Lemma has_contact_tracked (b : Business) :
  has_contact b = true <-> has_tracked_field b.
Proof.
  unfold has_contact, has_tracked_field.
  rewrite !orb_true_iff, !truthy_nonempty. tauto.
Qed.

Lemma List_filter_stdpp {A} (f : A -> bool) (P : A -> Prop)
    `{!forall x, Decision (P x)} (l : list A) :
  (forall x, f x = true <-> P x) -> List.filter f l = filter P l.
Proof.
  intros Hf. induction l as [|x l IH]; [reflexivity|].
  simpl. rewrite filter_cons. destruct (f x) eqn:E.
  - rewrite decide_True by (apply Hf, E). f_equal. exact IH.
  - rewrite decide_False; [exact IH|]. intros HP. apply Hf in HP. congruence.
Qed.

Lemma trimmed_field_is_trim (row : gmap string string) (key : string) :
  is_trim_of (raw_field row key) (trimmed_field row key).
Proof.
  unfold raw_field, trimmed_field. destruct (row !! key) as [raw|]; simpl.
  - apply trim_is_trim_of.
  - exact (trim_is_trim_of EmptyString).
Qed.

Lemma normalize_trimmed_copy (row : gmap string string) :
  trimmed_copy row (normalize row).
Proof. repeat split; apply trimmed_field_is_trim. Qed.

Lemma is_trim_of_trimmed (s t : string) : is_trim_of s t -> is_trimmed t.
Proof. intros (pre & post & _ & _ & _ & H). exact H. Qed.

Lemma parseBusinesses_filter {E} (Papa : string -> ParseResult E) (text : string) :
  fst (parseBusinesses Papa text)
  = filter has_tracked_field (normalize <$> data (Papa (JS.trim text))).
Proof. unfold parseBusinesses. simpl. apply List_filter_stdpp, has_contact_tracked. Qed.

(** C6: the dataset is the list of parsed lines, each field trimmed, from
    which the lines with no business name, company name, site and phone
    number are dropped; a line with only a phone number stays. *)
Theorem parseBusinesses_spec {E} (Papa : string -> ParseResult E) (text : string) :
  let rows := data (Papa (JS.trim text)) in
  let bs := fst (parseBusinesses Papa text) in
  bs = filter has_tracked_field (normalize <$> rows) /\
  (forall row, trimmed_copy row (normalize row)) /\
  (forall b, b ∈ bs -> fields_trimmed b /\ exists row, row ∈ rows /\ b = normalize row) /\
  (forall row, row ∈ rows -> (normalize row ∈ bs <-> has_tracked_field (normalize row))) /\
  (forall blank phone_only : gmap string string,
     blank = row "" "  " "Law Firm" "" "Toronto, ON" " " ->
     phone_only = row "" "" "" "" "" " 555-CALL-NOW " ->
     Papa (JS.trim text) = mkParseResult [blank; phone_only] [] ->
     bs = [normalize phone_only] /\
     phone_number (normalize phone_only) = "555-CALL-NOW"%string).
Proof.
  intros rows bs.
  assert (Hbs : bs = filter has_tracked_field (normalize <$> rows))
    by apply parseBusinesses_filter.
  split; [exact Hbs|]. split; [exact normalize_trimmed_copy|]. split; [|split].
  - intros b Hb. rewrite Hbs in Hb.
    apply list_elem_of_filter in Hb as [_ Hb].
    apply list_elem_of_fmap in Hb as (r & -> & Hr).
    split; [|exists r; split; [exact Hr|reflexivity]].
    destruct (normalize_trimmed_copy r) as (H1 & H2 & H3 & H4 & H5 & H6).
    repeat split; eapply is_trim_of_trimmed; eassumption.
  - intros r Hr. rewrite Hbs, list_elem_of_filter. split; [tauto|].
    intros H. split; [exact H|]. apply list_elem_of_fmap. exists r. tauto.
  - intros blank phone_only -> -> HP. subst bs rows.
    unfold parseBusinesses. rewrite HP. split; vm_compute; reflexivity.
Qed.

Lemma parseBusinesses_spec_witness :
  fst (parseBusinesses
         (fun _ => mkParseResult
                     [row "" "  " "Law Firm" "" "Toronto, ON" " ";
                      row "" "" "" "" "" " 555-CALL-NOW "] ([] : list unit)) "csv")
  = [normalize (row "" "" "" "" "" " 555-CALL-NOW ")] /\
  phone_number (normalize (row "" "" "" "" "" " 555-CALL-NOW ")) = "555-CALL-NOW"%string.
Proof.
  apply (proj2 (proj2 (proj2 (proj2
           (parseBusinesses_spec
              (fun _ => mkParseResult
                          [row "" "  " "Law Firm" "" "Toronto, ON" " ";
                           row "" "" "" "" "" " 555-CALL-NOW "] ([] : list unit))
              "csv")))) _ _ eq_refl eq_refl eq_refl).
Defined.

Lemma filterBusinesses_selected (bs : list Business) (selected : string) :
  selected <> EmptyString ->
  AppFilter.filterBusinesses bs selected = filter (fun b => industry b = selected) bs.
Proof.
  intros Hs. unfold AppFilter.filterBusinesses.
  apply truthy_nonempty in Hs. rewrite Hs. simpl.
  apply List_filter_stdpp. intros b. apply String.eqb_eq.
Qed.

(** C7: with an industry selected, the active list is the rows of the
    dataset with that industry, in the order of the dataset; with none
    selected it is the whole dataset. *)
Theorem filterBusinesses_spec (bs : list Business) (selected : string) :
  (selected = EmptyString -> AppFilter.filterBusinesses bs selected = bs) /\
  (selected <> EmptyString ->
   AppFilter.filterBusinesses bs selected = filter (fun b => industry b = selected) bs /\
   AppFilter.filterBusinesses bs selected `sublist_of` bs /\
   (forall b, b ∈ AppFilter.filterBusinesses bs selected
              <-> b ∈ bs /\ industry b = selected)).
Proof.
  split.
  - intros ->. reflexivity.
  - intros Hs. rewrite (filterBusinesses_selected bs selected Hs).
    split; [reflexivity|]. split; [apply sublist_filter|].
    intros b. rewrite list_elem_of_filter. tauto.
Qed.

Lemma filterBusinesses_spec_witness :
  AppFilter.filterBusinesses (fst (parseBusinesses demo_parse "csv")) "Law Firm"
  = filter (fun b => industry b = "Law Firm"%string)
      (fst (parseBusinesses demo_parse "csv")) /\
  AppFilter.filterBusinesses (fst (parseBusinesses demo_parse "csv")) ""
  = fst (parseBusinesses demo_parse "csv").
Proof.
  split.
  - apply (proj2 (filterBusinesses_spec _ "Law Firm")). discriminate.
  - apply (proj1 (filterBusinesses_spec _ "")). reflexivity.
Defined.

(** ** Printing an index and reading it back *)

Lemma digit_char_is_digit (d : Z) : 0 <= d < 10 -> JS.is_digit (JS.digit_char d) = true.
Proof.
  intros H.
  assert (d = 0 \/ d = 1 \/ d = 2 \/ d = 3 \/ d = 4 \/ d = 5 \/ d = 6 \/ d = 7 \/ d = 8 \/ d = 9)
    as Hd by lia.
  repeat (destruct Hd as [->|Hd]; [reflexivity|]). subst. reflexivity.
Qed.

Lemma digit_value_char (d : Z) : 0 <= d < 10 -> JS.digit_value (JS.digit_char d) = d.
Proof.
  intros H.
  assert (d = 0 \/ d = 1 \/ d = 2 \/ d = 3 \/ d = 4 \/ d = 5 \/ d = 6 \/ d = 7 \/ d = 8 \/ d = 9)
    as Hd by lia.
  repeat (destruct Hd as [->|Hd]; [reflexivity|]). subst. reflexivity.
Qed.

Lemma decimal_starts_with_digit (fuel : nat) (n : Z) (acc : string) :
  exists c r, JS.decimal fuel n acc = String c r /\ JS.is_digit c = true.
Proof.
  revert n acc. induction fuel as [|fuel IH]; intros n acc; simpl.
  - eexists _, _. split; [reflexivity|]. apply digit_char_is_digit, Z.mod_pos_bound. lia.
  - destruct (n <? 10); [|apply IH].
    eexists _, _. split; [reflexivity|]. apply digit_char_is_digit, Z.mod_pos_bound. lia.
Qed.

Lemma digits_value_decimal (fuel : nat) (n : Z) (acc : string) :
  0 <= n < 10 ^ Z.of_nat (S fuel) ->
  JS.digits_value 0 (JS.decimal fuel n acc) = JS.digits_value n acc.
Proof.
  revert n acc. induction fuel as [|fuel IH]; intros n acc Hn.
  - change (10 ^ Z.of_nat 1) with 10 in Hn. simpl.
    rewrite digit_char_is_digit, digit_value_char by (apply Z.mod_pos_bound; lia).
    rewrite Z.mod_small by lia. f_equal.
  - simpl JS.decimal. destruct (Z.ltb_spec n 10) as [Hlt|Hge].
    + simpl. rewrite digit_char_is_digit, digit_value_char by (apply Z.mod_pos_bound; lia).
      rewrite Z.mod_small by lia. f_equal.
    + rewrite IH.
      * simpl. rewrite digit_char_is_digit, digit_value_char by (apply Z.mod_pos_bound; lia).
        f_equal. pose proof (Z.div_mod n 10). lia.
      * split; [apply Z.div_pos; lia|].
        apply Z.div_lt_upper_bound; [lia|].
        rewrite (Nat2Z.inj_succ (S fuel)), Z.pow_succ_r in Hn by lia. lia.
Qed.

Lemma parseInt_digit_start (c : ascii) (r : string) :
  JS.is_digit c = true ->
  JS.parseInt (String c r)
  = if JS.overflow_bound <=? JS.digits_value 0 (String c r) then JS.Infinity false
    else JS.Finite (JS.digits_value 0 (String c r)).
Proof.
  intros Hc.
  destruct c as [[] [] [] [] [] [] [] []]; try discriminate Hc; reflexivity.
Qed.

Lemma log2_fuel (n : Z) : 0 <= n -> n < 10 ^ Z.of_nat (S (Z.to_nat (Z.log2 n))).
Proof.
  intros Hn. rewrite Nat2Z.inj_succ, Z2Nat.id by apply Z.log2_nonneg.
  destruct (Z.eq_dec n 0) as [->|Hz]; [reflexivity|].
  eapply Z.lt_le_trans; [apply Z.log2_spec; lia|].
  apply Z.pow_le_mono_l. lia.
Qed.

Lemma parseInt_String_of (k : Z) :
  0 <= k < JS.overflow_bound -> JS.parseInt (JS.String_of k) = JS.Finite k.
Proof.
  intros [H0 Hk]. unfold JS.String_of.
  destruct (Z.ltb_spec k 0); [lia|].
  destruct (decimal_starts_with_digit (Z.to_nat (Z.log2 k)) k EmptyString)
    as (c & r & Hd & Hc).
  pose proof (digits_value_decimal (Z.to_nat (Z.log2 k)) k EmptyString
                (conj H0 (log2_fuel k H0))) as Hv.
  rewrite Hd in *. rewrite (parseInt_digit_start c r Hc), Hv. simpl JS.digits_value.
  destruct (Z.leb_spec JS.overflow_bound k); [lia|reflexivity].
Qed.

Lemma truthy_String_of (k : Z) : JS.truthy (JS.String_of k) = true.
Proof.
  unfold JS.String_of. destruct (k <? 0); [reflexivity|].
  destruct (decimal_starts_with_digit (Z.to_nat (Z.log2 k)) k EmptyString)
    as (c & r & -> & _). reflexivity.
Qed.

(** ** The filter revision: renders, consistency and reloads *)

Lemma stored_index_record (t : Z) (a : Action) (w : Browser) :
  stored_index t (record a w) = stored_index t w.
Proof.
  unfold stored_index, result_of, getStoredIndex.
  destruct (t =? 0); [reflexivity|].
  unfold try_catch, bind, getItem, ret, record. simpl.
  destruct (storage_ok w); reflexivity.
Qed.

Lemma overflow_above_arrays : MAX_ARRAY_LENGTH < JS.overflow_bound.
Proof. reflexivity. Qed.

Lemma stored_index_written (t i : Z) (w : Browser) :
  storage_ok w = true -> storage w !! STORAGE_KEY = Some (JS.String_of i) ->
  0 <= i <= t - 1 -> t <= MAX_ARRAY_LENGTH ->
  stored_index t w = i.
Proof.
  intros Hok Hs Hi Ht. unfold stored_index, result_of, getStoredIndex.
  destruct (Z.eqb_spec t 0); [lia|].
  unfold try_catch, bind, getItem, ret. rewrite Hok. simpl. rewrite Hs.
  rewrite truthy_String_of, parseInt_String_of.
  - apply clamp_fixed, Hi.
  - pose proof overflow_above_arrays. lia.
Qed.

Lemma persisted_ok (i : Z) (sel : string) (w : Browser) :
  storage_ok w = true -> storage_ok (persisted i sel w) = true.
Proof. intros H. unfold persisted. rewrite H. reflexivity. Qed.

Lemma persisted_index (i : Z) (sel : string) (w : Browser) :
  storage_ok w = true ->
  storage (persisted i sel w) !! STORAGE_KEY = Some (JS.String_of i).
Proof.
  intros H. unfold persisted. rewrite H. simpl.
  rewrite lookup_insert_ne by discriminate. apply lookup_insert_eq.
Qed.

Lemma stored_index_persisted (t i : Z) (sel : string) (w : Browser) :
  storage_ok w = true -> 0 <= i <= t - 1 -> t <= MAX_ARRAY_LENGTH ->
  stored_index t (persisted i sel w) = i.
Proof.
  intros Hok Hi Ht. apply stored_index_written; auto using persisted_ok, persisted_index.
Qed.

Lemma initial_industry_persisted (i : Z) (sel : string) (w : Browser) :
  storage_ok w = true ->
  result_of AppFilter.initial_industry (persisted i sel w) = Normal sel.
Proof.
  intros Hok. unfold persisted. rewrite Hok.
  unfold result_of, AppFilter.initial_industry, bind, url_get_industry, try_catch, getItem, ret.
  simpl. destruct sel as [|c r]; simpl; [|reflexivity].
  rewrite lookup_insert_eq. reflexivity.
Qed.

Lemma initial_industry_record (a : Action) (w : Browser) :
  result_of AppFilter.initial_industry (record a w)
  = result_of AppFilter.initial_industry w.
Proof.
  unfold result_of, AppFilter.initial_industry, bind, url_get_industry, try_catch, getItem, ret.
  destruct w as [ok m u j]. unfold record. simpl.
  destruct u as [u|]; [destruct (JS.truthy u)|]; destruct ok; reflexivity.
Qed.

Lemma initial_industry_returns (w : Browser) :
  exists s, AppFilter.initial_industry w = (Normal s, w).
Proof.
  unfold AppFilter.initial_industry, bind, url_get_industry, try_catch, getItem, ret.
  destruct (url_industry w) as [u|]; [destruct (JS.truthy u)|];
    destruct (storage_ok w); eauto.
Qed.

(** ** The journal *)

Lemma wfh_nil : writes_follow_hydration [].
Proof. intros pre a post H. destruct pre; discriminate H. Qed.

Lemma wfh_snoc (j : list Action) (a : Action) :
  writes_follow_hydration j -> (is_write a = true -> Hydrated ∈ j) ->
  writes_follow_hydration (j ++ [a]).
Proof.
  intros Hj Ha pre x post Heq Hx.
  destruct post as [|y post _] using rev_ind.
  - apply app_inj_tail in Heq as [<- <-]. apply Ha, Hx.
  - rewrite app_comm_cons, app_assoc in Heq.
    apply app_inj_tail in Heq as [Heq _]. apply (Hj pre x post Heq Hx).
Qed.

Lemma wfh_writes (j l : list Action) :
  writes_follow_hydration j -> Hydrated ∈ j -> writes_follow_hydration (j ++ l).
Proof.
  intros Hj Hh. induction l as [|a l IH] using rev_ind.
  - rewrite app_nil_r. exact Hj.
  - rewrite app_assoc. apply wfh_snoc; [exact IH|]. intros _. apply elem_of_app. auto.
Qed.

Lemma resets_app (j l : list Action) : resets (j ++ l) = (resets j + resets l)%nat.
Proof. unfold resets. rewrite List.filter_app, length_app. reflexivity. Qed.

Lemma hydrations_app (j l : list Action) :
  hydrations (j ++ l) = (hydrations j + hydrations l)%nat.
Proof. unfold hydrations. rewrite List.filter_app, length_app. reflexivity. Qed.

Lemma persisted_journal (i : Z) (sel : string) (w : Browser) :
  exists l, journal (persisted i sel w) = journal w ++ l /\
            resets l = 0%nat /\ hydrations l = 0%nat /\
            (storage_ok w = false -> persisted i sel w = w).
Proof.
  unfold persisted. destruct (storage_ok w).
  - eexists. split; [reflexivity|]. repeat split. discriminate.
  - exists []. rewrite app_nil_r. repeat split.
Qed.

(** ** Reading a list at an index *)

Lemma at_index_is_Some {A} (l : list A) (i : Z) :
  0 <= i < Z.of_nat (length l) -> is_Some (at_index l i).
Proof.
  intros Hi. unfold at_index.
  destruct (Z.ltb_spec i 0); [lia|]. apply lookup_lt_is_Some. lia.
Qed.

Lemma at_index_nil {A} (l : list A) (i : Z) :
  Z.of_nat (length l) = 0 -> at_index l i = None.
Proof.
  intros Hl. destruct l; [|cbn in Hl; lia].
  unfold at_index. destruct (i <? 0); reflexivity.
Qed.

Lemma at_index_0 {A} (l : list A) : at_index l 0 = head l.
Proof. destruct l; reflexivity. Qed.

Lemma at_index_lookup {A} (l : list A) (i : Z) :
  0 <= i -> at_index l i = l !! Z.to_nat i.
Proof. intros Hi. unfold at_index. destruct (Z.ltb_spec i 0); [lia|reflexivity]. Qed.

(** ** The industry selected when the page loads *)

Lemma first_industry_cases (w : Browser) :
  FilterSpec.first_industry w
  = let stored :=
      if storage_ok w then default EmptyString (storage w !! INDUSTRY_STORAGE_KEY)
      else EmptyString in
    match url_industry w with
    | Some (String c u) => String c u
    | _ => stored
    end.
Proof.
  unfold FilterSpec.first_industry, AppFilter.initial_industry, result_of, fresh.
  unfold bind, url_get_industry, try_catch, getItem, ret. cbn.
  destruct (url_industry w) as [[|c u]|]; cbn;
    destruct (storage_ok w); cbn; try reflexivity;
    destruct (storage w !! INDUSTRY_STORAGE_KEY) as [[|d s]|]; reflexivity.
Qed.

Module FilterFacts.
Import AppFilter FilterSpec.
Section Facts.
Context {E : Type}.
Variable Papa : string -> ParseResult E.

Ltac norm :=
  cbv [with_browser with_csvText with_selectedIndustry with_currentIndex
       with_jumpInput with_showJumpInput with_initializedRef
       with_hasInitializedRef with_fetching with_pendingIndex with_committed
       setCurrentIndex setSelectedIndustry setCsvText setJumpInput
       setShowJumpInput log fetch_effect reset_effect apply_pending
       browser csvText selectedIndustry currentIndex jumpInput showJumpInput
       initializedRef hasInitializedRef fetching pendingIndex committed
       negb andb orb] in *.

Lemma total_eq (st : State) :
  total Papa st = active_total Papa (csvText st) (selectedIndustry st).
Proof. reflexivity. Qed.

Lemma persist_effect_eq (st : State) :
  persist_effect st
  = if hasInitializedRef st
    then with_browser (persisted (currentIndex st) (selectedIndustry st) (browser st)) st
    else st.
Proof.
  unfold persist_effect, persisted.
  destruct (hasInitializedRef st); simpl; [|reflexivity].
  f_equal. unfold browser_after, try_catch, bind, setItem, replaceState, ret.
  destruct (browser st) as [ok m u j]. destruct ok; simpl; [|reflexivity].
  rewrite <- !app_assoc. reflexivity.
Qed.

Lemma restore_effect_eq (st : State) :
  restore_effect Papa st
  = if negb (initializedRef st) && (0 <? total Papa st)
    then setCurrentIndex (stored_index (total Papa st) (browser st))
           (log Hydrated (with_hasInitializedRef true (with_initializedRef true st)))
    else st.
Proof.
  unfold restore_effect.
  destruct (negb (initializedRef st) && (0 <? total Papa st)); [|reflexivity].
  unfold read_stored_index. rewrite getStoredIndex_returns.
  unfold log at 1. cbn [browser with_browser]. rewrite stored_index_record.
  destruct st; reflexivity.
Qed.

Lemma render_unfold (n : nat) (st : State) :
  render Papa (S n) st
  = match pendingIndex (commit Papa (apply_pending st)) with
    | Some _ => render Papa n (commit Papa (apply_pending st))
    | None => commit Papa (apply_pending st)
    end.
Proof. reflexivity. Qed.

Lemma commit_settled (st : State) : settled Papa st -> commit Papa st = st.
Proof.
  intros [Hp Hc]. unfold commit. rewrite Hc.
  rewrite Z.eqb_refl, String.eqb_refl, Z.eqb_refl. simpl.
  rewrite total_eq in *.
  destruct st; simpl in *. subst. reflexivity.
Qed.

(** A render in which neither the filter nor the total changed: at most
    the index is persisted. *)
Lemma render_index_only (n : nat) (st : State) (i0 : Z) :
  committed st = Some (i0, selectedIndustry st, total Papa st) ->
  render Papa n st
  = let st' := apply_pending st in
    with_committed (Some (currentIndex st', selectedIndustry st, total Papa st))
      (if currentIndex st' =? i0 then st' else persist_effect st').
Proof.
  intros Hc. rewrite total_eq in *.
  destruct st as [w csv sel i ji sj ir hr fe p co]; simpl in *. subst co.
  destruct n; simpl; unfold commit, apply_pending; simpl.
  all: destruct p as [v|]; simpl; rewrite ?total_eq; simpl.
  all: rewrite String.eqb_refl, Z.eqb_refl; simpl.
  all: rewrite (Z.eqb_sym i0).
  all: try destruct (v =? i0); try destruct (i =? i0); simpl; try reflexivity.
  all: rewrite persist_effect_eq; simpl; destruct hr; reflexivity.
Qed.

Lemma render_settled (n : nat) (st : State) : settled Papa st -> render Papa n st = st.
Proof.
  intros [Hp Hc]. rewrite (render_index_only n st _ Hc).
  unfold apply_pending. rewrite Hp. simpl. rewrite Z.eqb_refl.
  rewrite total_eq in *. destruct st; simpl in *. subst. reflexivity.
Qed.

(** The render after the selected industry changed, in a hydrated
    component. *)
Lemma render_filter_change (n : nat) (st : State) (i0 : Z) (f0 : string) (t0 : Z) :
  committed st = Some (i0, f0, t0) -> pendingIndex st = None ->
  currentIndex st = i0 -> hydrated st -> selectedIndustry st <> f0 ->
  render Papa (S n) st
  = let f := selectedIndustry st in
    let w1 := record IndexReset (persisted i0 f (browser st)) in
    with_committed (Some (0, f, total Papa st))
      (with_currentIndex 0
         (with_browser (if i0 =? 0 then w1 else persisted 0 f w1) st)).
Proof.
  intros Hc Hp Hi [Hir Hhr] Hf. rewrite total_eq in *.
  destruct st as [w csv sel i ji sj ir hr fe p co]; norm. subst.
  apply String.eqb_neq in Hf. rewrite String.eqb_sym in Hf.
  cbn [render]. unfold commit. norm. rewrite Hf, Z.eqb_refl. norm.
  rewrite persist_effect_eq, restore_effect_eq. norm.
  assert (Hsame : forall (b : bool) (x : State), (if b then x else x) = x)
    by (intros []; reflexivity).
  rewrite Hsame. norm. rewrite !total_eq. norm.
  rewrite (render_index_only n _ i0) by reflexivity. norm.
  rewrite !total_eq. norm. rewrite (Z.eqb_sym 0 i0).
  destruct (i0 =? 0); [reflexivity|]. rewrite persist_effect_eq. reflexivity.
Qed.

(** The render in which the rows arrive, in a component that is not
    hydrated yet. *)
Lemma render_hydrate (n : nat) (st : State) (i0 t0 : Z) :
  committed st = Some (i0, selectedIndustry st, t0) -> pendingIndex st = None ->
  currentIndex st = i0 -> initializedRef st = false -> hasInitializedRef st = false ->
  total Papa st <> t0 -> 0 < total Papa st ->
  render Papa (S n) st
  = let f := selectedIndustry st in
    let v := stored_index (total Papa st) (browser st) in
    let w1 := record Hydrated (browser st) in
    with_committed (Some (v, f, total Papa st))
      (with_currentIndex v
         (with_browser (if v =? i0 then w1 else persisted v f w1)
            (with_hasInitializedRef true (with_initializedRef true st)))).
Proof.
  intros Hc Hp Hi Hir Hhr Ht Hpos. rewrite total_eq in *.
  destruct st as [w csv sel i ji sj ir hr fe p co]; norm. subst.
  apply Z.eqb_neq in Ht. rewrite Z.eqb_sym in Ht. apply Z.ltb_lt in Hpos.
  cbn [render]. unfold commit. norm. rewrite !total_eq. norm.
  rewrite String.eqb_refl, Z.eqb_refl, Ht. norm.
  rewrite restore_effect_eq. norm. rewrite !total_eq. norm. rewrite Hpos. norm.
  rewrite (render_index_only n _ i0) by reflexivity. norm.
  rewrite !total_eq. norm.
  destruct (stored_index (active_total Papa csv sel) w =? i0); [reflexivity|].
  rewrite persist_effect_eq. reflexivity.
Qed.

Lemma frame_refl (st : State) : frame st st.
Proof. repeat split. Qed.

Lemma frame_trans (a b c : State) : frame a b -> frame b c -> frame a c.
Proof. unfold frame. intuition congruence. Qed.

Lemma frame_if (b : bool) (f : State -> State) (st : State) :
  frame st (f st) -> frame st (if b then f st else st).
Proof. destruct b; auto using frame_refl. Qed.

Lemma persist_frame (st : State) : frame st (persist_effect st).
Proof.
  rewrite persist_effect_eq. destruct (hasInitializedRef st); [|apply frame_refl].
  destruct st; repeat split.
Qed.

Lemma restore_frame (st : State) : frame st (restore_effect Papa st).
Proof.
  rewrite restore_effect_eq.
  destruct (negb (initializedRef st) && (0 <? total Papa st)); [|apply frame_refl].
  destruct st; repeat split.
Qed.

Lemma reset_frame (st : State) : frame st (reset_effect st).
Proof.
  unfold reset_effect. destruct (hasInitializedRef st); [|apply frame_refl].
  destruct st; repeat split.
Qed.

Lemma with_committed_frame (c : option (Z * string * Z)) (st : State) :
  frame st (with_committed c st).
Proof. destruct st; repeat split. Qed.

Lemma commit_frame (st : State) :
  committed st <> None -> frame st (commit Papa st).
Proof.
  intros Hc. unfold commit.
  destruct (committed st) as [[[i0 f0] t0]|]; [|congruence]. cbv beta iota zeta.
  eapply frame_trans; [|apply with_committed_frame].
  eapply frame_trans; [|apply frame_if, reset_frame].
  eapply frame_trans; [|apply frame_if, restore_frame].
  apply frame_if, persist_frame.
Qed.

Lemma apply_pending_frame (st : State) :
  csvText (apply_pending st) = csvText st /\
  selectedIndustry (apply_pending st) = selectedIndustry st /\
  fetching (apply_pending st) = fetching st /\
  committed (apply_pending st) = committed st.
Proof. unfold apply_pending. destruct (pendingIndex st), st; repeat split. Qed.

Lemma commit_committed (st : State) : committed (commit Papa st) <> None.
Proof.
  unfold commit. destruct (committed st) as [[[i0 f0] t0]|]; cbv beta iota zeta;
    unfold with_committed; cbn [committed]; discriminate.
Qed.

(** *** Writes only after the hydration *)

Lemma guarded_same (w0 : Browser) (st st' : State) :
  same_refs st st' -> guarded w0 st -> guarded w0 st'.
Proof. intros (Hw & Hi & Hh). unfold guarded. rewrite Hw, Hi, Hh. tauto. Qed.

Lemma guarded_if (w0 : Browser) (b : bool) (f : State -> State) (st : State) :
  (guarded w0 st -> guarded w0 (f st)) ->
  guarded w0 st -> guarded w0 (if b then f st else st).
Proof. destruct b; auto. Qed.

Lemma guarded_persist (w0 : Browser) (st : State) :
  guarded w0 st -> guarded w0 (persist_effect st).
Proof.
  intros H. pose proof H as (Hj & Hh & Hu & Hc). rewrite persist_effect_eq.
  destruct (hasInitializedRef st) eqn:Hhr; [|exact H].
  destruct (persisted_journal (currentIndex st) (selectedIndustry st) (browser st))
    as (l & Hl & _ & Hl0 & _).
  unfold guarded. destruct st as [w csv sel i ji sj ir hr fe p co]. norm. subst hr.
  rewrite Hl. split; [apply wfh_writes; auto|]. split; [intros _; apply elem_of_app; auto|].
  split; [discriminate|]. rewrite hydrations_app, Hl0, Hc. lia.
Qed.

Lemma guarded_restore (w0 : Browser) (st : State) :
  guarded w0 st -> guarded w0 (restore_effect Papa st).
Proof.
  intros H. pose proof H as (Hj & Hh & Hu & Hc). rewrite restore_effect_eq.
  destruct (negb (initializedRef st) && (0 <? total Papa st)) eqn:Hb; [|exact H].
  apply andb_prop in Hb as [Hir _]. apply negb_true_iff in Hir.
  unfold guarded. destruct st as [w csv sel i ji sj ir hr fe p co]. norm. subst ir.
  unfold record. cbn [journal].
  split; [apply wfh_snoc; [exact Hj|discriminate]|].
  split; [intros _; apply elem_of_app; right; apply list_elem_of_singleton; reflexivity|].
  split; [discriminate|]. rewrite hydrations_app, Hc. reflexivity.
Qed.

Lemma guarded_reset (w0 : Browser) (st : State) :
  guarded w0 st -> guarded w0 (reset_effect st).
Proof.
  intros H. pose proof H as (Hj & Hh & Hu & Hc). unfold reset_effect.
  destruct (hasInitializedRef st) eqn:Hhr; [|exact H].
  unfold guarded. destruct st as [w csv sel i ji sj ir hr fe p co]. norm. subst hr.
  unfold record. cbn [journal storage url_industry].
  split; [apply wfh_snoc; [exact Hj|discriminate]|].
  split; [intros _; apply elem_of_app; auto|].
  split; [discriminate|]. rewrite hydrations_app, Hc. cbn. lia.
Qed.

Lemma guarded_with_committed (w0 : Browser) (c : option (Z * string * Z)) (st : State) :
  guarded w0 st -> guarded w0 (with_committed c st).
Proof. apply guarded_same. destruct st; repeat split. Qed.

Lemma guarded_fetch (w0 : Browser) (st : State) :
  guarded w0 st -> guarded w0 (fetch_effect st).
Proof. apply guarded_same. destruct st; repeat split. Qed.

Lemma guarded_apply_pending (w0 : Browser) (st : State) :
  guarded w0 st -> guarded w0 (apply_pending st).
Proof.
  apply guarded_same. unfold apply_pending.
  destruct (pendingIndex st), st; repeat split.
Qed.

Lemma guarded_commit (w0 : Browser) (st : State) :
  guarded w0 st -> guarded w0 (commit Papa st).
Proof.
  intros H. unfold commit.
  destruct (committed st) as [[[i0 f0] t0]|]; cbv beta iota zeta;
    apply guarded_with_committed.
  - apply guarded_if; [apply guarded_reset|].
    apply guarded_if; [apply guarded_restore|].
    apply guarded_if; [apply guarded_persist|]. exact H.
  - apply guarded_reset, guarded_restore, guarded_persist, guarded_fetch, H.
Qed.

Lemma guarded_render (w0 : Browser) (n : nat) (st : State) :
  guarded w0 st -> guarded w0 (render Papa n st).
Proof.
  revert st. induction n as [|n IH]; intros st H.
  - cbn [render].
    assert (G : guarded w0 (commit Papa (apply_pending st)))
      by apply guarded_commit, guarded_apply_pending, H.
    destruct (pendingIndex (commit Papa (apply_pending st))); exact G.
  - rewrite render_unfold.
    assert (G : guarded w0 (commit Papa (apply_pending st)))
      by apply guarded_commit, guarded_apply_pending, H.
    destruct (pendingIndex (commit Papa (apply_pending st))); [apply IH|]; exact G.
Qed.

Lemma handler_same_refs (e : Event) (st : State) : same_refs st (handler Papa e st).
Proof.
  destruct e; cbn [handler];
    unfold on_fetch, goPrevious, goNext, handleJump;
    repeat match goal with
      | |- context [if ?b then _ else _] => destruct b
      | |- context [match ?x with _ => _ end] => destruct x
      end;
    destruct st; repeat split.
Qed.

Lemma guarded_run (w0 : Browser) (events : list Event) (st : State) :
  guarded w0 st -> guarded w0 (run Papa st events).
Proof.
  revert st. induction events as [|e events IH]; intros st H; [exact H|].
  change (run Papa st (e :: events)) with (run Papa (step Papa st e) events).
  apply IH. unfold step. apply guarded_render.
  eapply guarded_same; [apply handler_same_refs|exact H].
Qed.

Lemma guarded_mount (w : Browser) : guarded w (mount Papa w).
Proof.
  unfold mount. apply guarded_render.
  unfold guarded. cbn [browser journal storage url_industry hasInitializedRef initializedRef].
  split; [apply wfh_nil|]. split; [discriminate|]. split; [auto|reflexivity].
Qed.

Lemma filter_no_write_before_hydration (w : Browser) (events : list Event) :
  guarded w (run Papa (mount Papa w) events).
Proof. apply guarded_run, guarded_mount. Qed.

(** *** Renders of a hydrated component *)

(** With the filter unchanged, a hydrated component at most persists the
    index, also when the rows changed. *)
Lemma render_same_filter (n : nat) (st : State) (i0 t0 : Z) :
  committed st = Some (i0, selectedIndustry st, t0) -> initializedRef st = true ->
  render Papa n st
  = let st' := apply_pending st in
    with_committed (Some (currentIndex st', selectedIndustry st, total Papa st))
      (if currentIndex st' =? i0 then st' else persist_effect st').
Proof.
  intros Hc Hir. rewrite total_eq in *.
  destruct st as [w csv sel i ji sj ir hr fe p co]; norm. subst co ir.
  assert (Hsame : forall (b : bool) (x : State), (if b then x else x) = x)
    by (intros []; reflexivity).
  destruct n; cbn [render]; unfold commit; norm.
  all: destruct p as [v|]; norm; rewrite ?total_eq; norm.
  all: rewrite String.eqb_refl; norm.
  all: rewrite (Z.eqb_sym i0).
  all: rewrite ?persist_effect_eq, ?restore_effect_eq; norm.
  all: try destruct (v =? i0); try destruct (i =? i0); norm; rewrite ?Hsame.
  all: try reflexivity.
  all: rewrite ?persist_effect_eq, ?restore_effect_eq; norm; rewrite ?Hsame.
  all: destruct hr; norm; rewrite ?Hsame; reflexivity.
Qed.

Lemma persisted_resets (i : Z) (sel : string) (w : Browser) :
  resets (journal (persisted i sel w)) = resets (journal w).
Proof.
  destruct (persisted_journal i sel w) as (l & -> & Hl & _).
  rewrite resets_app, Hl. lia.
Qed.

Lemma resets_same_filter (n : nat) (st : State) (i0 t0 : Z) :
  committed st = Some (i0, selectedIndustry st, t0) -> initializedRef st = true ->
  resets (journal (browser (render Papa n st))) = resets (journal (browser st)).
Proof.
  intros Hc Hir. rewrite (render_same_filter n st i0 t0 Hc Hir). cbv zeta.
  rewrite persist_effect_eq.
  destruct st as [w csv sel i ji sj ir hr fe p co]; norm.
  destruct p as [v|]; norm;
    repeat match goal with |- context [if ?b then _ else _] => destruct b end;
    norm; rewrite ?persisted_resets; reflexivity.
Qed.

(** What a handler leaves alone when it does not change the filter. *)
Lemma handler_keeps_filter (e : Event) (st : State) :
  changes_filter Papa st e = false ->
  committed (handler Papa e st) = committed st /\
  selectedIndustry (handler Papa e st) = selectedIndustry st.
Proof.
  intros Hch.
  destruct e; cbn [handler changes_filter] in *;
    unfold on_fetch, goPrevious, goNext, handleJump;
    try solve [
      repeat match goal with
        | |- context [if ?b then _ else _] => destruct b
        | |- context [match ?x with _ => _ end] => destruct x
        end;
      destruct st; repeat split ].
  destruct (card_shown Papa st); [|split; reflexivity].
  cbn [andb] in Hch. apply negb_false_iff, String.eqb_eq in Hch. subst value.
  destruct st; split; reflexivity.
Qed.

Lemma resets_step (st : State) (e : Event) :
  settled Papa st -> hydrated st ->
  resets (journal (browser (step Papa st e)))
  = (resets (journal (browser st)) + (if changes_filter Papa st e then 1 else 0))%nat.
Proof.
  intros [Hp Hc] [Hir Hhr]. unfold step.
  destruct (changes_filter Papa st e) eqn:Hch.
  - destruct e; try discriminate Hch. cbn [changes_filter handler] in *.
    apply andb_prop in Hch as [Hcard Hne]. rewrite Hcard.
    apply negb_true_iff, String.eqb_neq in Hne.
    rewrite (render_filter_change 1 _ (currentIndex st) (selectedIndustry st) (total Papa st)).
    + destruct st as [w csv sel i ji sj ir hr fe p co]; norm.
      destruct (i =? 0); rewrite ?persisted_resets; unfold record; cbn [journal];
        rewrite resets_app, persisted_resets; reflexivity.
    + destruct st; exact Hc.
    + destruct st; exact Hp.
    + destruct st; reflexivity.
    + destruct st; split; [exact Hir|exact Hhr].
    + destruct st; exact Hne.
  - destruct (handler_keeps_filter e st Hch) as [Hco Hsel].
    pose proof (handler_same_refs e st) as (Hw & Hi & _).
    rewrite (resets_same_filter 2 _ (currentIndex st) (total Papa st)).
    + rewrite Hw. lia.
    + rewrite Hco, Hsel. exact Hc.
    + rewrite Hi. exact Hir.
Qed.

Lemma select_resets_index (st : State) (value : string) :
  settled Papa st -> hydrated st -> value <> selectedIndustry st ->
  let st' := render Papa 2 (setSelectedIndustry value st) in
  currentIndex st' = 0 /\ selectedIndustry st' = value /\ settled Papa st' /\
  resets (journal (browser st')) = S (resets (journal (browser st))).
Proof.
  intros [Hp Hc] [Hir Hhr] Hne. cbv zeta.
  rewrite (render_filter_change 1 _ (currentIndex st) (selectedIndustry st) (total Papa st)).
  - unfold settled. rewrite !total_eq.
    destruct st as [w csv sel i ji sj ir hr fe p co]; norm.
    repeat split; [exact Hp|].
    destruct (i =? 0); rewrite ?persisted_resets; unfold record; cbn [journal];
      rewrite resets_app, persisted_resets; cbn; lia.
  - destruct st; exact Hc.
  - destruct st; exact Hp.
  - destruct st; reflexivity.
  - destruct st; split; [exact Hir|exact Hhr].
  - destruct st; exact Hne.
Qed.

(** *** Navigation *)

Lemma step_index (st st' : State) (v : Z) :
  settled Papa st -> same_core st st' -> pendingIndex st' = Some v ->
  currentIndex (render Papa 2 st') = v /\
  total Papa (render Papa 2 st') = total Papa st /\
  settled Papa (render Papa 2 st').
Proof.
  intros [Hp Hc] (Hw & Hcsv & Hsel & Hi & Hir & Hhr & Hf & Hco) Hv.
  assert (Ht : total Papa st' = total Papa st) by (rewrite !total_eq; congruence).
  rewrite (render_index_only 2 st' (currentIndex st))
    by (rewrite Hco, Hc, Hsel, Ht; reflexivity).
  cbv zeta. rewrite persist_effect_eq. unfold settled. rewrite !total_eq in *.
  destruct st as [w csv sel i ji sj ir hr fe p co].
  destruct st' as [w' csv' sel' i' ji' sj' ir' hr' fe' p' co']. norm.
  subst p' csv' sel'.
  destruct (v =? i), hr'; norm; repeat split.
Qed.

Lemma step_idle (st st' : State) :
  settled Papa st -> same_core st st' -> pendingIndex st' = None ->
  jumpInput st' = jumpInput st -> showJumpInput st' = showJumpInput st ->
  render Papa 2 st' = st.
Proof.
  intros [Hp Hc] (Hw & Hcsv & Hsel & Hi & Hir & Hhr & Hf & Hco) Hv Hj Hs.
  assert (Ht : total Papa st' = total Papa st) by (rewrite !total_eq; congruence).
  rewrite (render_index_only 2 st' (currentIndex st))
    by (rewrite Hco, Hc, Hsel, Ht; reflexivity).
  cbv zeta. rewrite !total_eq in *.
  destruct st as [w csv sel i ji sj ir hr fe p co].
  destruct st' as [w' csv' sel' i' ji' sj' ir' hr' fe' p' co']. norm.
  subst. rewrite Z.eqb_refl. reflexivity.
Qed.

Lemma filter_navigation (st : State) :
  settled Papa st -> 0 < total Papa st -> 0 <= currentIndex st <= total Papa st - 1 ->
  let L := total Papa st in
  let i := currentIndex st in
  currentIndex (step Papa st ClickPrevious) = Z.max 0 (i - 1) /\
  currentIndex (step Papa st ClickNext) = Z.min (L - 1) (i + 1) /\
  total Papa (step Papa st ClickPrevious) = L /\
  total Papa (step Papa st ClickNext) = L /\
  (i = 0 -> step Papa st ClickPrevious = st) /\
  (i = L - 1 -> step Papa st ClickNext = st).
Proof.
  intros Hset HL Hi. cbv zeta. unfold step. cbn [handler].
  unfold goPrevious, goNext, canGoBack, canGoNext.
  assert (Hidle : render Papa 2 st = st) by apply render_settled, Hset.
  assert (Hprev : 0 < currentIndex st ->
                  currentIndex (render Papa 2 (setCurrentIndex (Z.max 0 (currentIndex st - 1)) st))
                  = Z.max 0 (currentIndex st - 1) /\
                  total Papa (render Papa 2 (setCurrentIndex (Z.max 0 (currentIndex st - 1)) st))
                  = total Papa st).
  { intros _. edestruct step_index as (H1 & H2 & _); [exact Hset| | |split; eassumption].
    - destruct st; repeat split.
    - destruct st; reflexivity. }
  assert (Hnext : currentIndex st < total Papa st - 1 ->
                  currentIndex (render Papa 2
                     (setCurrentIndex (Z.min (total Papa st - 1) (currentIndex st + 1)) st))
                  = Z.min (total Papa st - 1) (currentIndex st + 1) /\
                  total Papa (render Papa 2
                     (setCurrentIndex (Z.min (total Papa st - 1) (currentIndex st + 1)) st))
                  = total Papa st).
  { intros _. edestruct step_index as (H1 & H2 & _); [exact Hset| | |split; eassumption].
    - destruct st; repeat split.
    - destruct st; reflexivity. }
  destruct (Z.ltb_spec 0 (currentIndex st)) as [Hlt|Hge];
    destruct (Z.ltb_spec (currentIndex st) (total Papa st - 1)) as [Hlt'|Hge'];
    try destruct (Hprev Hlt) as [P1 P2]; try destruct (Hnext Hlt') as [N1 N2];
    rewrite ?Hidle; repeat split; auto; try lia.
Qed.

(** *** The jump box *)

Lemma filter_jump (st : State) :
  settled Papa st -> card_shown Papa st = true -> showJumpInput st = true ->
  let L := total Papa st in
  match JS.parseInt (jumpInput st) with
  | JS.Finite n =>
      if (1 <=? n) && (n <=? L)
      then currentIndex (step Papa st SubmitJump) = n - 1
      else step Papa st SubmitJump = st
  | _ => step Papa st SubmitJump = st
  end.
Proof.
  intros Hset Hcard Hshow. cbv zeta. unfold step. cbn [handler].
  rewrite Hcard, Hshow. cbn [andb]. unfold handleJump.
  assert (Hidle : render Papa 2 st = st) by apply render_settled, Hset.
  destruct (JS.parseInt (jumpInput st)) as [|neg|n]; cbn [JS.geb JS.leb].
  - exact Hidle.
  - destruct (negb neg && neg); exact Hidle.
  - destruct ((1 <=? n) && (n <=? total Papa st)); [|exact Hidle].
    edestruct step_index as (H1 & _); [exact Hset| | |exact H1].
    + destruct st; repeat split.
    + destruct st; reflexivity.
Qed.

Lemma select_twice (st : State) (value : string) :
  settled Papa st -> hydrated st -> card_shown Papa st = true ->
  value <> selectedIndustry st ->
  let st1 := step Papa st (SelectIndustry value) in
  currentIndex st1 = 0 /\ selectedIndustry st1 = value /\
  resets (journal (browser st1)) = S (resets (journal (browser st))) /\
  step Papa st1 (SelectIndustry value) = st1.
Proof.
  intros Hset Hhyd Hcard Hne.
  assert (Hstep : step Papa st (SelectIndustry value)
                  = render Papa 2 (setSelectedIndustry value st))
    by (unfold step; cbn [handler]; rewrite Hcard; reflexivity).
  cbv zeta. rewrite Hstep. clear Hstep.
  destruct (select_resets_index st value Hset Hhyd Hne) as (H1 & H2 & H3 & H4).
  split; [exact H1|]. split; [exact H2|]. split; [exact H4|].
  set (st1 := render Papa 2 (setSelectedIndustry value st)) in *.
  unfold step. cbn [handler].
  replace (if card_shown Papa st1 then setSelectedIndustry value st1 else st1) with st1.
  - apply render_settled, H3.
  - destruct (card_shown Papa st1); [|reflexivity].
    rewrite <- H2. destruct st1; reflexivity.
Qed.

(** *** Two passes are enough *)

Lemma commit_view (st : State) :
  committed (commit Papa st) = Some (currentIndex st, selectedIndustry st, total Papa st) /\
  csvText (commit Papa st) = csvText st /\
  selectedIndustry (commit Papa st) = selectedIndustry st /\
  currentIndex (commit Papa st) = currentIndex st.
Proof.
  split.
  - unfold commit. destruct (committed st) as [[[i0 f0] t0]|]; cbv beta iota zeta;
      unfold with_committed; reflexivity.
  - destruct (committed st) as [c|] eqn:Hc.
    + destruct (commit_frame st) as (H1 & H2 & H3 & _); [congruence|]. auto.
    + unfold commit. rewrite Hc. cbv beta iota zeta delta [orb].
      assert (F : frame (fetch_effect st)
                    (with_committed (Some (currentIndex st, selectedIndustry st, total Papa st))
                       (reset_effect (restore_effect Papa (persist_effect (fetch_effect st)))))).
      { eapply frame_trans; [|apply with_committed_frame].
        eapply frame_trans; [|apply reset_frame].
        eapply frame_trans; [|apply restore_frame]. apply persist_frame. }
      destruct F as (H1 & H2 & H3 & _). rewrite H1, H2, H3.
      destruct st; repeat split.
Qed.

Lemma index_only_settled (n : nat) (st : State) (i0 : Z) :
  committed st = Some (i0, selectedIndustry st, total Papa st) ->
  settled Papa (render Papa n st).
Proof.
  intros Hc. rewrite (render_index_only n st i0 Hc). cbv zeta.
  rewrite persist_effect_eq. unfold settled. rewrite !total_eq.
  destruct st as [w csv sel i ji sj ir hr fe p co].
  destruct p as [v|]; norm;
    repeat match goal with |- context [if ?b then _ else _] => destruct b end;
    split; reflexivity.
Qed.

(** After [render] with fuel for two more passes nothing is queued and
    the effects have seen the current values. *)
Lemma render_settles (n : nat) (st : State) : settled Papa (render Papa (S n) st).
Proof.
  rewrite render_unfold.
  destruct (commit_view (apply_pending st)) as (Hc & Hcsv & Hsel & Hi).
  set (c1 := commit Papa (apply_pending st)) in *.
  assert (Hc1 : committed c1 = Some (currentIndex c1, selectedIndustry c1, total Papa c1)).
  { rewrite Hc, Hi, Hsel, !total_eq, Hcsv, Hsel. reflexivity. }
  destruct (pendingIndex c1) eqn:Hp.
  - apply (index_only_settled n c1 _ Hc1).
  - split; assumption.
Qed.

Lemma reachable_settled (w : Browser) (events : list Event) :
  settled Papa (run Papa (mount Papa w) events).
Proof.
  assert (H : settled Papa (mount Papa w)) by apply render_settles.
  revert H. generalize (mount Papa w).
  induction events as [|e events IH]; intros st H; [exact H|].
  change (run Papa st (e :: events)) with (run Papa (step Papa st e) events).
  apply IH. apply render_settles.
Qed.

(** *** What a render keeps *)

Lemma apply_pending_view (st : State) :
  csvText (apply_pending st) = csvText st /\
  selectedIndustry (apply_pending st) = selectedIndustry st.
Proof. unfold apply_pending. destruct (pendingIndex st), st; split; reflexivity. Qed.

Lemma render_keeps_view (n : nat) (st : State) :
  csvText (render Papa n st) = csvText st /\
  selectedIndustry (render Papa n st) = selectedIndustry st.
Proof.
  revert st. induction n as [|n IH]; intros st.
  - cbn [render]. destruct (commit_view (apply_pending st)) as (_ & H1 & H2 & _).
    destruct (apply_pending_view st) as [H3 H4].
    destruct (pendingIndex (commit Papa (apply_pending st))); split; congruence.
  - rewrite render_unfold. destruct (commit_view (apply_pending st)) as (_ & H1 & H2 & _).
    destruct (apply_pending_view st) as [H3 H4].
    destruct (pendingIndex (commit Papa (apply_pending st))).
    + destruct (IH (commit Papa (apply_pending st))) as [H5 H6]. split; congruence.
    + split; congruence.
Qed.

Lemma handler_keeps_text (e : Event) (st : State) :
  fetching st = false -> csvText (handler Papa e st) = csvText st.
Proof.
  intros Hf. destruct e; cbn [handler];
    unfold on_fetch, goPrevious, goNext, handleJump; rewrite ?Hf;
    repeat match goal with
      | |- context [if ?b then _ else _] => destruct b
      | |- context [match ?x with _ => _ end] => destruct x
      end;
    destruct st; reflexivity.
Qed.

Lemma handler_keeps_industry (e : Event) (st : State) :
  (forall value, e <> SelectIndustry value) ->
  selectedIndustry (handler Papa e st) = selectedIndustry st.
Proof.
  intros He. destruct e; cbn [handler];
    try (exfalso; eapply He; reflexivity);
    unfold on_fetch, goPrevious, goNext, handleJump;
    repeat match goal with
      | |- context [if ?b then _ else _] => destruct b
      | |- context [match ?x with _ => _ end] => destruct x
      end;
    destruct st; reflexivity.
Qed.

(** *** Disabled storage *)

Lemma silent_same (w0 : Browser) (st st' : State) :
  same_refs st st' -> silent w0 st -> silent w0 st'.
Proof. intros (Hw & _ & _). unfold silent. rewrite Hw. tauto. Qed.

Lemma silent_browser (w0 : Browser) (st st' : State) :
  browser st' = browser st -> silent w0 st -> silent w0 st'.
Proof. intros Hw. unfold silent. rewrite Hw. tauto. Qed.

Lemma silent_if (w0 : Browser) (b : bool) (f : State -> State) (st : State) :
  (silent w0 st -> silent w0 (f st)) ->
  silent w0 st -> silent w0 (if b then f st else st).
Proof. destruct b; auto. Qed.

Lemma silent_record (w0 : Browser) (a : Action) (st : State) :
  is_write a = false -> silent w0 st -> silent w0 (log a st).
Proof.
  intros Ha (H1 & H2 & H3 & H4). unfold silent.
  destruct st as [w csv sel i ji sj ir hr fe p co]. norm. unfold record. cbn.
  split; [exact H1|]. split; [exact H2|]. split; [exact H3|].
  apply Forall_app. split; [exact H4|]. apply Forall_singleton, Ha.
Qed.

Lemma silent_persist (w0 : Browser) (st : State) :
  silent w0 st -> silent w0 (persist_effect st).
Proof.
  intros H. rewrite persist_effect_eq. destruct (hasInitializedRef st); [|exact H].
  pose proof H as (Hok & _).
  destruct (persisted_journal (currentIndex st) (selectedIndustry st) (browser st))
    as (l & _ & _ & _ & Hsame).
  rewrite (Hsame Hok). eapply silent_same; [|exact H]. destruct st; repeat split.
Qed.

Lemma silent_restore (w0 : Browser) (st : State) :
  silent w0 st -> silent w0 (restore_effect Papa st).
Proof.
  intros H. rewrite restore_effect_eq.
  destruct (negb (initializedRef st) && (0 <? total Papa st)); [|exact H].
  assert (H' : silent w0 (log Hydrated st)) by (apply silent_record; [reflexivity|exact H]).
  eapply silent_browser; [|exact H']. destruct st; reflexivity.
Qed.

Lemma silent_reset (w0 : Browser) (st : State) :
  silent w0 st -> silent w0 (reset_effect st).
Proof.
  intros H. unfold reset_effect. destruct (hasInitializedRef st); [|exact H].
  assert (H' : silent w0 (log IndexReset st)) by (apply silent_record; [reflexivity|exact H]).
  eapply silent_browser; [|exact H']. destruct st; reflexivity.
Qed.

Lemma silent_commit (w0 : Browser) (st : State) :
  silent w0 st -> silent w0 (commit Papa st).
Proof.
  intros H. unfold commit.
  assert (Hwc : forall c x, silent w0 x -> silent w0 (with_committed c x))
    by (intros c x; apply silent_same; destruct x; repeat split).
  destruct (committed st) as [[[i0 f0] t0]|]; cbv beta iota zeta; apply Hwc.
  - apply silent_if; [apply silent_reset|].
    apply silent_if; [apply silent_restore|].
    apply silent_if; [apply silent_persist|]. exact H.
  - apply silent_reset, silent_restore, silent_persist.
    eapply silent_same; [|exact H]. destruct st; repeat split.
Qed.

Lemma silent_render (w0 : Browser) (n : nat) (st : State) :
  silent w0 st -> silent w0 (render Papa n st).
Proof.
  revert st. induction n as [|n IH]; intros st H.
  - cbn [render].
    assert (G : silent w0 (commit Papa (apply_pending st))).
    { apply silent_commit. eapply silent_same; [|exact H].
      unfold apply_pending. destruct (pendingIndex st), st; repeat split. }
    destruct (pendingIndex (commit Papa (apply_pending st))); exact G.
  - rewrite render_unfold.
    assert (G : silent w0 (commit Papa (apply_pending st))).
    { apply silent_commit. eapply silent_same; [|exact H].
      unfold apply_pending. destruct (pendingIndex st), st; repeat split. }
    destruct (pendingIndex (commit Papa (apply_pending st))); [apply IH|]; exact G.
Qed.

Lemma silent_run (w : Browser) (events : list Event) :
  storage_ok w = false -> silent w (run Papa (mount Papa w) events).
Proof.
  intros Hok.
  assert (H : silent w (mount Papa w)).
  { unfold mount. apply silent_render. unfold silent. cbn.
    repeat split; [exact Hok|apply Forall_nil_2]. }
  revert H. generalize (mount Papa w).
  induction events as [|e events IH]; intros st H; [exact H|].
  change (run Papa st (e :: events)) with (run Papa (step Papa st e) events).
  apply IH. unfold step. apply silent_render.
  eapply silent_same; [apply handler_same_refs|exact H].
Qed.

(** *** What the events other than a selection keep *)

Lemma step_keeps_industry (st : State) (e : Event) :
  (forall value, e <> SelectIndustry value) ->
  selectedIndustry (step Papa st e) = selectedIndustry st.
Proof.
  intros He. unfold step. rewrite (proj2 (render_keeps_view 2 _)).
  apply handler_keeps_industry, He.
Qed.

Lemma run_keeps_industry (events : list Event) (st : State) :
  (forall value, SelectIndustry value ∉ events) ->
  selectedIndustry (run Papa st events) = selectedIndustry st.
Proof.
  revert st. induction events as [|e events IH]; intros st Hno; [reflexivity|].
  change (run Papa st (e :: events)) with (run Papa (step Papa st e) events).
  rewrite IH.
  - apply step_keeps_industry. intros value ->. apply (Hno value). left.
  - intros value Hin. apply (Hno value). right. exact Hin.
Qed.

(** *** An accepted jump *)

Lemma jump_accepted (st : State) (n : Z) :
  settled Papa st -> card_shown Papa st = true -> showJumpInput st = true ->
  JS.parseInt (jumpInput st) = JS.Finite n -> 1 <= n <= total Papa st ->
  let st' := step Papa st SubmitJump in
  currentIndex st' = n - 1 /\ showJumpInput st' = false /\
  jumpInput st' = EmptyString /\
  csvText st' = csvText st /\ selectedIndustry st' = selectedIndustry st /\
  currentBusiness Papa st' = filteredBusinesses Papa st !! Z.to_nat (n - 1).
Proof.
  intros [Hp Hc] Hcard Hshow Hnum Hn. cbv zeta.
  assert (Hstep : step Papa st SubmitJump
                  = render Papa 2
                      (setJumpInput EmptyString
                         (setShowJumpInput false (setCurrentIndex (n - 1) st)))).
  { unfold step. cbn [handler]. rewrite Hcard, Hshow. cbn [andb].
    unfold handleJump. rewrite Hnum. cbn [JS.geb JS.leb].
    destruct (Z.leb_spec 1 n); [|lia].
    destruct (Z.leb_spec n (total Papa st)); [|lia]. reflexivity. }
  rewrite Hstep. clear Hstep.
  rewrite (render_index_only 2 _ (currentIndex st)) by (destruct st; exact Hc).
  cbv zeta. rewrite persist_effect_eq.
  assert (G : forall st' : State,
            currentIndex st' = n - 1 -> csvText st' = csvText st ->
            selectedIndustry st' = selectedIndustry st ->
            currentBusiness Papa st' = filteredBusinesses Papa st !! Z.to_nat (n - 1)).
  { intros st' H1 H2 H3. unfold currentBusiness, filteredBusinesses, businesses.
    rewrite H1, H2, H3. apply at_index_lookup. lia. }
  destruct st as [w csv sel i ji sj ir hr fe p co]. norm.
  destruct (n - 1 =? i), hr; norm;
    (repeat split; try reflexivity); apply G; reflexivity.
Qed.

(** *** What a change of filter writes *)

Lemma select_stores (st : State) (value : string) :
  settled Papa st -> hydrated st -> card_shown Papa st = true ->
  storage_ok (browser st) = true -> value <> selectedIndustry st ->
  let w' := browser (step Papa st (SelectIndustry value)) in
  storage w' !! INDUSTRY_STORAGE_KEY = Some value /\
  storage w' !! STORAGE_KEY = Some (JS.String_of 0) /\
  url_industry w' = (if JS.truthy value then Some value else None) /\
  (forall k, k <> STORAGE_KEY -> k <> INDUSTRY_STORAGE_KEY ->
             storage w' !! k = storage (browser st) !! k).
Proof.
  intros [Hp Hc] [Hir Hhr] Hcard Hok Hne. cbv zeta.
  assert (Hstep : step Papa st (SelectIndustry value)
                  = render Papa 2 (setSelectedIndustry value st))
    by (unfold step; cbn [handler]; rewrite Hcard; reflexivity).
  rewrite Hstep. clear Hstep.
  rewrite (render_filter_change 1 _ (currentIndex st) (selectedIndustry st) (total Papa st));
    [|destruct st; try split; assumption || reflexivity..].
  destruct st as [w csv sel i ji sj ir hr fe p co]. norm.
  unfold persisted, record. cbn [storage_ok storage url_industry journal].
  rewrite Hok. cbn [storage_ok storage url_industry journal].
  destruct (Z.eqb_spec i 0) as [->|Hi]; cbn [storage_ok storage url_industry journal].
  - split; [apply lookup_insert_eq|].
    split; [rewrite lookup_insert_ne by discriminate; apply lookup_insert_eq|].
    split; [reflexivity|].
    intros k H1 H2. rewrite !lookup_insert_ne by congruence. reflexivity.
  - split; [apply lookup_insert_eq|].
    split; [rewrite lookup_insert_ne by discriminate; apply lookup_insert_eq|].
    split; [reflexivity|].
    intros k H1 H2. rewrite !lookup_insert_ne by congruence. reflexivity.
Qed.

Lemma run_cons (st : State) (e : Event) (events : list Event) :
  run Papa st (e :: events) = run Papa (step Papa st e) events.
Proof. reflexivity. Qed.

Lemma step_fetch (st : State) (body : option string) :
  step Papa st (FetchDone body) = render Papa 2 (on_fetch body st).
Proof. reflexivity. Qed.

Section Hydration.

Hypothesis Papa_empty : data (Papa EmptyString) = [].
Hypothesis Papa_array :
  forall text, Z.of_nat (length (data (Papa text))) <= MAX_ARRAY_LENGTH.

Lemma active_total_empty (sel : string) : active_total Papa EmptyString sel = 0.
Proof.
  unfold active_total, parseBusinesses. change (JS.trim EmptyString) with EmptyString.
  rewrite Papa_empty. unfold filterBusinesses. destruct (negb (JS.truthy sel)); reflexivity.
Qed.

Lemma active_total_bounds (csv sel : string) :
  0 <= active_total Papa csv sel <= MAX_ARRAY_LENGTH.
Proof.
  unfold active_total. split; [lia|].
  etransitivity; [|apply (Papa_array (JS.trim csv))].
  apply inj_le. unfold filterBusinesses, parseBusinesses. cbn [fst].
  destruct (negb (JS.truthy sel)).
  - etransitivity; [apply List.filter_length_le|]. rewrite length_map. lia.
  - etransitivity; [apply List.filter_length_le|].
    etransitivity; [apply List.filter_length_le|]. rewrite length_map. lia.
Qed.

Lemma mount_eq (w : Browser) :
  mount Papa w
  = {| browser := fresh w; csvText := EmptyString;
       selectedIndustry := first_industry w; currentIndex := 0;
       jumpInput := EmptyString; showJumpInput := false;
       initializedRef := false; hasInitializedRef := false;
       fetching := true; pendingIndex := None;
       committed := Some (0, first_industry w, 0) |}.
Proof.
  unfold mount. fold (fresh w). fold (first_industry w).
  fold (active_total Papa EmptyString (first_industry w)).
  rewrite active_total_empty, stored_index_zero.
  rewrite render_unfold.
  match goal with |- context [commit Papa ?x] =>
    assert (Hc : commit Papa x
                 = {| browser := fresh w; csvText := EmptyString;
                      selectedIndustry := first_industry w; currentIndex := 0;
                      jumpInput := EmptyString; showJumpInput := false;
                      initializedRef := false; hasInitializedRef := false;
                      fetching := true; pendingIndex := None;
                      committed := Some (0, first_industry w, 0) |})
  end.
  { unfold commit. norm. rewrite !total_eq. norm.
    rewrite active_total_empty.
    rewrite persist_effect_eq, restore_effect_eq. norm.
    rewrite !total_eq. norm. rewrite active_total_empty. reflexivity. }
  rewrite Hc. reflexivity.
Qed.

Lemma first_industry_result (w : Browser) :
  result_of initial_industry (fresh w) = Normal (first_industry w).
Proof.
  unfold first_industry. destruct (initial_industry_returns (fresh w)) as [s Hs].
  unfold result_of. rewrite Hs. reflexivity.
Qed.

Lemma consistent_mount (w : Browser) :
  storage_ok w = true -> consistent Papa (mount Papa w).
Proof.
  intros Hok. rewrite mount_eq. unfold consistent, settled. rewrite !total_eq. norm.
  rewrite active_total_empty.
  repeat split; try reflexivity; try assumption.
  apply first_industry_result.
Qed.

(** A handler that queued nothing, or an index of the active list. *)
Lemma consistent_render (n : nat) (st st' : State) :
  consistent Papa st -> same_core st st' ->
  match pendingIndex st' with
  | Some v => 0 <= v <= total Papa st - 1
  | None => True
  end ->
  consistent Papa (render Papa n st') /\
  currentIndex (render Papa n st') = default (currentIndex st) (pendingIndex st') /\
  csvText (render Papa n st') = csvText st /\
  selectedIndustry (render Papa n st') = selectedIndustry st /\
  fetching (render Papa n st') = fetching st /\
  stores_move st (render Papa n st').
Proof.
  unfold stores_move.
  intros (Hset & Hok & Hrefs & Hind & Hidx & Hun & Hfe) Hcore Hp.
  destruct Hset as [_ Hc].
  destruct Hcore as (Hw & Hcsv & Hsel & Hi & Hir & Hhr & Hf & Hco).
  assert (Ht : total Papa st' = total Papa st) by (rewrite !total_eq; congruence).
  rewrite (render_index_only n st' (currentIndex st))
    by (rewrite Hco, Hc, Hsel, Ht; reflexivity).
  cbv zeta. rewrite persist_effect_eq. unfold consistent, settled.
  rewrite !total_eq in *.
  destruct st as [w csv sel i ji sj ir hr fe p co].
  destruct st' as [w' csv' sel' i' ji' sj' ir' hr' fe' p' co'].
  norm. subst. destruct p' as [v|]; norm; cbn [default].
  - match goal with |- context [v =? ?x] => destruct (Z.eqb_spec v x) as [Heq|Hne] end.
    + norm. repeat split; auto; solve [apply Hfe; assumption | intros; congruence].
    + destruct hr; [|rewrite Hun in Hp by reflexivity; lia].
      norm. pose proof (active_total_bounds csv sel).
      repeat split; auto using persisted_ok, initial_industry_persisted.
      * apply stored_index_persisted; auto. lia.
      * edestruct Hfe as [? ?]; [eassumption|congruence].
      * edestruct Hfe as [? ?]; [eassumption|congruence].
      * intros _. apply persisted_index. assumption.
  - rewrite Z.eqb_refl. norm.
    repeat split; auto; solve [apply Hfe; assumption | intros; congruence].
Qed.

Lemma consistent_index (st : State) :
  consistent Papa st ->
  (total Papa st = 0 /\ currentIndex st = 0) \/
  (0 < total Papa st /\ 0 <= currentIndex st <= total Papa st - 1 /\ hydrated st).
Proof.
  intros (Hset & Hok & Hrefs & Hind & Hidx & Hun & Hfe).
  pose proof (active_total_bounds (csvText st) (selectedIndustry st)) as Hb.
  rewrite <- total_eq in Hb.
  destruct (Z.eq_dec (total Papa st) 0) as [Hz|Hz].
  - left. split; [exact Hz|]. rewrite <- Hidx, Hz. apply stored_index_zero.
  - right. split; [lia|]. split; [rewrite <- Hidx; apply stored_index_in_range; lia|].
    unfold hydrated. destruct (hasInitializedRef st); [auto|]. exfalso. auto.
Qed.

(** The answer to the request arrives. *)
Lemma consistent_fetch (n : nat) (st : State) (body : option string) :
  consistent Papa st -> fetching st = true ->
  let st' := render Papa (S n) (on_fetch body st) in
  consistent Papa st' /\ fetching st' = false /\
  csvText st' = accepted_text body /\ selectedIndustry st' = selectedIndustry st /\
  currentIndex st'
  = stored_index (active_total Papa (accepted_text body) (selectedIndustry st)) (browser st) /\
  stores_move st st'.
Proof.
  unfold stores_move.
  intros Hcons Hf. destruct (consistent_index st Hcons) as [[Ht Hi]|[Ht [_ [_ Hh]]]].
  2:{ destruct Hcons as (_ & _ & _ & _ & _ & _ & Hfe).
      destruct (Hfe Hf) as [_ Hfalse]. congruence. }
  destruct Hcons as ((Hp & Hc) & Hok & Hrefs & Hind & Hidx & Hun & Hfe).
  destruct (Hfe Hf) as [Hcsv Hhr]. rewrite Hhr in Hrefs.
  assert (Hst' : on_fetch body st = with_csvText (accepted_text body) (with_fetching false st)).
  { unfold on_fetch, accepted_text. rewrite Hf. unfold setCsvText.
    destruct body as [text|];
      [destruct (JS.truthy text && (0 <? String.length (JS.trim text))%nat)|];
      try reflexivity; destruct st; norm; subst; reflexivity. }
  rewrite Hst'. clear Hst'. generalize (accepted_text body). intros csv'.
  rewrite total_eq in *. clear Hidx Hun Hfe.
  destruct st as [w csv sel i ji sj ir hr fe p co]. norm.
  rewrite Ht in Hc. subst p co i csv ir hr fe.
  destruct (Z.eq_dec (active_total Papa csv' sel) 0) as [Hz|Hz].
  - cbv zeta. rewrite (render_index_only (S n) _ 0)
      by (norm; rewrite total_eq; norm; rewrite Hz; reflexivity).
    norm. rewrite !total_eq. norm. rewrite Z.eqb_refl, Hz. norm.
    unfold consistent, settled. rewrite !total_eq. norm. rewrite Hz.
    repeat split; auto; try discriminate; try congruence.
  - pose proof (active_total_bounds csv' sel) as Hb.
    cbv zeta. rewrite (render_hydrate n _ 0 0);
      norm; rewrite ?total_eq; norm; try reflexivity; try lia.
    set (t := active_total Papa csv' sel) in *.
    pose proof (stored_index_in_range t w ltac:(lia)) as Hv.
    unfold consistent, settled. rewrite !total_eq. norm. fold t.
    destruct (Z.eqb_spec (stored_index t w) 0) as [Hv0|Hv0].
    + rewrite Hv0. repeat split; auto; try discriminate; try congruence.
      * rewrite initial_industry_record. exact Hind.
      * rewrite stored_index_record. exact Hv0.
    + repeat split; auto; try discriminate.
      * apply persisted_ok. exact Hok.
      * apply initial_industry_persisted. exact Hok.
      * apply stored_index_persisted; auto. lia.
      * intros _. apply persisted_index. exact Hok.
Qed.

Lemma card_shown_total (st : State) : card_shown Papa st = true -> 0 < total Papa st.
Proof. unfold card_shown. intros [H _]%andb_prop. apply Z.ltb_lt, H. Qed.

(** Another industry is selected. *)
Lemma consistent_select (n : nat) (st : State) (value : string) :
  consistent Papa st -> card_shown Papa st = true -> value <> selectedIndustry st ->
  let st' := render Papa (S n) (setSelectedIndustry value st) in
  consistent Papa st' /\ currentIndex st' = 0 /\ selectedIndustry st' = value /\
  csvText st' = csvText st /\ fetching st' = fetching st /\ stores_move st st'.
Proof.
  unfold stores_move.
  intros Hcons Hcard Hv. apply card_shown_total in Hcard.
  destruct (consistent_index st Hcons) as [[Ht _]|[_ [Hi [Hir Hhr]]]]; [lia|].
  destruct Hcons as ((Hp & Hc) & Hok & Hrefs & Hind & Hidx & Hun & Hfe).
  rewrite total_eq in *. clear Hidx Hun Hrefs.
  destruct st as [w csv sel i ji sj ir hr fe p co]. norm. subst p co ir hr.
  cbv zeta. rewrite (render_filter_change n _ i sel (active_total Papa csv sel));
    norm; try reflexivity; try (split; reflexivity); try assumption.
  rewrite !total_eq. norm.
  unfold consistent, settled. rewrite !total_eq. norm.
  pose proof (active_total_bounds csv value) as Hb.
  assert (Hzero : forall w', storage_ok w' = true ->
            stored_index (active_total Papa csv value) (persisted 0 value w') = 0).
  { intros w' Hw'.
    destruct (Z.eq_dec (active_total Papa csv value) 0) as [Hz|Hz];
      [rewrite Hz; apply stored_index_zero|].
    apply stored_index_persisted; auto; lia. }
  assert (Hfe' : fe = true -> csv = EmptyString /\ true = false) by exact Hfe.
  destruct (Z.eqb_spec i 0) as [->|Hne].
  - repeat split; auto; try discriminate;
      try solve [edestruct Hfe' as [? ?]; [eassumption|congruence]].
    + apply persisted_ok, Hok.
    + rewrite initial_industry_record. apply initial_industry_persisted, Hok.
    + rewrite stored_index_record. apply Hzero, Hok.
    + intros H. congruence.
  - repeat split; auto; try discriminate;
      try solve [edestruct Hfe' as [? ?]; [eassumption|congruence]].
    + apply persisted_ok. apply persisted_ok, Hok.
    + apply initial_industry_persisted. apply persisted_ok, Hok.
    + apply Hzero. apply persisted_ok, Hok.
    + intros _. apply persisted_index. apply persisted_ok, Hok.
Qed.

Lemma same_core_refl (st : State) : same_core st st.
Proof. repeat split. Qed.

Lemma follows_render (st st' : State) :
  consistent Papa st -> same_core st st' ->
  match pendingIndex st' with
  | Some v => 0 <= v <= total Papa st - 1
  | None => True
  end ->
  follows Papa st (render Papa 2 st').
Proof.
  intros Hcons Hcore Hp.
  destruct (consistent_render 2 st st' Hcons Hcore Hp) as (H1 & _ & H2 & _ & H3 & H4).
  split; [exact H1|]. split; [|exact H4]. intros Hf. split; congruence.
Qed.

Lemma follows_idle (st : State) : consistent Papa st -> follows Papa st (render Papa 2 st).
Proof.
  intros Hcons. apply follows_render; [exact Hcons|apply same_core_refl|].
  replace (pendingIndex st) with (@None Z); [exact I|]. symmetry. apply Hcons.
Qed.

Lemma consistent_step (st : State) (e : Event) :
  consistent Papa st ->
  follows Papa st (step Papa st e) /\
  (forall body, e = FetchDone body -> fetching st = true ->
   fetching (step Papa st e) = false /\ csvText (step Papa st e) = accepted_text body).
Proof.
  intros Hcons.
  assert (Hnone : pendingIndex st = None) by apply Hcons.
  pose proof (follows_idle st Hcons) as Hstay.
  pose proof (follows_render st) as Hkeep.
  unfold step.
  destruct e as [body| | |value| |value| |]; cbn [handler].
  - (* FetchDone *)
    destruct (fetching st) eqn:Hf.
    + destruct (consistent_fetch 1 st body Hcons Hf) as (H1 & H2 & H3 & _ & _ & H4).
      split; [|intros b [= <-] _; auto].
      split; [exact H1|]. split; [rewrite Hf; discriminate|exact H4].
    + unfold on_fetch. rewrite Hf. split; [exact Hstay|discriminate].
  - (* ClickPrevious *)
    split; [|discriminate]. unfold goPrevious, canGoBack.
    destruct (Z.ltb_spec 0 (currentIndex st)) as [Hlt|Hge]; [|exact Hstay].
    destruct (consistent_index st Hcons) as [[_ Hi]|[Ht [Hi _]]]; [lia|].
    apply Hkeep; [exact Hcons|destruct st; repeat split|destruct st; norm; lia].
  - (* ClickNext *)
    split; [|discriminate]. unfold goNext, canGoNext.
    destruct (Z.ltb_spec (currentIndex st) (total Papa st - 1)) as [Hlt|Hge]; [|exact Hstay].
    destruct (consistent_index st Hcons) as [[Ht Hi]|[Ht [Hi _]]]; [lia|].
    apply Hkeep; [exact Hcons|destruct st; repeat split|].
    rewrite total_eq in *. destruct st; norm. lia.
  - (* SelectIndustry *)
    split; [|discriminate].
    destruct (card_shown Papa st) eqn:Hcard; [|exact Hstay].
    destruct (string_dec value (selectedIndustry st)) as [->|Hne].
    + replace (setSelectedIndustry (selectedIndustry st) st) with st
        by (destruct st; reflexivity).
      exact Hstay.
    + destruct (consistent_select 1 st value Hcons Hcard Hne) as (H1 & _ & _ & H2 & H3 & H4).
      split; [exact H1|]. split; [|exact H4]. intros Hf. split; congruence.
  - (* ClickEntry *)
    split; [|discriminate].
    destruct (card_shown Papa st && negb (showJumpInput st)); [|exact Hstay].
    apply Hkeep; [exact Hcons|destruct st; repeat split|].
    destruct st; norm. rewrite Hnone. exact I.
  - (* TypeJump *)
    split; [|discriminate].
    destruct (card_shown Papa st && showJumpInput st); [|exact Hstay].
    apply Hkeep; [exact Hcons|destruct st; repeat split|].
    destruct st; norm. rewrite Hnone. exact I.
  - (* SubmitJump *)
    split; [|discriminate].
    destruct (card_shown Papa st && showJumpInput st); [|exact Hstay].
    unfold handleJump.
    destruct (JS.parseInt (jumpInput st)) as [|neg|k] eqn:Hnum;
      try (destruct (JS.geb _ 1 && JS.leb _ (total Papa st)); exact Hstay).
    cbn [JS.geb JS.leb].
    destruct (Z.leb_spec 1 k), (Z.leb_spec k (total Papa st)); cbn [andb];
      try exact Hstay.
    apply Hkeep; [exact Hcons|destruct st; repeat split|destruct st; norm; lia].
  - (* CancelJump *)
    split; [|discriminate].
    destruct (card_shown Papa st && showJumpInput st); [|exact Hstay].
    apply Hkeep; [exact Hcons|destruct st; repeat split|].
    destruct st; norm. rewrite Hnone. exact I.
Qed.

Lemma consistent_run (events : list Event) (st : State) :
  consistent Papa st -> fetching st = false ->
  consistent Papa (run Papa st events) /\
  fetching (run Papa st events) = false /\
  csvText (run Papa st events) = csvText st.
Proof.
  revert st. induction events as [|e events IH]; intros st Hcons Hf; [auto|].
  destruct (consistent_step st e Hcons) as [(H1 & H2 & _) _].
  destruct (H2 Hf) as [H3 H4].
  destruct (IH _ H1 H3) as (H5 & H6 & H7).
  change (run Papa st (e :: events)) with (run Papa (step Papa st e) events).
  split; [exact H5|]. split; [exact H6|]. rewrite H7. exact H4.
Qed.

Lemma stored_index_fresh (t : Z) (w : Browser) :
  stored_index t (fresh w) = stored_index t w.
Proof.
  unfold stored_index, result_of, getStoredIndex.
  destruct (t =? 0); [reflexivity|].
  unfold try_catch, bind, getItem, ret, fresh. simpl.
  destruct (storage_ok w); reflexivity.
Qed.

Lemma initial_industry_fresh (w : Browser) :
  result_of initial_industry (fresh w) = result_of initial_industry w.
Proof.
  unfold result_of, initial_industry, bind, url_get_industry, try_catch, getItem, ret.
  destruct w as [ok m u j]. unfold fresh. simpl.
  destruct u as [u|]; [destruct (JS.truthy u)|]; destruct ok; reflexivity.
Qed.

(** A reload with the same answer to the request comes back to the same
    position under the same filter. *)
Lemma reload_restores (w : Browser) (body : option string) (events : list Event) :
  storage_ok w = true ->
  let st := run Papa (mount Papa w) (FetchDone body :: events) in
  let st' := run Papa (mount Papa (browser st)) [FetchDone body] in
  currentIndex st' = currentIndex st /\
  selectedIndustry st' = selectedIndustry st /\
  csvText st' = csvText st /\
  currentBusiness Papa st' = currentBusiness Papa st.
Proof.
  intros Hok st st'.
  assert (Est : st = run Papa (render Papa 2 (on_fetch body (mount Papa w))) events)
    by reflexivity.
  assert (Est' : st' = render Papa 2 (on_fetch body (mount Papa (browser st))))
    by reflexivity.
  clearbody st st'.
  assert (Hst : consistent Papa st /\ fetching st = false /\ csvText st = accepted_text body).
  { pose proof (consistent_mount w Hok) as Hm.
    assert (Hfm : fetching (mount Papa w) = true) by (rewrite mount_eq; reflexivity).
    destruct (consistent_fetch 1 _ body Hm Hfm) as (H1 & H2 & H3 & _).
    destruct (consistent_run events _ H1 H2) as (H4 & H5 & H6).
    rewrite Est. split; [exact H4|]. split; [exact H5|]. rewrite H6. exact H3. }
  destruct Hst as (Hcons & Hf & Hcsv).
  assert (Hokst : storage_ok (browser st) = true) by apply Hcons.
  pose proof (consistent_mount (browser st) Hokst) as Hm.
  assert (Hfm : fetching (mount Papa (browser st)) = true) by (rewrite mount_eq; reflexivity).
  destruct (consistent_fetch 1 _ body Hm Hfm) as (H1 & H2 & H3 & H4 & H5 & _).
  rewrite <- Est' in *.
  assert (Hsel : selectedIndustry st' = selectedIndustry st).
  { rewrite H4, mount_eq. cbn [selectedIndustry]. unfold first_industry.
    rewrite initial_industry_fresh.
    destruct Hcons as (_ & _ & _ & Hind & _). rewrite Hind. reflexivity. }
  assert (Hidx : currentIndex st' = currentIndex st).
  { rewrite H5. destruct Hcons as (_ & _ & _ & _ & Hidx & _). rewrite <- Hidx.
    rewrite total_eq, Hcsv. rewrite <- H4, Hsel.
    rewrite mount_eq. cbn [browser]. apply stored_index_fresh. }
  split; [exact Hidx|]. split; [exact Hsel|]. split; [congruence|].
  unfold currentBusiness, filteredBusinesses, businesses. congruence.
Qed.

Lemma reachable_consistent (w : Browser) (events : list Event) :
  storage_ok w = true -> consistent Papa (run Papa (mount Papa w) events).
Proof.
  intros Hok. pose proof (consistent_mount w Hok) as H.
  revert H. generalize (mount Papa w). induction events as [|e events IH]; intros st H.
  - exact H.
  - change (run Papa st (e :: events)) with (run Papa (step Papa st e) events).
    apply IH. apply (consistent_step st e H).
Qed.

Lemma reachable_stores_move (w : Browser) (events : list Event) (e : Event) :
  storage_ok w = true ->
  stores_move (run Papa (mount Papa w) events)
    (step Papa (run Papa (mount Papa w) events) e).
Proof.
  intros Hok. apply (consistent_step _ e (reachable_consistent w events Hok)).
Qed.

(** *** The index stays in the active list *)

Lemma active_total_nonneg (csv sel : string) : 0 <= active_total Papa csv sel.
Proof. unfold active_total. lia. Qed.

Lemma ranged_mount (w : Browser) : ranged Papa (mount Papa w).
Proof.
  rewrite mount_eq. unfold ranged, settled. rewrite !total_eq. norm.
  rewrite active_total_empty.
  repeat split; intros; try reflexivity; try lia; try discriminate.
Qed.

Lemma ranged_render (n : nat) (st st' : State) :
  ranged Papa st -> same_core st st' ->
  match pendingIndex st' with
  | Some v => 0 <= v <= total Papa st - 1
  | None => True
  end ->
  ranged Papa (render Papa n st') /\
  fetching (render Papa n st') = fetching st.
Proof.
  intros (Hset & Hrefs & Hfe & Hun & Hz & Hr) Hcore Hp.
  destruct Hset as [_ Hc].
  destruct Hcore as (Hw & Hcsv & Hsel & Hi & Hir & Hhr & Hf & Hco).
  assert (Ht : total Papa st' = total Papa st) by (rewrite !total_eq; congruence).
  rewrite (render_index_only n st' (currentIndex st))
    by (rewrite Hco, Hc, Hsel, Ht; reflexivity).
  cbv zeta. rewrite persist_effect_eq. unfold ranged, settled.
  rewrite !total_eq in *.
  destruct st as [w csv sel i ji sj ir hr fe p co].
  destruct st' as [w' csv' sel' i' ji' sj' ir' hr' fe' p' co'].
  norm. subst w' csv' sel' i' ir' hr' fe' co' ir.
  assert (Hfe' : fe = true -> csv = EmptyString /\ hr = false) by exact Hfe.
  destruct p' as [v|]; norm.
  - destruct (v =? i), hr; norm;
      repeat split; intros; try reflexivity; try lia;
      solve [apply Hfe'; assumption | apply Hun; assumption
            | edestruct Hfe' as [? ?]; [eassumption|congruence]].
  - rewrite Z.eqb_refl. norm.
    repeat split; intros; try reflexivity; try lia;
      solve [apply Hfe'; assumption | apply Hun; assumption | apply Hz; assumption
            | apply Hr; assumption].
Qed.

(** What the first render after the answer gives, whatever storage holds. *)
Lemma arrival (n : nat) (st : State) (body : option string) :
  ranged Papa st -> fetching st = true ->
  let st' := render Papa (S n) (on_fetch body st) in
  let t := active_total Papa (accepted_text body) (selectedIndustry st) in
  ranged Papa st' /\ fetching st' = false /\
  csvText st' = accepted_text body /\ selectedIndustry st' = selectedIndustry st /\
  total Papa st' = t /\
  currentIndex st' = stored_index t (browser st) /\
  hasInitializedRef st' = (0 <? t) /\
  (t = 0 -> browser st' = browser st) /\
  hydrations (journal (browser st'))
  = (hydrations (journal (browser st)) + (if (0 <? t)%Z then 1 else 0))%nat.
Proof.
  intros ((Hp & Hc) & Hrefs & Hfe & Hun & Hz & Hr) Hf.
  destruct (Hfe Hf) as [Hcsv Hhr]. rewrite Hhr in Hrefs.
  pose proof (Hun Hhr) as Ht. pose proof (Hz Ht) as Hi.
  assert (Hst' : on_fetch body st = with_csvText (accepted_text body) (with_fetching false st)).
  { unfold on_fetch, accepted_text. rewrite Hf. unfold setCsvText.
    destruct body as [text|];
      [destruct (JS.truthy text && (0 <? String.length (JS.trim text))%nat)|];
      try reflexivity; destruct st; norm; subst; reflexivity. }
  rewrite Hst'. clear Hst'. generalize (accepted_text body). intros csv'.
  rewrite total_eq in *. clear Hun Hfe Hz Hr.
  destruct st as [w csv sel i ji sj ir hr fe p co]. norm.
  rewrite Ht in Hc. subst p co i csv ir hr fe.
  pose proof (active_total_nonneg csv' sel) as Hnn.
  destruct (Z.eq_dec (active_total Papa csv' sel) 0) as [Hz|Hz].
  - cbv zeta. rewrite (render_index_only (S n) _ 0)
      by (norm; rewrite total_eq; norm; rewrite Hz; reflexivity).
    norm. rewrite !total_eq. norm. rewrite Z.eqb_refl, Hz. norm.
    unfold ranged, settled. rewrite !total_eq. norm. rewrite Hz.
    repeat split; intros; try reflexivity; try lia; try discriminate.
    change (0 <? 0) with false. cbv iota. lia.
  - cbv zeta. rewrite (render_hydrate n _ 0 0);
      norm; rewrite ?total_eq; norm; try reflexivity; try lia.
    set (t := active_total Papa csv' sel) in *.
    pose proof (stored_index_in_range t w ltac:(lia)) as Hv.
    assert (Hpos : (0 <? t) = true) by (apply Z.ltb_lt; lia).
    unfold ranged, settled. rewrite !total_eq. norm. fold t. rewrite Hpos.
    destruct (stored_index t w =? 0);
      (repeat split; intros; try reflexivity; try lia; try discriminate).
    + unfold record. cbn [journal]. rewrite hydrations_app. reflexivity.
    + destruct (persisted_journal (stored_index t w) sel (record Hydrated w))
        as (l & Hl & _ & Hl0 & _).
      rewrite Hl. unfold record. cbn [journal].
      rewrite !hydrations_app, Hl0. cbn. lia.
Qed.

Lemma ranged_select (n : nat) (st : State) (value : string) :
  ranged Papa st -> card_shown Papa st = true -> value <> selectedIndustry st ->
  let st' := render Papa (S n) (setSelectedIndustry value st) in
  ranged Papa st' /\ fetching st' = fetching st.
Proof.
  intros ((Hp & Hc) & Hrefs & Hfe & Hun & Hz & Hr) Hcard Hv.
  apply card_shown_total in Hcard.
  assert (Hhr : hasInitializedRef st = true).
  { destruct (hasInitializedRef st); [reflexivity|]. rewrite Hun in Hcard by reflexivity. lia. }
  rewrite Hhr in Hrefs.
  assert (Hfalse : fetching st = false).
  { destruct (fetching st); [|reflexivity]. destruct Hfe; congruence. }
  rewrite total_eq in *. clear Hun Hz Hr Hfe.
  destruct st as [w csv sel i ji sj ir hr fe p co]. norm. subst p co ir hr fe.
  cbv zeta. rewrite (render_filter_change n _ i sel (active_total Papa csv sel));
    norm; try reflexivity; try (split; reflexivity); try assumption.
  rewrite !total_eq. norm.
  unfold ranged, settled. rewrite !total_eq. norm.
  pose proof (active_total_nonneg csv value).
  repeat split; intros; try reflexivity; try lia; try discriminate.
Qed.

Lemma ranged_step (st : State) (e : Event) :
  ranged Papa st ->
  ranged Papa (step Papa st e) /\
  (fetching st = false -> fetching (step Papa st e) = false).
Proof.
  intros Hran.
  assert (Hnone : pendingIndex st = None) by apply Hran.
  assert (Hkeep : forall st', same_core st st' ->
            match pendingIndex st' with
            | Some v => 0 <= v <= total Papa st - 1
            | None => True
            end ->
            ranged Papa (render Papa 2 st') /\
            (fetching st = false -> fetching (render Papa 2 st') = false)).
  { intros st' Hcore Hp. destruct (ranged_render 2 st st' Hran Hcore Hp) as [H1 H2].
    split; [exact H1|]. congruence. }
  assert (Hstay : ranged Papa (render Papa 2 st) /\
            (fetching st = false -> fetching (render Papa 2 st) = false)).
  { apply Hkeep; [apply same_core_refl|]. rewrite Hnone. exact I. }
  pose proof Hran as (_ & _ & _ & _ & Hz & Hr).
  pose proof (active_total_nonneg (csvText st) (selectedIndustry st)) as Hnn.
  rewrite <- total_eq in Hnn.
  unfold step.
  destruct e as [body| | |value| |value| |]; cbn [handler].
  - destruct (fetching st) eqn:Hf.
    + destruct (arrival 1 st body Hran Hf) as (H1 & H2 & _). cbv zeta in *.
      split; [exact H1|]. intros _. exact H2.
    + unfold on_fetch. rewrite Hf. exact Hstay.
  - unfold goPrevious, canGoBack.
    destruct (Z.ltb_spec 0 (currentIndex st)) as [Hlt|Hge]; [|exact Hstay].
    apply Hkeep; [destruct st; repeat split|destruct st; norm; lia].
  - unfold goNext, canGoNext.
    destruct (Z.ltb_spec (currentIndex st) (total Papa st - 1)) as [Hlt|Hge]; [|exact Hstay].
    apply Hkeep; [destruct st; repeat split|].
    destruct st; norm. lia.
  - destruct (card_shown Papa st) eqn:Hcard; [|exact Hstay].
    destruct (string_dec value (selectedIndustry st)) as [->|Hne].
    + replace (setSelectedIndustry (selectedIndustry st) st) with st
        by (destruct st; reflexivity).
      exact Hstay.
    + destruct (ranged_select 1 st value Hran Hcard Hne) as [H1 H2].
      split; [exact H1|]. cbv zeta in H2. congruence.
  - destruct (card_shown Papa st && negb (showJumpInput st)); [|exact Hstay].
    apply Hkeep; [destruct st; repeat split|].
    destruct st; norm. rewrite Hnone. exact I.
  - destruct (card_shown Papa st && showJumpInput st); [|exact Hstay].
    apply Hkeep; [destruct st; repeat split|].
    destruct st; norm. rewrite Hnone. exact I.
  - destruct (card_shown Papa st && showJumpInput st); [|exact Hstay].
    unfold handleJump.
    destruct (JS.parseInt (jumpInput st)) as [|neg|k] eqn:Hnum;
      try (destruct (JS.geb _ 1 && JS.leb _ (total Papa st)); exact Hstay).
    cbn [JS.geb JS.leb].
    destruct (Z.leb_spec 1 k), (Z.leb_spec k (total Papa st)); cbn [andb];
      try exact Hstay.
    apply Hkeep; [destruct st; repeat split|destruct st; norm; lia].
  - destruct (card_shown Papa st && showJumpInput st); [|exact Hstay].
    apply Hkeep; [destruct st; repeat split|].
    destruct st; norm. rewrite Hnone. exact I.
Qed.

Lemma reachable_ranged (w : Browser) (events : list Event) :
  ranged Papa (run Papa (mount Papa w) events).
Proof.
  pose proof (ranged_mount w) as H.
  revert H. generalize (mount Papa w). induction events as [|e events IH]; intros st H.
  - exact H.
  - change (run Papa st (e :: events)) with (run Papa (step Papa st e) events).
    apply IH. apply (ranged_step st e H).
Qed.

(** With no row in the active list and the request answered, no event
    changes anything. *)
Lemma idle_when_empty (st : State) (e : Event) :
  ranged Papa st -> total Papa st = 0 -> fetching st = false -> step Papa st e = st.
Proof.
  intros Hran Ht Hf.
  assert (Hidle : render Papa 2 st = st) by apply render_settled, Hran.
  assert (Hi : currentIndex st = 0) by (apply Hran; exact Ht).
  assert (Hcard : card_shown Papa st = false)
    by (unfold card_shown; rewrite Ht; reflexivity).
  unfold step. destruct e; cbn [handler]; rewrite ?Hcard; cbn [andb]; try exact Hidle.
  - unfold on_fetch. rewrite Hf. exact Hidle.
  - unfold goPrevious, canGoBack. rewrite Hi. exact Hidle.
  - unfold goNext, canGoNext. rewrite Hi, Ht. exact Hidle.
Qed.

Lemma idle_run (events : list Event) (st : State) :
  ranged Papa st -> total Papa st = 0 -> fetching st = false ->
  run Papa st events = st.
Proof.
  intros Hran Ht Hf. induction events as [|e events IH]; [reflexivity|].
  change (run Papa st (e :: events)) with (run Papa (step Papa st e) events).
  rewrite (idle_when_empty st e Hran Ht Hf). exact IH.
Qed.

(** *** What a state with its index in the list shows *)

Lemma ranged_business (st : State) :
  ranged Papa st ->
  (0 < total Papa st -> is_Some (currentBusiness Papa st)) /\
  (total Papa st = 0 -> currentBusiness Papa st = None).
Proof.
  intros (_ & _ & _ & _ & Hz & Hr). unfold currentBusiness. split.
  - intros Hpos. apply at_index_is_Some. unfold total in *. specialize (Hr Hpos). lia.
  - intros Ht. apply at_index_nil. exact Ht.
Qed.

Lemma ranged_card_shown (st : State) :
  ranged Papa st -> card_shown Papa st = (0 <? total Papa st).
Proof.
  intros Hran. unfold card_shown.
  destruct (Z.ltb_spec 0 (total Papa st)) as [Hpos|Hle]; [|reflexivity].
  cbn [andb]. apply bool_decide_eq_true. apply (ranged_business st Hran), Hpos.
Qed.

Lemma ranged_hydrated (st : State) :
  ranged Papa st -> 0 < total Papa st -> hydrated st.
Proof.
  intros (_ & Hrefs & _ & Hun & _) Hpos. unfold hydrated. rewrite Hrefs.
  destruct (hasInitializedRef st); [split; reflexivity|].
  rewrite Hun in Hpos by reflexivity. lia.
Qed.

Lemma ranged_run (events : list Event) (st : State) :
  ranged Papa st ->
  ranged Papa (run Papa st events) /\
  (fetching st = false ->
   fetching (run Papa st events) = false /\
   csvText (run Papa st events) = csvText st).
Proof.
  revert st. induction events as [|e events IH]; intros st Hran.
  - split; [exact Hran|]. intros Hf. split; [exact Hf|reflexivity].
  - change (run Papa st (e :: events)) with (run Papa (step Papa st e) events).
    destruct (ranged_step st e Hran) as [H1 H2].
    destruct (IH _ H1) as [H3 H4]. split; [exact H3|].
    intros Hf. destruct (H4 (H2 Hf)) as [H5 H6]. split; [exact H5|].
    rewrite H6. unfold step. rewrite (proj1 (render_keeps_view 2 _)).
    apply handler_keeps_text, Hf.
Qed.

(** *** Pressing a button again and again *)

Lemma repeat_next (k : nat) (st : State) :
  ranged Papa st -> 0 < total Papa st ->
  let st' := run Papa st (replicate k ClickNext) in
  currentIndex st' = Z.min (total Papa st - 1) (currentIndex st + Z.of_nat k) /\
  total Papa st' = total Papa st.
Proof.
  revert st. induction k as [|k IH]; intros st Hran Hpos; cbv zeta.
  - cbn [replicate]. change (run Papa st []) with st.
    pose proof Hran as (_ & _ & _ & _ & _ & Hr). specialize (Hr Hpos).
    split; [lia|reflexivity].
  - cbn [replicate].
    change (run Papa st (ClickNext :: replicate k ClickNext))
      with (run Papa (step Papa st ClickNext) (replicate k ClickNext)).
    pose proof Hran as (Hset & _ & _ & _ & _ & Hr). specialize (Hr Hpos).
    destruct (filter_navigation st Hset Hpos Hr) as (_ & H2 & _ & H4 & _).
    cbv zeta in H2, H4.
    destruct (ranged_step st ClickNext Hran) as [Hran' _].
    destruct (IH _ Hran') as [H5 H6]; [rewrite H4; exact Hpos|].
    cbv zeta in H5, H6. rewrite H5, H6, H4, H2. split; [lia|reflexivity].
Qed.

Lemma repeat_previous (k : nat) (st : State) :
  ranged Papa st -> 0 < total Papa st ->
  let st' := run Papa st (replicate k ClickPrevious) in
  currentIndex st' = Z.max 0 (currentIndex st - Z.of_nat k) /\
  total Papa st' = total Papa st.
Proof.
  revert st. induction k as [|k IH]; intros st Hran Hpos; cbv zeta.
  - cbn [replicate]. change (run Papa st []) with st.
    pose proof Hran as (_ & _ & _ & _ & _ & Hr). specialize (Hr Hpos).
    split; [lia|reflexivity].
  - cbn [replicate].
    change (run Papa st (ClickPrevious :: replicate k ClickPrevious))
      with (run Papa (step Papa st ClickPrevious) (replicate k ClickPrevious)).
    pose proof Hran as (Hset & _ & _ & _ & _ & Hr). specialize (Hr Hpos).
    destruct (filter_navigation st Hset Hpos Hr) as (H1 & _ & H3 & _).
    cbv zeta in H1, H3.
    destruct (ranged_step st ClickPrevious Hran) as [Hran' _].
    destruct (IH _ Hran') as [H5 H6]; [rewrite H3; exact Hpos|].
    cbv zeta in H5, H6. rewrite H5, H6, H3, H1. split; [lia|reflexivity].
Qed.

(** The answer to the request of a page that was just loaded. *)
Lemma first_answer (w : Browser) (body : option string) :
  let st' := step Papa (mount Papa w) (FetchDone body) in
  let t := active_total Papa (accepted_text body) (first_industry w) in
  ranged Papa st' /\ fetching st' = false /\
  csvText st' = accepted_text body /\ selectedIndustry st' = first_industry w /\
  total Papa st' = t /\
  currentIndex st' = stored_index t w /\
  hasInitializedRef st' = (0 <? t) /\
  (t = 0 -> browser st' = fresh w).
Proof.
  cbv zeta. rewrite step_fetch.
  pose proof (ranged_mount w) as Hran.
  assert (Hm : fetching (mount Papa w) = true
               /\ selectedIndustry (mount Papa w) = first_industry w
               /\ browser (mount Papa w) = fresh w)
    by (rewrite (mount_eq w); repeat split).
  destruct Hm as (Hf & Hsel & Hw).
  revert Hran Hf Hsel Hw. generalize (mount Papa w). intros m Hran Hf Hsel Hw.
  pose proof (arrival 1 m body Hran Hf) as H. cbv zeta in H.
  rewrite Hsel, Hw in H. rewrite stored_index_fresh in H.
  destruct H as (H1 & H2 & H3 & H4 & H5 & H6 & H7 & H8 & _).
  exact (conj H1 (conj H2 (conj H3 (conj H4 (conj H5 (conj H6 (conj H7 H8))))))).
Qed.

(** *** Events that change nothing *)

Lemma idle_navigation (st : State) :
  ranged Papa st -> total Papa st = 0 ->
  step Papa st ClickPrevious = st /\ step Papa st ClickNext = st.
Proof.
  intros Hran Ht.
  assert (Hidle : render Papa 2 st = st) by apply render_settled, Hran.
  assert (Hi : currentIndex st = 0) by (apply Hran; exact Ht).
  unfold step. cbn [handler]. unfold goPrevious, goNext, canGoBack, canGoNext.
  rewrite Hi, Ht. split; exact Hidle.
Qed.

Lemma late_answer (st : State) (body : option string) :
  settled Papa st -> fetching st = false -> step Papa st (FetchDone body) = st.
Proof.
  intros Hset Hf. unfold step. cbn [handler]. unfold on_fetch. rewrite Hf.
  apply render_settled, Hset.
Qed.

Lemma step_keeps_text (st : State) (e : Event) :
  fetching st = false -> csvText (step Papa st e) = csvText st.
Proof.
  intros Hf. unfold step. rewrite (proj1 (render_keeps_view 2 _)).
  apply handler_keeps_text, Hf.
Qed.

Lemma ranged_not_fetching (st : State) :
  ranged Papa st -> 0 < total Papa st -> fetching st = false.
Proof.
  intros (_ & _ & Hfe & Hun & _) Hpos.
  destruct (fetching st); [|reflexivity].
  destruct Hfe as [_ Hhr]; [reflexivity|]. rewrite Hun in Hpos by exact Hhr. lia.
Qed.

End Hydration.

End Facts.
End FilterFacts.

(** ** The card revision: renders, consistency and reloads *)

Lemma persisted_index_only_ok (i : Z) (w : Browser) :
  storage_ok w = true -> storage_ok (persisted_index_only i w) = true.
Proof. intros H. unfold persisted_index_only. rewrite H. reflexivity. Qed.

Lemma persisted_index_only_lookup (i : Z) (w : Browser) :
  storage_ok w = true ->
  storage (persisted_index_only i w) !! STORAGE_KEY = Some (JS.String_of i).
Proof.
  intros H. unfold persisted_index_only. rewrite H. simpl. apply lookup_insert_eq.
Qed.

Lemma stored_index_persisted_only (t i : Z) (w : Browser) :
  storage_ok w = true -> 0 <= i <= t - 1 -> t <= MAX_ARRAY_LENGTH ->
  stored_index t (persisted_index_only i w) = i.
Proof.
  intros Hok Hi Ht.
  apply stored_index_written;
    auto using persisted_index_only_ok, persisted_index_only_lookup.
Qed.

Lemma persisted_index_only_journal (i : Z) (w : Browser) :
  exists l, journal (persisted_index_only i w) = journal w ++ l /\ hydrations l = 0%nat.
Proof.
  unfold persisted_index_only. destruct (storage_ok w).
  - eexists. split; reflexivity.
  - exists []. rewrite app_nil_r. split; reflexivity.
Qed.

Module CardFacts.
Import AppCard CardSpec.
Section Facts.
Context {E : Type}.
Variable Papa : string -> ParseResult E.

Ltac norm :=
  cbv [with_browser with_csvText with_currentIndex with_isEditingIndex
       with_inputIndex with_initializedRef with_hasInitializedRef with_fetching
       with_pendingIndex with_committed
       setCurrentIndex setCsvText setIsEditingIndex setInputIndex
       log fetch_effect apply_pending
       browser csvText currentIndex isEditingIndex inputIndex
       initializedRef hasInitializedRef fetching pendingIndex committed
       negb andb orb] in *.

Lemma card_total_eq (st : State) : total Papa st = rows_total Papa (csvText st).
Proof. reflexivity. Qed.

Lemma card_persist_effect_eq (st : State) :
  persist_effect st
  = if hasInitializedRef st
    then with_browser (persisted_index_only (currentIndex st) (browser st)) st
    else st.
Proof.
  unfold persist_effect, persisted_index_only.
  destruct (hasInitializedRef st); simpl; [|reflexivity].
  f_equal. unfold browser_after, try_catch, setItem, ret.
  destruct (browser st) as [ok m u j]. destruct ok; reflexivity.
Qed.

Lemma card_restore_effect_eq (st : State) :
  restore_effect Papa st
  = if negb (initializedRef st) && (0 <? total Papa st)
    then setCurrentIndex (stored_index (total Papa st) (browser st))
           (log Hydrated (with_hasInitializedRef true (with_initializedRef true st)))
    else st.
Proof.
  unfold restore_effect.
  destruct (negb (initializedRef st) && (0 <? total Papa st)); [|reflexivity].
  unfold read_stored_index. rewrite getStoredIndex_returns.
  unfold log at 1. cbn [browser with_browser]. rewrite stored_index_record.
  destruct st; reflexivity.
Qed.

Lemma card_render_unfold (n : nat) (st : State) :
  render Papa (S n) st
  = match pendingIndex (commit Papa (apply_pending st)) with
    | Some _ => render Papa n (commit Papa (apply_pending st))
    | None => commit Papa (apply_pending st)
    end.
Proof. reflexivity. Qed.

(** A render in which the number of rows did not change: at most the
    index is persisted. *)
Lemma card_render_index_only (n : nat) (st : State) (i0 : Z) :
  committed st = Some (i0, total Papa st) ->
  render Papa n st
  = let st' := apply_pending st in
    with_committed (Some (currentIndex st', total Papa st))
      (if currentIndex st' =? i0 then st' else persist_effect st').
Proof.
  intros Hc. rewrite card_total_eq in *.
  destruct st as [w csv i ed inp ir hr fe p co]; norm. subst co.
  destruct n; cbn [render]; unfold commit; norm.
  all: destruct p as [v|]; norm; rewrite ?card_total_eq; norm.
  all: rewrite Z.eqb_refl; norm.
  all: rewrite (Z.eqb_sym i0).
  all: try destruct (v =? i0); try destruct (i =? i0); norm; try reflexivity.
  all: rewrite card_persist_effect_eq; norm; destruct hr; reflexivity.
Qed.

Lemma card_render_settled (n : nat) (st : State) : settled Papa st -> render Papa n st = st.
Proof.
  intros [Hp Hc]. rewrite (card_render_index_only n st _ Hc).
  unfold apply_pending. rewrite Hp. cbv zeta. rewrite Z.eqb_refl.
  rewrite card_total_eq in *. destruct st; norm. subst. reflexivity.
Qed.

(** The render in which the rows arrive, in a component that is not
    hydrated yet. *)
Lemma card_render_hydrate (n : nat) (st : State) (i0 t0 : Z) :
  committed st = Some (i0, t0) -> pendingIndex st = None ->
  currentIndex st = i0 -> initializedRef st = false -> hasInitializedRef st = false ->
  total Papa st <> t0 -> 0 < total Papa st ->
  render Papa (S n) st
  = let v := stored_index (total Papa st) (browser st) in
    let w1 := record Hydrated (browser st) in
    with_committed (Some (v, total Papa st))
      (with_currentIndex v
         (with_browser (if v =? i0 then w1 else persisted_index_only v w1)
            (with_hasInitializedRef true (with_initializedRef true st)))).
Proof.
  intros Hc Hp Hi Hir Hhr Ht Hpos. rewrite card_total_eq in *.
  destruct st as [w csv i ed inp ir hr fe p co]; norm. subst co p i ir hr.
  apply Z.eqb_neq in Ht. rewrite Z.eqb_sym in Ht. apply Z.ltb_lt in Hpos.
  cbn [render]. unfold commit. norm. rewrite !card_total_eq. norm.
  rewrite Z.eqb_refl, Ht. norm.
  rewrite card_restore_effect_eq. norm. rewrite !card_total_eq. norm. rewrite Hpos. norm.
  rewrite (card_render_index_only n _ i0) by reflexivity. norm.
  rewrite !card_total_eq. norm.
  destruct (stored_index (rows_total Papa csv) w =? i0); [reflexivity|].
  rewrite card_persist_effect_eq. reflexivity.
Qed.

(** *** Writes only after the hydration *)

Lemma card_guarded_same (w0 : Browser) (st st' : State) :
  same_refs st st' -> guarded w0 st -> guarded w0 st'.
Proof. intros (Hw & Hi & Hh). unfold guarded. rewrite Hw, Hi, Hh. tauto. Qed.

Lemma card_guarded_if (w0 : Browser) (b : bool) (f : State -> State) (st : State) :
  (guarded w0 st -> guarded w0 (f st)) ->
  guarded w0 st -> guarded w0 (if b then f st else st).
Proof. destruct b; auto. Qed.

Lemma card_guarded_persist (w0 : Browser) (st : State) :
  guarded w0 st -> guarded w0 (persist_effect st).
Proof.
  intros H. pose proof H as (Hj & Hh & Hu & Hc). rewrite card_persist_effect_eq.
  destruct (hasInitializedRef st) eqn:Hhr; [|exact H].
  destruct (persisted_index_only_journal (currentIndex st) (browser st)) as (l & Hl & Hl0).
  unfold guarded. destruct st as [w csv i ed inp ir hr fe p co]. norm. subst hr.
  rewrite Hl. split; [apply wfh_writes; auto|]. split; [intros _; apply elem_of_app; auto|].
  split; [discriminate|]. rewrite hydrations_app, Hl0, Hc. lia.
Qed.

Lemma card_guarded_restore (w0 : Browser) (st : State) :
  guarded w0 st -> guarded w0 (restore_effect Papa st).
Proof.
  intros H. pose proof H as (Hj & Hh & Hu & Hc). rewrite card_restore_effect_eq.
  destruct (negb (initializedRef st) && (0 <? total Papa st)) eqn:Hb; [|exact H].
  apply andb_prop in Hb as [Hir _]. apply negb_true_iff in Hir.
  unfold guarded. destruct st as [w csv i ed inp ir hr fe p co]. norm. subst ir.
  unfold record. cbn [journal].
  split; [apply wfh_snoc; [exact Hj|discriminate]|].
  split; [intros _; apply elem_of_app; right; apply list_elem_of_singleton; reflexivity|].
  split; [discriminate|]. rewrite hydrations_app, Hc. reflexivity.
Qed.

Lemma card_guarded_with_committed (w0 : Browser) (c : option (Z * Z)) (st : State) :
  guarded w0 st -> guarded w0 (with_committed c st).
Proof. apply card_guarded_same. destruct st; repeat split. Qed.

Lemma card_guarded_fetch (w0 : Browser) (st : State) :
  guarded w0 st -> guarded w0 (fetch_effect st).
Proof. apply card_guarded_same. destruct st; repeat split. Qed.

Lemma card_guarded_apply_pending (w0 : Browser) (st : State) :
  guarded w0 st -> guarded w0 (apply_pending st).
Proof.
  apply card_guarded_same. unfold apply_pending.
  destruct (pendingIndex st), st; repeat split.
Qed.

Lemma card_guarded_commit (w0 : Browser) (st : State) :
  guarded w0 st -> guarded w0 (commit Papa st).
Proof.
  intros H. unfold commit.
  destruct (committed st) as [[i0 t0]|]; cbv beta iota zeta;
    apply card_guarded_with_committed.
  - apply card_guarded_if; [apply card_guarded_restore|].
    apply card_guarded_if; [apply card_guarded_persist|]. exact H.
  - apply card_guarded_restore, card_guarded_persist, card_guarded_fetch, H.
Qed.

Lemma card_guarded_render (w0 : Browser) (n : nat) (st : State) :
  guarded w0 st -> guarded w0 (render Papa n st).
Proof.
  revert st. induction n as [|n IH]; intros st H.
  - cbn [render].
    assert (G : guarded w0 (commit Papa (apply_pending st)))
      by apply card_guarded_commit, card_guarded_apply_pending, H.
    destruct (pendingIndex (commit Papa (apply_pending st))); exact G.
  - rewrite card_render_unfold.
    assert (G : guarded w0 (commit Papa (apply_pending st)))
      by apply card_guarded_commit, card_guarded_apply_pending, H.
    destruct (pendingIndex (commit Papa (apply_pending st))); [apply IH|]; exact G.
Qed.

Lemma card_handler_same_refs (e : Event) (st : State) : same_refs st (handler Papa e st).
Proof.
  destruct e; cbn [handler];
    unfold on_fetch, goPrevious, goNext, commitIndex;
    repeat match goal with
      | |- context [if ?b then _ else _] => destruct b
      | |- context [match ?x with _ => _ end] => destruct x
      end;
    destruct st; repeat split.
Qed.

Lemma card_guarded_run (w0 : Browser) (events : list Event) (st : State) :
  guarded w0 st -> guarded w0 (run Papa st events).
Proof.
  revert st. induction events as [|e events IH]; intros st H; [exact H|].
  change (run Papa st (e :: events)) with (run Papa (step Papa st e) events).
  apply IH. unfold step. apply card_guarded_render.
  eapply card_guarded_same; [apply card_handler_same_refs|exact H].
Qed.

Lemma card_guarded_mount (w : Browser) : guarded w (mount Papa w).
Proof.
  unfold mount. apply card_guarded_render.
  unfold guarded. cbn [browser journal storage url_industry hasInitializedRef initializedRef].
  split; [apply wfh_nil|]. split; [discriminate|]. split; [auto|reflexivity].
Qed.

Lemma card_no_write_before_hydration (w : Browser) (events : list Event) :
  guarded w (run Papa (mount Papa w) events).
Proof. apply card_guarded_run, card_guarded_mount. Qed.

(** *** Navigation and the position editor *)

Lemma card_step_index (st st' : State) (v : Z) :
  settled Papa st -> same_core st st' -> pendingIndex st' = Some v ->
  currentIndex (render Papa 2 st') = v /\
  total Papa (render Papa 2 st') = total Papa st /\
  isEditingIndex (render Papa 2 st') = isEditingIndex st' /\
  settled Papa (render Papa 2 st').
Proof.
  intros [Hp Hc] (Hw & Hcsv & Hi & Hir & Hhr & Hf & Hco) Hv.
  assert (Ht : total Papa st' = total Papa st) by (rewrite !card_total_eq; congruence).
  rewrite (card_render_index_only 2 st' (currentIndex st))
    by (rewrite Hco, Hc, Ht; reflexivity).
  cbv zeta. rewrite card_persist_effect_eq. unfold settled. rewrite !card_total_eq in *.
  destruct st as [w csv i ed inp ir hr fe p co].
  destruct st' as [w' csv' i' ed' inp' ir' hr' fe' p' co']. norm.
  subst p' csv'.
  destruct (v =? i), hr'; norm; repeat split.
Qed.

Lemma card_step_idle (st st' : State) :
  settled Papa st -> same_core st st' -> pendingIndex st' = None ->
  currentIndex (render Papa 2 st') = currentIndex st /\
  isEditingIndex (render Papa 2 st') = isEditingIndex st'.
Proof.
  intros [Hp Hc] (Hw & Hcsv & Hi & Hir & Hhr & Hf & Hco) Hv.
  assert (Ht : total Papa st' = total Papa st) by (rewrite !card_total_eq; congruence).
  rewrite (card_render_index_only 2 st' (currentIndex st))
    by (rewrite Hco, Hc, Ht; reflexivity).
  cbv zeta. rewrite !card_total_eq in *.
  destruct st as [w csv i ed inp ir hr fe p co].
  destruct st' as [w' csv' i' ed' inp' ir' hr' fe' p' co']. norm.
  subst. rewrite Z.eqb_refl. split; reflexivity.
Qed.

Lemma card_navigation (st : State) :
  settled Papa st -> 0 < total Papa st -> 0 <= currentIndex st <= total Papa st - 1 ->
  let L := total Papa st in
  let i := currentIndex st in
  currentIndex (step Papa st ClickPrevious) = Z.max 0 (i - 1) /\
  currentIndex (step Papa st ClickNext) = Z.min (L - 1) (i + 1) /\
  total Papa (step Papa st ClickPrevious) = L /\
  total Papa (step Papa st ClickNext) = L /\
  (i = 0 -> step Papa st ClickPrevious = st) /\
  (i = L - 1 -> step Papa st ClickNext = st).
Proof.
  intros Hset HL Hi. cbv zeta. unfold step. cbn [handler].
  unfold goPrevious, goNext, previous_disabled, next_disabled, showNavigation.
  assert (Hidle : render Papa 2 st = st) by apply card_render_settled, Hset.
  assert (Hmove : forall v,
            currentIndex (render Papa 2 (setCurrentIndex v st)) = v /\
            total Papa (render Papa 2 (setCurrentIndex v st)) = total Papa st).
  { intros v. edestruct (card_step_index st (setCurrentIndex v st) v) as (H1 & H2 & _);
      [exact Hset| | |split; eassumption].
    - destruct st; repeat split.
    - destruct st; reflexivity. }
  destruct (Z.ltb_spec 0 (total Papa st)) as [_|]; [|lia]. cbn [negb orb].
  destruct (Z.eqb_spec (currentIndex st) 0) as [Hz|Hnz];
    destruct (Z.leb_spec (total Papa st - 1) (currentIndex st)) as [Hlast|Hmid];
    rewrite ?Hidle;
    repeat match goal with
      | |- context [render Papa 2 (setCurrentIndex ?v st)] =>
          let H1 := fresh in let H2 := fresh in
          destruct (Hmove v) as [H1 H2]; rewrite ?H1, ?H2; clear H1 H2
      end;
    unfold clamp; repeat split; auto; lia.
Qed.

Lemma card_commit (st : State) :
  settled Papa st -> showNavigation Papa st = true -> isEditingIndex st = true ->
  let L := total Papa st in
  isEditingIndex (step Papa st CommitEdit) = false /\
  match JS.parseInt (inputIndex st) with
  | JS.Finite n => currentIndex (step Papa st CommitEdit) = clamp (n - 1) 0 (L - 1)
  | _ => currentIndex (step Papa st CommitEdit) = currentIndex st
  end.
Proof.
  intros Hset Hnav Hed. cbv zeta. unfold step. cbn [handler].
  rewrite Hnav, Hed. cbn [andb]. unfold commitIndex.
  destruct (JS.parseInt (inputIndex st)) as [|neg|n].
  - edestruct (card_step_idle st (setIsEditingIndex false st)) as [H1 H2];
      [exact Hset| | |rewrite H1, H2; destruct st; split; reflexivity].
    + destruct st; repeat split.
    + destruct st; apply Hset.
  - edestruct (card_step_idle st (setIsEditingIndex false st)) as [H1 H2];
      [exact Hset| | |rewrite H1, H2; destruct st; split; reflexivity].
    + destruct st; repeat split.
    + destruct st; apply Hset.
  - edestruct (card_step_index st
                 (setIsEditingIndex false
                    (setCurrentIndex (clamp (n - 1) 0 (total Papa st - 1)) st)))
      as (H1 & _ & H2 & _); [exact Hset| | |rewrite H1, H2; destruct st; split; reflexivity].
    + destruct st; repeat split.
    + destruct st; reflexivity.
Qed.

(** *** Two passes are enough *)

Lemma card_commit_view (st : State) :
  committed (commit Papa st) = Some (currentIndex st, total Papa st) /\
  csvText (commit Papa st) = csvText st /\
  currentIndex (commit Papa st) = currentIndex st.
Proof.
  split.
  - unfold commit. destruct (committed st) as [[i0 t0]|]; cbv beta iota zeta;
      unfold with_committed; reflexivity.
  - unfold commit.
    destruct (committed st) as [[i0 t0]|]; cbv beta iota zeta;
      rewrite ?card_persist_effect_eq, ?card_restore_effect_eq;
      repeat match goal with |- context [if ?b then _ else _] => destruct b end;
      destruct st; split; reflexivity.
Qed.

Lemma card_index_only_settled (n : nat) (st : State) (i0 : Z) :
  committed st = Some (i0, total Papa st) -> settled Papa (render Papa n st).
Proof.
  intros Hc. rewrite (card_render_index_only n st i0 Hc). cbv zeta.
  rewrite card_persist_effect_eq. unfold settled. rewrite !card_total_eq.
  destruct st as [w csv i ed inp ir hr fe p co].
  destruct p as [v|]; norm;
    repeat match goal with |- context [if ?b then _ else _] => destruct b end;
    split; reflexivity.
Qed.

Lemma card_render_settles (n : nat) (st : State) : settled Papa (render Papa (S n) st).
Proof.
  rewrite card_render_unfold.
  destruct (card_commit_view (apply_pending st)) as (Hc & Hcsv & Hi).
  set (c1 := commit Papa (apply_pending st)) in *.
  assert (Hc1 : committed c1 = Some (currentIndex c1, total Papa c1)).
  { rewrite Hc, Hi, !card_total_eq, Hcsv. reflexivity. }
  destruct (pendingIndex c1) eqn:Hp.
  - apply (card_index_only_settled n c1 _ Hc1).
  - split; assumption.
Qed.

Lemma card_reachable_settled (w : Browser) (events : list Event) :
  settled Papa (run Papa (mount Papa w) events).
Proof.
  assert (H : settled Papa (mount Papa w)) by apply card_render_settles.
  revert H. generalize (mount Papa w).
  induction events as [|e events IH]; intros st H; [exact H|].
  change (run Papa st (e :: events)) with (run Papa (step Papa st e) events).
  apply IH. apply card_render_settles.
Qed.

(** *** Disabled storage *)

Lemma card_silent_browser (w0 : Browser) (st st' : State) :
  browser st' = browser st -> silent w0 st -> silent w0 st'.
Proof. intros Hw. unfold silent. rewrite Hw. tauto. Qed.

Lemma card_silent_if (w0 : Browser) (b : bool) (f : State -> State) (st : State) :
  (silent w0 st -> silent w0 (f st)) ->
  silent w0 st -> silent w0 (if b then f st else st).
Proof. destruct b; auto. Qed.

Lemma card_silent_persist (w0 : Browser) (st : State) :
  silent w0 st -> silent w0 (persist_effect st).
Proof.
  intros H. rewrite card_persist_effect_eq. destruct (hasInitializedRef st); [|exact H].
  pose proof H as (Hok & _).
  eapply card_silent_browser; [|exact H].
  unfold persisted_index_only. destruct st as [w csv i ed inp ir hr fe p co].
  norm. rewrite Hok. reflexivity.
Qed.

Lemma card_silent_restore (w0 : Browser) (st : State) :
  silent w0 st -> silent w0 (restore_effect Papa st).
Proof.
  intros H. rewrite card_restore_effect_eq.
  destruct (negb (initializedRef st) && (0 <? total Papa st)); [|exact H].
  destruct H as (H1 & H2 & H3 & H4). unfold silent.
  destruct st as [w csv i ed inp ir hr fe p co]. norm. unfold record. cbn.
  split; [exact H1|]. split; [exact H2|]. split; [exact H3|].
  apply Forall_app. split; [exact H4|]. apply Forall_singleton. reflexivity.
Qed.

Lemma card_silent_commit (w0 : Browser) (st : State) :
  silent w0 st -> silent w0 (commit Papa st).
Proof.
  intros H. unfold commit.
  assert (Hwc : forall c x, silent w0 x -> silent w0 (with_committed c x))
    by (intros c x; apply card_silent_browser; destruct x; reflexivity).
  destruct (committed st) as [[i0 t0]|]; cbv beta iota zeta; apply Hwc.
  - apply card_silent_if; [apply card_silent_restore|].
    apply card_silent_if; [apply card_silent_persist|]. exact H.
  - apply card_silent_restore, card_silent_persist.
    eapply card_silent_browser; [|exact H]. destruct st; reflexivity.
Qed.

Lemma card_silent_render (w0 : Browser) (n : nat) (st : State) :
  silent w0 st -> silent w0 (render Papa n st).
Proof.
  revert st. induction n as [|n IH]; intros st H.
  - cbn [render].
    assert (G : silent w0 (commit Papa (apply_pending st))).
    { apply card_silent_commit. eapply card_silent_browser; [|exact H].
      unfold apply_pending. destruct (pendingIndex st), st; reflexivity. }
    destruct (pendingIndex (commit Papa (apply_pending st))); exact G.
  - rewrite card_render_unfold.
    assert (G : silent w0 (commit Papa (apply_pending st))).
    { apply card_silent_commit. eapply card_silent_browser; [|exact H].
      unfold apply_pending. destruct (pendingIndex st), st; reflexivity. }
    destruct (pendingIndex (commit Papa (apply_pending st))); [apply IH|]; exact G.
Qed.

Lemma card_silent_run (w : Browser) (events : list Event) :
  storage_ok w = false -> silent w (run Papa (mount Papa w) events).
Proof.
  intros Hok.
  assert (H : silent w (mount Papa w)).
  { unfold mount. apply card_silent_render. unfold silent. cbn.
    repeat split; [exact Hok|apply Forall_nil_2]. }
  revert H. generalize (mount Papa w).
  induction events as [|e events IH]; intros st H; [exact H|].
  change (run Papa st (e :: events)) with (run Papa (step Papa st e) events).
  apply IH. unfold step. apply card_silent_render.
  eapply card_silent_browser; [apply card_handler_same_refs|exact H].
Qed.

(** *** Opening the editor and committing what it shows *)

Lemma card_open_editor (st : State) :
  settled Papa st -> showNavigation Papa st = true -> isEditingIndex st = false ->
  step Papa st ClickPosition
  = setInputIndex (JS.String_of (currentIndex st + 1)) (setIsEditingIndex true st).
Proof.
  intros [Hp Hc] Hnav Hed. unfold step. cbn [handler]. rewrite Hnav, Hed. cbn [andb negb].
  rewrite (card_render_index_only 2 _ (currentIndex st))
    by (destruct st; exact Hc).
  rewrite !card_total_eq in *.
  destruct st as [w csv i ed inp ir hr fe p co]. norm. subst p co.
  rewrite Z.eqb_refl. rewrite ?card_total_eq. reflexivity.
Qed.

Lemma card_commit_shown (st : State) :
  settled Papa st -> showNavigation Papa st = true -> isEditingIndex st = false ->
  0 <= currentIndex st <= total Papa st - 1 -> total Papa st <= MAX_ARRAY_LENGTH ->
  step Papa (step Papa st ClickPosition) CommitEdit
  = setInputIndex (JS.String_of (currentIndex st + 1)) st.
Proof.
  intros Hset Hnav Hed Hi HL. rewrite (card_open_editor st Hset Hnav Hed).
  destruct Hset as [Hp Hc].
  unfold step. cbn [handler].
  assert (Hparse : JS.parseInt (JS.String_of (currentIndex st + 1))
                   = JS.Finite (currentIndex st + 1)).
  { apply parseInt_String_of. pose proof overflow_above_arrays. lia. }
  rewrite !card_total_eq in *.
  destruct st as [w csv i ed inp ir hr fe p co]. norm. subst p co ed.
  unfold showNavigation in *. rewrite !card_total_eq in *. norm.
  rewrite Hnav. cbn [andb]. unfold commitIndex. norm. rewrite Hparse.
  rewrite !card_total_eq. norm.
  replace (clamp (i + 1 - 1) 0 (rows_total Papa csv - 1)) with i
    by (unfold clamp; lia).
  rewrite (card_render_index_only 2 _ i) by reflexivity.
  norm. rewrite Z.eqb_refl. rewrite !card_total_eq. reflexivity.
Qed.

(** *** What a render keeps *)

Lemma card_render_keeps_text (n : nat) (st : State) :
  csvText (render Papa n st) = csvText st.
Proof.
  assert (Hp : forall x, csvText (apply_pending x) = csvText x)
    by (intros x; unfold apply_pending; destruct (pendingIndex x), x; reflexivity).
  revert st. induction n as [|n IH]; intros st.
  - cbn [render]. destruct (card_commit_view (apply_pending st)) as (_ & H1 & _).
    destruct (pendingIndex (commit Papa (apply_pending st))); rewrite H1; apply Hp.
  - rewrite card_render_unfold.
    destruct (card_commit_view (apply_pending st)) as (_ & H1 & _).
    destruct (pendingIndex (commit Papa (apply_pending st)));
      rewrite ?IH, H1; apply Hp.
Qed.

Lemma card_handler_keeps_text (e : Event) (st : State) :
  fetching st = false -> csvText (handler Papa e st) = csvText st.
Proof.
  intros Hf. destruct e; cbn [handler];
    unfold on_fetch, goPrevious, goNext, commitIndex; rewrite ?Hf;
    repeat match goal with
      | |- context [if ?b then _ else _] => destruct b
      | |- context [match ?x with _ => _ end] => destruct x
      end;
    destruct st; reflexivity.
Qed.

Lemma card_run_cons (st : State) (e : Event) (events : list Event) :
  run Papa st (e :: events) = run Papa (step Papa st e) events.
Proof. reflexivity. Qed.

Lemma card_step_fetch (st : State) (body : option string) :
  step Papa st (FetchDone body) = render Papa 2 (on_fetch body st).
Proof. reflexivity. Qed.

(** Leaving the editor that was just opened. *)
Lemma card_cancel_shown (st : State) :
  settled Papa st -> showNavigation Papa st = true -> isEditingIndex st = false ->
  step Papa (step Papa st ClickPosition) CancelEdit
  = setInputIndex (JS.String_of (currentIndex st + 1)) st.
Proof.
  intros Hset Hnav Hed. rewrite (card_open_editor st Hset Hnav Hed).
  destruct Hset as [Hp Hc].
  unfold step. cbn [handler].
  rewrite !card_total_eq in *.
  destruct st as [w csv i ed inp ir hr fe p co]. norm. subst p co ed.
  unfold showNavigation in *. rewrite !card_total_eq in *. norm.
  rewrite Hnav. cbn [andb]. norm.
  rewrite (card_render_index_only 2 _ i) by reflexivity.
  norm. rewrite Z.eqb_refl. rewrite ?card_total_eq. reflexivity.
Qed.

Section Hydration.

Hypothesis Papa_empty : data (Papa EmptyString) = [].
Hypothesis Papa_array :
  forall text, Z.of_nat (length (data (Papa text))) <= MAX_ARRAY_LENGTH.

Lemma card_rows_total_empty : rows_total Papa EmptyString = 0.
Proof.
  unfold rows_total, parseBusinesses. change (JS.trim EmptyString) with EmptyString.
  rewrite Papa_empty. reflexivity.
Qed.

Lemma card_rows_total_bounds (csv : string) : 0 <= rows_total Papa csv <= MAX_ARRAY_LENGTH.
Proof.
  unfold rows_total. split; [lia|].
  etransitivity; [|apply (Papa_array (JS.trim csv))].
  apply inj_le. unfold parseBusinesses. cbn [fst].
  etransitivity; [apply List.filter_length_le|]. rewrite length_map. lia.
Qed.

Lemma card_mount_eq (w : Browser) :
  mount Papa w
  = {| browser := fresh w; csvText := EmptyString; currentIndex := 0;
       isEditingIndex := false; inputIndex := EmptyString;
       initializedRef := false; hasInitializedRef := false;
       fetching := true; pendingIndex := None;
       committed := Some (0, 0) |}.
Proof.
  unfold mount. fold (fresh w). fold (rows_total Papa EmptyString).
  rewrite card_rows_total_empty, stored_index_zero.
  rewrite card_render_unfold.
  match goal with |- context [commit Papa ?x] =>
    assert (Hc : commit Papa x
                 = {| browser := fresh w; csvText := EmptyString; currentIndex := 0;
                      isEditingIndex := false; inputIndex := EmptyString;
                      initializedRef := false; hasInitializedRef := false;
                      fetching := true; pendingIndex := None;
                      committed := Some (0, 0) |})
  end.
  { unfold commit. norm. rewrite !card_total_eq. norm.
    rewrite card_rows_total_empty.
    rewrite card_persist_effect_eq, card_restore_effect_eq. norm.
    rewrite !card_total_eq. norm. rewrite card_rows_total_empty. reflexivity. }
  rewrite Hc. reflexivity.
Qed.

Lemma card_consistent_mount (w : Browser) :
  storage_ok w = true -> consistent Papa (mount Papa w).
Proof.
  intros Hok. rewrite card_mount_eq. unfold consistent, settled. rewrite !card_total_eq. norm.
  rewrite card_rows_total_empty.
  repeat split; try reflexivity; try assumption.
Qed.

(** A handler that queued nothing, or an index of the list. *)
Lemma card_consistent_render (n : nat) (st st' : State) :
  consistent Papa st -> same_core st st' ->
  match pendingIndex st' with
  | Some v => 0 <= v <= total Papa st - 1
  | None => True
  end ->
  consistent Papa (render Papa n st') /\
  csvText (render Papa n st') = csvText st /\
  fetching (render Papa n st') = fetching st /\
  stores_move st (render Papa n st').
Proof.
  unfold stores_move.
  intros (Hset & Hok & Hrefs & Hidx & Hun & Hfe) Hcore Hp.
  destruct Hset as [_ Hc].
  destruct Hcore as (Hw & Hcsv & Hi & Hir & Hhr & Hf & Hco).
  assert (Ht : total Papa st' = total Papa st) by (rewrite !card_total_eq; congruence).
  rewrite (card_render_index_only n st' (currentIndex st))
    by (rewrite Hco, Hc, Ht; reflexivity).
  cbv zeta. rewrite card_persist_effect_eq. unfold consistent, settled.
  rewrite !card_total_eq in *.
  destruct st as [w csv i ed inp ir hr fe p co].
  destruct st' as [w' csv' i' ed' inp' ir' hr' fe' p' co'].
  norm. subst w' csv' i' ir' hr' fe' co' ir.
  assert (Hfe' : fe = true -> csv = EmptyString /\ hr = false) by exact Hfe.
  destruct p' as [v|]; norm.
  - destruct (Z.eqb_spec v i) as [Heq|Hne].
    + norm. repeat split; auto;
        solve [apply Hfe'; assumption | intros; congruence].
    + destruct hr; [|rewrite Hun in Hp by reflexivity; lia].
      norm. pose proof (card_rows_total_bounds csv).
      repeat split; auto using persisted_index_only_ok.
      * apply stored_index_persisted_only; auto. lia.
      * edestruct Hfe' as [? ?]; [eassumption|congruence].
      * edestruct Hfe' as [? ?]; [eassumption|congruence].
      * intros _. apply persisted_index_only_lookup. assumption.
  - rewrite Z.eqb_refl. norm.
    repeat split; auto; solve [apply Hfe'; assumption | intros; congruence].
Qed.

Lemma card_consistent_index (st : State) :
  consistent Papa st ->
  (total Papa st = 0 /\ currentIndex st = 0) \/
  (0 < total Papa st /\ 0 <= currentIndex st <= total Papa st - 1 /\
   hasInitializedRef st = true).
Proof.
  intros (Hset & Hok & Hrefs & Hidx & Hun & Hfe).
  pose proof (card_rows_total_bounds (csvText st)) as Hb.
  rewrite <- card_total_eq in Hb.
  destruct (Z.eq_dec (total Papa st) 0) as [Hz|Hz].
  - left. split; [exact Hz|]. rewrite <- Hidx, Hz. apply stored_index_zero.
  - right. split; [lia|]. split; [rewrite <- Hidx; apply stored_index_in_range; lia|].
    destruct (hasInitializedRef st); [auto|]. exfalso. auto.
Qed.

(** The answer to the request arrives. *)
Lemma card_consistent_fetch (n : nat) (st : State) (body : option string) :
  consistent Papa st -> fetching st = true ->
  let st' := render Papa (S n) (on_fetch body st) in
  consistent Papa st' /\ fetching st' = false /\
  csvText st' = accepted_text body /\
  currentIndex st' = stored_index (rows_total Papa (accepted_text body)) (browser st) /\
  stores_move st st'.
Proof.
  unfold stores_move.
  intros Hcons Hf. destruct (card_consistent_index st Hcons) as [[Ht Hi]|[Ht [_ Hh]]].
  2:{ destruct Hcons as (_ & _ & _ & _ & _ & Hfe).
      destruct (Hfe Hf) as [_ Hfalse]. congruence. }
  destruct Hcons as ((Hp & Hc) & Hok & Hrefs & Hidx & Hun & Hfe).
  destruct (Hfe Hf) as [Hcsv Hhr]. rewrite Hhr in Hrefs.
  assert (Hst' : on_fetch body st = with_csvText (accepted_text body) (with_fetching false st)).
  { unfold on_fetch, accepted_text. rewrite Hf. unfold setCsvText.
    destruct body as [text|];
      [destruct (JS.truthy text && (0 <? String.length (JS.trim text))%nat)|];
      try reflexivity; destruct st; norm; subst; reflexivity. }
  rewrite Hst'. clear Hst'. generalize (accepted_text body). intros csv'.
  rewrite card_total_eq in *. clear Hidx Hun Hfe.
  destruct st as [w csv i ed inp ir hr fe p co]. norm.
  rewrite Ht in Hc. subst p co i csv ir hr fe.
  destruct (Z.eq_dec (rows_total Papa csv') 0) as [Hz|Hz].
  - cbv zeta. rewrite (card_render_index_only (S n) _ 0)
      by (norm; rewrite card_total_eq; norm; rewrite Hz; reflexivity).
    norm. rewrite !card_total_eq. norm. rewrite Z.eqb_refl, Hz. norm.
    unfold consistent, settled. rewrite !card_total_eq. norm. rewrite Hz.
    repeat split; auto; try discriminate; try congruence.
  - pose proof (card_rows_total_bounds csv') as Hb.
    cbv zeta. rewrite (card_render_hydrate n _ 0 0);
      norm; rewrite ?card_total_eq; norm; try reflexivity; try lia.
    set (t := rows_total Papa csv') in *.
    pose proof (stored_index_in_range t w ltac:(lia)) as Hv.
    unfold consistent, settled. rewrite !card_total_eq. norm. fold t.
    destruct (Z.eqb_spec (stored_index t w) 0) as [Hv0|Hv0].
    + rewrite Hv0. repeat split; auto; try discriminate; try congruence.
      rewrite stored_index_record. exact Hv0.
    + repeat split; auto; try discriminate.
      * apply persisted_index_only_ok. exact Hok.
      * apply stored_index_persisted_only; auto. lia.
      * intros _. apply persisted_index_only_lookup. exact Hok.
Qed.

Lemma card_same_core_refl (st : State) : same_core st st.
Proof. repeat split. Qed.

Lemma card_follows_render (st st' : State) :
  consistent Papa st -> same_core st st' ->
  match pendingIndex st' with
  | Some v => 0 <= v <= total Papa st - 1
  | None => True
  end ->
  follows Papa st (render Papa 2 st').
Proof.
  intros Hcons Hcore Hp.
  destruct (card_consistent_render 2 st st' Hcons Hcore Hp) as (H1 & H2 & H3 & H4).
  split; [exact H1|]. split; [|exact H4]. intros Hf. split; congruence.
Qed.

Lemma card_follows_idle (st : State) : consistent Papa st -> follows Papa st (render Papa 2 st).
Proof.
  intros Hcons. apply card_follows_render; [exact Hcons|apply card_same_core_refl|].
  replace (pendingIndex st) with (@None Z); [exact I|]. symmetry. apply Hcons.
Qed.

Lemma card_consistent_step (st : State) (e : Event) :
  consistent Papa st -> follows Papa st (step Papa st e).
Proof.
  intros Hcons.
  assert (Hnone : pendingIndex st = None) by apply Hcons.
  pose proof (card_follows_idle st Hcons) as Hstay.
  pose proof (card_follows_render st) as Hkeep.
  unfold step.
  destruct e as [body| | | |value| |]; cbn [handler].
  - (* FetchDone *)
    destruct (fetching st) eqn:Hf.
    + destruct (card_consistent_fetch 1 st body Hcons Hf) as (H1 & H2 & H3 & _ & H4).
      split; [exact H1|]. split; [rewrite Hf; discriminate|exact H4].
    + unfold on_fetch. rewrite Hf. exact Hstay.
  - (* ClickPrevious *)
    unfold goPrevious, previous_disabled, showNavigation.
    destruct (negb (0 <? total Papa st) || (currentIndex st =? 0)) eqn:Hd; [exact Hstay|].
    apply orb_false_elim in Hd as [Ht _]. apply negb_false_iff, Z.ltb_lt in Ht.
    apply Hkeep; [exact Hcons|destruct st; repeat split|].
    destruct st; norm. apply clamp_in_range. lia.
  - (* ClickNext *)
    unfold goNext, next_disabled, showNavigation.
    destruct (negb (0 <? total Papa st) || (total Papa st - 1 <=? currentIndex st)) eqn:Hd;
      [exact Hstay|].
    apply orb_false_elim in Hd as [Ht _]. apply negb_false_iff, Z.ltb_lt in Ht.
    apply Hkeep; [exact Hcons|destruct st; repeat split|].
    destruct st; norm. apply clamp_in_range. lia.
  - (* ClickPosition *)
    destruct (showNavigation Papa st && negb (isEditingIndex st)); [|exact Hstay].
    apply Hkeep; [exact Hcons|destruct st; repeat split|].
    destruct st; norm. rewrite Hnone. exact I.
  - (* TypeIndex *)
    destruct (showNavigation Papa st && isEditingIndex st); [|exact Hstay].
    apply Hkeep; [exact Hcons|destruct st; repeat split|].
    destruct st; norm. rewrite Hnone. exact I.
  - (* CommitEdit *)
    destruct (showNavigation Papa st) eqn:Hnav; [|exact Hstay].
    destruct (isEditingIndex st); [|exact Hstay]. cbn [andb].
    unfold showNavigation in Hnav. apply Z.ltb_lt in Hnav.
    unfold commitIndex.
    destruct (JS.parseInt (inputIndex st)) as [|neg|k];
      (apply Hkeep; [exact Hcons|destruct st; repeat split|]).
    + destruct st; norm. rewrite Hnone. exact I.
    + destruct st; norm. rewrite Hnone. exact I.
    + destruct st; norm. apply clamp_in_range. lia.
  - (* CancelEdit *)
    destruct (showNavigation Papa st && isEditingIndex st); [|exact Hstay].
    apply Hkeep; [exact Hcons|destruct st; repeat split|].
    destruct st; norm. rewrite Hnone. exact I.
Qed.

Lemma card_consistent_run (events : list Event) (st : State) :
  consistent Papa st -> fetching st = false ->
  consistent Papa (run Papa st events) /\
  fetching (run Papa st events) = false /\
  csvText (run Papa st events) = csvText st.
Proof.
  revert st. induction events as [|e events IH]; intros st Hcons Hf; [auto|].
  destruct (card_consistent_step st e Hcons) as (H1 & H2 & _).
  destruct (H2 Hf) as [H3 H4].
  destruct (IH _ H1 H3) as (H5 & H6 & H7).
  change (run Papa st (e :: events)) with (run Papa (step Papa st e) events).
  split; [exact H5|]. split; [exact H6|]. rewrite H7. exact H4.
Qed.

Lemma card_stored_index_fresh (t : Z) (w : Browser) :
  stored_index t (fresh w) = stored_index t w.
Proof.
  unfold stored_index, result_of, getStoredIndex.
  destruct (t =? 0); [reflexivity|].
  unfold try_catch, bind, getItem, ret, fresh. simpl.
  destruct (storage_ok w); reflexivity.
Qed.

(** A reload with the same answer to the request comes back to the same
    position. *)
Lemma card_reload_restores (w : Browser) (body : option string) (events : list Event) :
  storage_ok w = true ->
  let st := run Papa (mount Papa w) (FetchDone body :: events) in
  let st' := run Papa (mount Papa (browser st)) [FetchDone body] in
  currentIndex st' = currentIndex st /\
  csvText st' = csvText st /\
  currentBusiness Papa st' = currentBusiness Papa st.
Proof.
  intros Hok st st'.
  assert (Est : st = run Papa (render Papa 2 (on_fetch body (mount Papa w))) events)
    by reflexivity.
  assert (Est' : st' = render Papa 2 (on_fetch body (mount Papa (browser st))))
    by reflexivity.
  clearbody st st'.
  assert (Hst : consistent Papa st /\ fetching st = false /\ csvText st = accepted_text body).
  { pose proof (card_consistent_mount w Hok) as Hm.
    assert (Hfm : fetching (mount Papa w) = true) by (rewrite card_mount_eq; reflexivity).
    destruct (card_consistent_fetch 1 _ body Hm Hfm) as (H1 & H2 & H3 & _).
    destruct (card_consistent_run events _ H1 H2) as (H4 & H5 & H6).
    rewrite Est. split; [exact H4|]. split; [exact H5|]. rewrite H6. exact H3. }
  destruct Hst as (Hcons & Hf & Hcsv).
  assert (Hokst : storage_ok (browser st) = true) by apply Hcons.
  pose proof (card_consistent_mount (browser st) Hokst) as Hm.
  assert (Hfm : fetching (mount Papa (browser st)) = true) by (rewrite card_mount_eq; reflexivity).
  destruct (card_consistent_fetch 1 _ body Hm Hfm) as (H1 & H2 & H3 & H5 & _).
  rewrite <- Est' in *.
  assert (Hidx : currentIndex st' = currentIndex st).
  { rewrite H5. destruct Hcons as (_ & _ & _ & Hidx & _). rewrite <- Hidx.
    rewrite card_total_eq, Hcsv.
    rewrite card_mount_eq. cbn [browser]. apply card_stored_index_fresh. }
  split; [exact Hidx|]. split; [congruence|].
  unfold currentBusiness, businesses. congruence.
Qed.

Lemma card_reachable_consistent (w : Browser) (events : list Event) :
  storage_ok w = true -> consistent Papa (run Papa (mount Papa w) events).
Proof.
  intros Hok. pose proof (card_consistent_mount w Hok) as H.
  revert H. generalize (mount Papa w). induction events as [|e events IH]; intros st H.
  - exact H.
  - change (run Papa st (e :: events)) with (run Papa (step Papa st e) events).
    apply IH. apply (card_consistent_step st e H).
Qed.

Lemma card_reachable_stores_move (w : Browser) (events : list Event) (e : Event) :
  storage_ok w = true ->
  stores_move (run Papa (mount Papa w) events)
    (step Papa (run Papa (mount Papa w) events) e).
Proof.
  intros Hok. apply (card_consistent_step _ e (card_reachable_consistent w events Hok)).
Qed.

(** *** The index stays in the list *)

Lemma card_rows_total_nonneg (csv : string) : 0 <= rows_total Papa csv.
Proof. unfold rows_total. lia. Qed.

Lemma card_ranged_mount (w : Browser) : ranged Papa (mount Papa w).
Proof.
  rewrite card_mount_eq. unfold ranged, settled. rewrite !card_total_eq. norm.
  rewrite card_rows_total_empty.
  repeat split; intros; try reflexivity; try lia; try discriminate.
Qed.

Lemma card_ranged_render (n : nat) (st st' : State) :
  ranged Papa st -> same_core st st' ->
  match pendingIndex st' with
  | Some v => 0 <= v <= total Papa st - 1
  | None => True
  end ->
  ranged Papa (render Papa n st') /\
  fetching (render Papa n st') = fetching st.
Proof.
  intros (Hset & Hrefs & Hfe & Hun & Hz & Hr) Hcore Hp.
  destruct Hset as [_ Hc].
  destruct Hcore as (Hw & Hcsv & Hi & Hir & Hhr & Hf & Hco).
  assert (Ht : total Papa st' = total Papa st) by (rewrite !card_total_eq; congruence).
  rewrite (card_render_index_only n st' (currentIndex st))
    by (rewrite Hco, Hc, Ht; reflexivity).
  cbv zeta. rewrite card_persist_effect_eq. unfold ranged, settled.
  rewrite !card_total_eq in *.
  destruct st as [w csv i ed inp ir hr fe p co].
  destruct st' as [w' csv' i' ed' inp' ir' hr' fe' p' co'].
  norm. subst w' csv' i' ir' hr' fe' co' ir.
  assert (Hfe' : fe = true -> csv = EmptyString /\ hr = false) by exact Hfe.
  destruct p' as [v|]; norm.
  - destruct (v =? i), hr; norm;
      repeat split; intros; try reflexivity; try lia;
      solve [apply Hfe'; assumption | apply Hun; assumption
            | edestruct Hfe' as [? ?]; [eassumption|congruence]].
  - rewrite Z.eqb_refl. norm.
    repeat split; intros; try reflexivity; try lia;
      solve [apply Hfe'; assumption | apply Hun; assumption | apply Hz; assumption
            | apply Hr; assumption].
Qed.

(** What the first render after the answer gives, whatever storage holds. *)
Lemma card_arrival (n : nat) (st : State) (body : option string) :
  ranged Papa st -> fetching st = true ->
  let st' := render Papa (S n) (on_fetch body st) in
  let t := rows_total Papa (accepted_text body) in
  ranged Papa st' /\ fetching st' = false /\
  csvText st' = accepted_text body /\
  total Papa st' = t /\
  currentIndex st' = stored_index t (browser st) /\
  hasInitializedRef st' = (0 <? t) /\
  (t = 0 -> browser st' = browser st) /\
  hydrations (journal (browser st'))
  = (hydrations (journal (browser st)) + (if (0 <? t)%Z then 1 else 0))%nat.
Proof.
  intros ((Hp & Hc) & Hrefs & Hfe & Hun & Hz & Hr) Hf.
  destruct (Hfe Hf) as [Hcsv Hhr]. rewrite Hhr in Hrefs.
  pose proof (Hun Hhr) as Ht. pose proof (Hz Ht) as Hi.
  assert (Hst' : on_fetch body st = with_csvText (accepted_text body) (with_fetching false st)).
  { unfold on_fetch, accepted_text. rewrite Hf. unfold setCsvText.
    destruct body as [text|];
      [destruct (JS.truthy text && (0 <? String.length (JS.trim text))%nat)|];
      try reflexivity; destruct st; norm; subst; reflexivity. }
  rewrite Hst'. clear Hst'. generalize (accepted_text body). intros csv'.
  rewrite card_total_eq in *. clear Hun Hfe Hz Hr.
  destruct st as [w csv i ed inp ir hr fe p co]. norm.
  rewrite Ht in Hc. subst p co i csv ir hr fe.
  pose proof (card_rows_total_nonneg csv') as Hnn.
  destruct (Z.eq_dec (rows_total Papa csv') 0) as [Hz|Hz].
  - cbv zeta. rewrite (card_render_index_only (S n) _ 0)
      by (norm; rewrite card_total_eq; norm; rewrite Hz; reflexivity).
    norm. rewrite !card_total_eq. norm. rewrite Z.eqb_refl, Hz. norm.
    unfold ranged, settled. rewrite !card_total_eq. norm. rewrite Hz.
    repeat split; intros; try reflexivity; try lia; try discriminate.
    change (0 <? 0) with false. cbv iota. lia.
  - cbv zeta. rewrite (card_render_hydrate n _ 0 0);
      norm; rewrite ?card_total_eq; norm; try reflexivity; try lia.
    set (t := rows_total Papa csv') in *.
    pose proof (stored_index_in_range t w ltac:(lia)) as Hv.
    assert (Hpos : (0 <? t) = true) by (apply Z.ltb_lt; lia).
    unfold ranged, settled. rewrite !card_total_eq. norm. fold t. rewrite Hpos.
    destruct (stored_index t w =? 0);
      (repeat split; intros; try reflexivity; try lia; try discriminate).
    + unfold record. cbn [journal]. rewrite hydrations_app. reflexivity.
    + unfold persisted_index_only, record. cbn [journal storage_ok].
      destruct (storage_ok w); cbn [journal];
        rewrite ?hydrations_app; cbn; lia.
Qed.

Lemma card_ranged_step (st : State) (e : Event) :
  ranged Papa st ->
  ranged Papa (step Papa st e) /\
  (fetching st = false -> fetching (step Papa st e) = false).
Proof.
  intros Hran.
  assert (Hnone : pendingIndex st = None) by apply Hran.
  assert (Hkeep : forall st', same_core st st' ->
            match pendingIndex st' with
            | Some v => 0 <= v <= total Papa st - 1
            | None => True
            end ->
            ranged Papa (render Papa 2 st') /\
            (fetching st = false -> fetching (render Papa 2 st') = false)).
  { intros st' Hcore Hp. destruct (card_ranged_render 2 st st' Hran Hcore Hp) as [H1 H2].
    split; [exact H1|]. congruence. }
  assert (Hstay : ranged Papa (render Papa 2 st) /\
            (fetching st = false -> fetching (render Papa 2 st) = false)).
  { apply Hkeep; [apply card_same_core_refl|]. rewrite Hnone. exact I. }
  pose proof Hran as (_ & _ & _ & _ & Hz & Hr).
  pose proof (card_rows_total_nonneg (csvText st)) as Hnn.
  rewrite <- card_total_eq in Hnn.
  unfold step.
  destruct e as [body| | | |value| |]; cbn [handler].
  - destruct (fetching st) eqn:Hf.
    + destruct (card_arrival 1 st body Hran Hf) as (H1 & H2 & _). cbv zeta in *.
      split; [exact H1|]. intros _. exact H2.
    + unfold on_fetch. rewrite Hf. exact Hstay.
  - unfold goPrevious, previous_disabled, showNavigation.
    destruct (Z.ltb_spec 0 (total Papa st)) as [Hlt|Hge]; cbn [negb orb]; [|exact Hstay].
    destruct (Z.eqb_spec (currentIndex st) 0); [exact Hstay|].
    apply Hkeep; [destruct st; repeat split|].
    destruct st; norm. unfold clamp. lia.
  - unfold goNext, next_disabled, showNavigation.
    destruct (Z.ltb_spec 0 (total Papa st)) as [Hlt|Hge]; cbn [negb orb]; [|exact Hstay].
    destruct (Z.leb_spec (total Papa st - 1) (currentIndex st)); [exact Hstay|].
    apply Hkeep; [destruct st; repeat split|].
    destruct st; norm. unfold clamp. lia.
  - destruct (showNavigation Papa st && negb (isEditingIndex st)); [|exact Hstay].
    apply Hkeep; [destruct st; repeat split|].
    destruct st; norm. rewrite Hnone. exact I.
  - destruct (showNavigation Papa st && isEditingIndex st); [|exact Hstay].
    apply Hkeep; [destruct st; repeat split|].
    destruct st; norm. rewrite Hnone. exact I.
  - unfold showNavigation.
    destruct (Z.ltb_spec 0 (total Papa st)) as [Hlt|Hge]; cbn [andb]; [|exact Hstay].
    destruct (isEditingIndex st); [|exact Hstay].
    unfold commitIndex.
    destruct (JS.parseInt (inputIndex st)) as [|neg|k] eqn:Hnum.
    + apply Hkeep; [destruct st; repeat split|]. destruct st; norm. rewrite Hnone. exact I.
    + apply Hkeep; [destruct st; repeat split|]. destruct st; norm. rewrite Hnone. exact I.
    + apply Hkeep; [destruct st; repeat split|]. destruct st; norm. unfold clamp. lia.
  - destruct (showNavigation Papa st && isEditingIndex st); [|exact Hstay].
    apply Hkeep; [destruct st; repeat split|].
    destruct st; norm. rewrite Hnone. exact I.
Qed.

Lemma card_reachable_ranged (w : Browser) (events : list Event) :
  ranged Papa (run Papa (mount Papa w) events).
Proof.
  pose proof (card_ranged_mount w) as H.
  revert H. generalize (mount Papa w). induction events as [|e events IH]; intros st H.
  - exact H.
  - change (run Papa st (e :: events)) with (run Papa (step Papa st e) events).
    apply IH. apply (card_ranged_step st e H).
Qed.

(** With no row and the request answered, no event changes anything. *)
Lemma card_idle_when_empty (st : State) (e : Event) :
  ranged Papa st -> total Papa st = 0 -> fetching st = false -> step Papa st e = st.
Proof.
  intros Hran Ht Hf.
  assert (Hidle : render Papa 2 st = st) by apply card_render_settled, Hran.
  assert (Hnav : showNavigation Papa st = false)
    by (unfold showNavigation; rewrite Ht; reflexivity).
  unfold step. destruct e; cbn [handler]; rewrite ?Hnav; cbn [andb]; try exact Hidle.
  - unfold on_fetch. rewrite Hf. exact Hidle.
  - unfold goPrevious, previous_disabled. rewrite Hnav. exact Hidle.
  - unfold goNext, next_disabled. rewrite Hnav. exact Hidle.
Qed.

Lemma card_idle_run (events : list Event) (st : State) :
  ranged Papa st -> total Papa st = 0 -> fetching st = false ->
  run Papa st events = st.
Proof.
  intros Hran Ht Hf. induction events as [|e events IH]; [reflexivity|].
  change (run Papa st (e :: events)) with (run Papa (step Papa st e) events).
  rewrite (card_idle_when_empty st e Hran Ht Hf). exact IH.
Qed.

(** *** What a state with its index in the list shows *)

Lemma card_ranged_business (st : State) :
  ranged Papa st ->
  (0 < total Papa st -> is_Some (currentBusiness Papa st)) /\
  (total Papa st = 0 -> currentBusiness Papa st = None).
Proof.
  intros (_ & _ & _ & _ & Hz & Hr). unfold currentBusiness. split.
  - intros Hpos. apply at_index_is_Some. unfold total in *. specialize (Hr Hpos). lia.
  - intros Ht. apply at_index_nil. exact Ht.
Qed.

Lemma card_ranged_run (events : list Event) (st : State) :
  ranged Papa st ->
  ranged Papa (run Papa st events) /\
  (fetching st = false ->
   fetching (run Papa st events) = false /\
   csvText (run Papa st events) = csvText st).
Proof.
  revert st. induction events as [|e events IH]; intros st Hran.
  - split; [exact Hran|]. intros Hf. split; [exact Hf|reflexivity].
  - change (run Papa st (e :: events)) with (run Papa (step Papa st e) events).
    destruct (card_ranged_step st e Hran) as [H1 H2].
    destruct (IH _ H1) as [H3 H4]. split; [exact H3|].
    intros Hf. destruct (H4 (H2 Hf)) as [H5 H6]. split; [exact H5|].
    rewrite H6. unfold step. rewrite card_render_keeps_text.
    apply card_handler_keeps_text, Hf.
Qed.

(** *** Pressing a button again and again *)

Lemma card_repeat_next (k : nat) (st : State) :
  ranged Papa st -> 0 < total Papa st ->
  let st' := run Papa st (replicate k ClickNext) in
  currentIndex st' = Z.min (total Papa st - 1) (currentIndex st + Z.of_nat k) /\
  total Papa st' = total Papa st.
Proof.
  revert st. induction k as [|k IH]; intros st Hran Hpos; cbv zeta.
  - cbn [replicate]. change (run Papa st []) with st.
    pose proof Hran as (_ & _ & _ & _ & _ & Hr). specialize (Hr Hpos).
    split; [lia|reflexivity].
  - cbn [replicate].
    change (run Papa st (ClickNext :: replicate k ClickNext))
      with (run Papa (step Papa st ClickNext) (replicate k ClickNext)).
    pose proof Hran as (Hset & _ & _ & _ & _ & Hr). specialize (Hr Hpos).
    destruct (card_navigation st Hset Hpos Hr) as (_ & H2 & _ & H4 & _).
    cbv zeta in H2, H4.
    destruct (card_ranged_step st ClickNext Hran) as [Hran' _].
    destruct (IH _ Hran') as [H5 H6]; [rewrite H4; exact Hpos|].
    cbv zeta in H5, H6. rewrite H5, H6, H4, H2. split; [lia|reflexivity].
Qed.

Lemma card_repeat_previous (k : nat) (st : State) :
  ranged Papa st -> 0 < total Papa st ->
  let st' := run Papa st (replicate k ClickPrevious) in
  currentIndex st' = Z.max 0 (currentIndex st - Z.of_nat k) /\
  total Papa st' = total Papa st.
Proof.
  revert st. induction k as [|k IH]; intros st Hran Hpos; cbv zeta.
  - cbn [replicate]. change (run Papa st []) with st.
    pose proof Hran as (_ & _ & _ & _ & _ & Hr). specialize (Hr Hpos).
    split; [lia|reflexivity].
  - cbn [replicate].
    change (run Papa st (ClickPrevious :: replicate k ClickPrevious))
      with (run Papa (step Papa st ClickPrevious) (replicate k ClickPrevious)).
    pose proof Hran as (Hset & _ & _ & _ & _ & Hr). specialize (Hr Hpos).
    destruct (card_navigation st Hset Hpos Hr) as (H1 & _ & H3 & _).
    cbv zeta in H1, H3.
    destruct (card_ranged_step st ClickPrevious Hran) as [Hran' _].
    destruct (IH _ Hran') as [H5 H6]; [rewrite H3; exact Hpos|].
    cbv zeta in H5, H6. rewrite H5, H6, H3, H1. split; [lia|reflexivity].
Qed.

(** The answer to the request of a page that was just loaded. *)
Lemma card_first_answer (w : Browser) (body : option string) :
  let st' := step Papa (mount Papa w) (FetchDone body) in
  let t := rows_total Papa (accepted_text body) in
  ranged Papa st' /\ fetching st' = false /\
  csvText st' = accepted_text body /\
  total Papa st' = t /\
  currentIndex st' = stored_index t w /\
  hasInitializedRef st' = (0 <? t) /\
  (t = 0 -> browser st' = fresh w).
Proof.
  cbv zeta. rewrite card_step_fetch.
  pose proof (card_ranged_mount w) as Hran.
  assert (Hm : fetching (mount Papa w) = true /\ browser (mount Papa w) = fresh w)
    by (rewrite (card_mount_eq w); repeat split).
  destruct Hm as (Hf & Hw).
  revert Hran Hf Hw. generalize (mount Papa w). intros m Hran Hf Hw.
  pose proof (card_arrival 1 m body Hran Hf) as H. cbv zeta in H.
  rewrite Hw in H. rewrite card_stored_index_fresh in H.
  destruct H as (H1 & H2 & H3 & H4 & H5 & H6 & H7 & _).
  exact (conj H1 (conj H2 (conj H3 (conj H4 (conj H5 (conj H6 H7)))))).
Qed.

(** *** Events that change nothing *)

Lemma card_idle_navigation (st : State) :
  ranged Papa st -> total Papa st = 0 ->
  step Papa st ClickPrevious = st /\ step Papa st ClickNext = st.
Proof.
  intros Hran Ht.
  assert (Hidle : render Papa 2 st = st) by apply card_render_settled, Hran.
  assert (Hnav : showNavigation Papa st = false)
    by (unfold showNavigation; rewrite Ht; reflexivity).
  unfold step. cbn [handler]. unfold goPrevious, goNext, previous_disabled, next_disabled.
  rewrite Hnav. split; exact Hidle.
Qed.

Lemma card_late_answer (st : State) (body : option string) :
  settled Papa st -> fetching st = false -> step Papa st (FetchDone body) = st.
Proof.
  intros Hset Hf. unfold step. cbn [handler]. unfold on_fetch. rewrite Hf.
  apply card_render_settled, Hset.
Qed.

Lemma card_step_keeps_text (st : State) (e : Event) :
  fetching st = false -> csvText (step Papa st e) = csvText st.
Proof.
  intros Hf. unfold step. rewrite card_render_keeps_text.
  apply card_handler_keeps_text, Hf.
Qed.

Lemma card_ranged_not_fetching (st : State) :
  ranged Papa st -> 0 < total Papa st -> fetching st = false.
Proof.
  intros (_ & _ & Hfe & Hun & _) Hpos.
  destruct (fetching st); [|reflexivity].
  destruct Hfe as [_ Hhr]; [reflexivity|]. rewrite Hun in Hpos by exact Hhr. lia.
Qed.

End Hydration.

End Facts.
End CardFacts.

(** ** The industries of the selector *)

Lemma Set_add_elem (s : list string) (x y : string) :
  y ∈ AppFilter.Set_add s x <-> y ∈ s \/ y = x.
Proof.
  unfold AppFilter.Set_add. case_bool_decide as Hx.
  - split; [auto|]. intros [H| ->]; assumption.
  - rewrite elem_of_app, list_elem_of_singleton. reflexivity.
Qed.

Lemma Set_add_NoDup (s : list string) (x : string) :
  NoDup s -> NoDup (AppFilter.Set_add s x).
Proof.
  intros Hs. unfold AppFilter.Set_add. case_bool_decide as Hx; [exact Hs|].
  apply NoDup_app. split; [exact Hs|]. split.
  - intros y Hy ->%list_elem_of_singleton. contradiction.
  - apply NoDup_singleton.
Qed.

Lemma uniqueIndustries_fold (bs : list Business) (acc : list string) :
  let step := fun acc b =>
    if JS.truthy (industry b) && JS.truthy (JS.trim (industry b))
    then AppFilter.Set_add acc (industry b) else acc in
  (NoDup acc -> NoDup (fold_left step bs acc)) /\
  (forall x, x ∈ fold_left step bs acc <->
             x ∈ acc \/
             exists b, b ∈ bs /\ industry b = x /\ JS.trim x <> EmptyString).
Proof.
  cbv zeta. revert acc. induction bs as [|b bs IH]; intros acc.
  - split; [auto|]. intros x. split; [auto|].
    intros [H|(b & Hb & _)]; [exact H|]. apply elem_of_nil in Hb. contradiction.
  - cbn [fold_left].
    destruct (JS.truthy (industry b) && JS.truthy (JS.trim (industry b))) eqn:Hb.
    + apply andb_prop in Hb as [_ Ht]. apply truthy_nonempty in Ht.
      destruct (IH (AppFilter.Set_add acc (industry b))) as [IH1 IH2].
      split; [intros Hacc; apply IH1, Set_add_NoDup, Hacc|].
      intros x. rewrite IH2, Set_add_elem. split.
      * intros [[H| ->]|(b' & Hb' & Hx & Hn)]; [auto| |].
        -- right. exists b. split; [apply list_elem_of_here|]. auto.
        -- right. exists b'. split; [apply list_elem_of_further, Hb'|]. auto.
      * intros [H|(b' & Hb' & Hx & Hn)]; [auto|].
        apply elem_of_cons in Hb' as [->|Hb']; [auto|].
        right. exists b'. auto.
    + destruct (IH acc) as [IH1 IH2]. split; [exact IH1|].
      intros x. rewrite IH2. split.
      * intros [H|(b' & Hb' & Hx & Hn)]; [auto|].
        right. exists b'. split; [apply list_elem_of_further, Hb'|]. auto.
      * intros [H|(b' & Hb' & Hx & Hn)]; [auto|].
        apply elem_of_cons in Hb' as [->|Hb']; [|right; exists b'; auto].
        exfalso. subst x. apply andb_false_iff in Hb as [Hb|Hb].
        -- apply Hn. destruct (industry b); [reflexivity|discriminate Hb].
        -- apply truthy_nonempty in Hn. congruence.
Qed.

Lemma industries_of_elem (bs : list Business) (x : string) :
  x ∈ AppFilter.industries_of bs <->
  exists b, b ∈ bs /\ industry b = x /\ JS.trim x <> EmptyString.
Proof.
  unfold AppFilter.industries_of. rewrite merge_sort_Permutation.
  unfold AppFilter.uniqueIndustries.
  rewrite (proj2 (uniqueIndustries_fold bs []) x). split.
  - intros [H|H]; [apply elem_of_nil in H; contradiction|exact H].
  - auto.
Qed.

Lemma industries_of_NoDup (bs : list Business) : NoDup (AppFilter.industries_of bs).
Proof.
  unfold AppFilter.industries_of. rewrite merge_sort_Permutation.
  apply (proj1 (uniqueIndustries_fold bs [])). apply NoDup_nil_2.
Qed.

Lemma trim_nonempty (x : string) : JS.trim x <> EmptyString -> x <> EmptyString.
Proof. intros H ->. apply H. reflexivity. Qed.

Lemma StronglySorted_strict {A} (R : relation A) (l : list A) :
  StronglySorted R l -> NoDup l -> StronglySorted (fun a b => R a b /\ a <> b) l.
Proof.
  induction 1 as [|a l Hs IH Hall]; intros Hnd; [constructor|].
  apply NoDup_cons in Hnd as [Hna Hnd]. constructor; [apply IH, Hnd|].
  rewrite Forall_forall in *. intros b Hb. split; [apply Hall, Hb|].
  intros ->. apply Hna, Hb.
Qed.

Lemma industries_of_sorted (bs : list Business) :
  StronglySorted (fun a b => String.le a b /\ a <> b) (AppFilter.industries_of bs).
Proof.
  apply StronglySorted_strict; [|apply industries_of_NoDup].
  apply StronglySorted_merge_sort; apply _.
Qed.

(** Every option of the selector has a row. *)
Lemma offered_has_rows (bs : list Business) (value : string) :
  bs <> [] -> value ∈ EmptyString :: AppFilter.industries_of bs ->
  AppFilter.filterBusinesses bs value <> [].
Proof.
  intros Hbs Hin. apply elem_of_cons in Hin as [->|Hin]; [exact Hbs|].
  apply industries_of_elem in Hin as (b & Hb & Hind & Htrim).
  assert (Hne : value <> EmptyString) by (intros ->; apply Htrim; reflexivity).
  rewrite (filterBusinesses_selected bs value Hne).
  intros Hnil. assert (Hf : b ∈ filter (fun b => industry b = value) bs)
    by (apply list_elem_of_filter; split; assumption).
  rewrite Hnil in Hf. apply not_elem_of_nil in Hf. exact Hf.
Qed.

Lemma filtered_have_industry (bs : list Business) (value : string) (b : Business) :
  value <> EmptyString -> b ∈ AppFilter.filterBusinesses bs value -> industry b = value.
Proof.
  intros Hne. rewrite (filterBusinesses_selected bs value Hne).
  intros [H _]%list_elem_of_filter. exact H.
Qed.

(** ** The table of rows *)

Lemma CsvTable_lines (rows : list Business) (maxRows : option JS.number) :
  CsvTable.lines (CsvTable.CsvTable rows maxRows)
  = imap CsvTable.tr (CsvTable.slice_to rows (default (JS.Finite 100) maxRows)).
Proof.
  unfold CsvTable.lines, CsvTable.CsvTable. cbn [CsvTable.tbody].
  destruct (CsvTable.slice_to rows (default (JS.Finite 100) maxRows)); reflexivity.
Qed.

Lemma or_dash_filled (field : string) :
  CsvTable.cell_filled (CsvTable.or_dash field) = true.
Proof. destruct field; reflexivity. Qed.

Lemma tr_cells_filled (idx : nat) (row : Business) (c : CsvTable.Cell) :
  c ∈ CsvTable.cells (CsvTable.tr idx row) -> CsvTable.cell_filled c = true.
Proof.
  unfold CsvTable.tr. cbn [CsvTable.cells]. intros Hc.
  repeat (apply elem_of_cons in Hc as [->|Hc]; [try apply or_dash_filled|]).
  - destruct (site_url row); reflexivity.
  - apply not_elem_of_nil in Hc. destruct Hc.
Qed.

(** ** The first revision: the storage follows the position *)

Module EmbeddedFacts.
Import AppEmbedded EmbeddedSpec.
Section Facts.
Context {E : Type}.
Variable Papa : string -> ParseResult E.

Lemma embedded_persist_kept (w : Browser) (st : State) :
  storage_ok (browser st) = storage_ok w ->
  url_industry (browser st) = url_industry w ->
  (forall k, k <> STORAGE_KEY -> storage (browser st) !! k = storage w !! k) ->
  (storage_ok w = false -> storage (browser st) = storage w /\ journal (browser st) = []) ->
  (0 < total Papa -> 0 <= currentIndex st <= total Papa - 1) ->
  (total Papa = 0 -> currentIndex st = 0) ->
  kept Papa w (persist_effect st).
Proof.
  intros Hok Hurl Hkeys Hoff Hr Hz. unfold kept, persist_effect.
  unfold browser_after, try_catch, setItem, ret. cbn [browser currentIndex].
  destruct (storage_ok (browser st)) eqn:Hb; cbn [snd storage_ok storage url_industry journal].
  - rewrite <- Hok.
    split; [reflexivity|]. split; [exact Hurl|].
    split; [intros k Hk; rewrite lookup_insert_ne by congruence; apply Hkeys, Hk|].
    split; [intros _; apply lookup_insert_eq|].
    split; [discriminate|]. split; assumption.
  - rewrite <- Hok. rewrite <- Hok in Hoff.
    split; [exact Hb|]. split; [exact Hurl|]. split; [exact Hkeys|].
    split; [discriminate|]. split; [intros _; apply Hoff; reflexivity|].
    split; assumption.
Qed.

Lemma embedded_mount_kept (w : Browser) : kept Papa w (mount Papa w).
Proof.
  unfold mount. apply embedded_persist_kept; cbn [browser currentIndex storage_ok
    storage url_industry journal]; try reflexivity.
  - intros _. split; reflexivity.
  - intros Hpos. apply stored_index_in_range, Hpos.
  - intros ->. reflexivity.
Qed.

Lemma embedded_step_kept (w : Browser) (st : State) (e : Event) :
  kept Papa w st -> kept Papa w (step Papa st e).
Proof.
  intros Hk. pose proof Hk as (Hok & Hurl & Hkeys & Hon & Hoff & Hr & Hz).
  assert (Hset : forall update,
            0 < total Papa ->
            (0 <= update (currentIndex st) <= total Papa - 1) ->
            kept Papa w (setCurrentIndex update st)).
  { intros update Hpos Hu. unfold setCurrentIndex. cbv zeta.
    destruct (update (currentIndex st) =? currentIndex st); [exact Hk|].
    apply embedded_persist_kept; cbn [browser currentIndex]; try assumption.
    - intros _. exact Hu.
    - intros Ht. lia. }
  destruct e; cbn [step]; unfold previous_disabled, next_disabled, showNavigation.
  - destruct (Z.ltb_spec 0 (total Papa)) as [Hpos|Hle]; cbn [negb orb]; [|exact Hk].
    destruct (currentIndex st =? 0); [exact Hk|].
    apply Hset; [exact Hpos|]. specialize (Hr Hpos). unfold clamp. lia.
  - destruct (Z.ltb_spec 0 (total Papa)) as [Hpos|Hle]; cbn [negb orb]; [|exact Hk].
    destruct (total Papa - 1 <=? currentIndex st); [exact Hk|].
    apply Hset; [exact Hpos|]. specialize (Hr Hpos). unfold clamp. lia.
Qed.

Lemma embedded_run_kept (w : Browser) (events : list Event) :
  kept Papa w (run Papa (mount Papa w) events).
Proof.
  pose proof (embedded_mount_kept w) as H. revert H. generalize (mount Papa w).
  induction events as [|e events IH]; intros st H; [exact H|].
  change (run Papa st (e :: events)) with (run Papa (step Papa st e) events).
  apply IH, embedded_step_kept, H.
Qed.

Lemma embedded_reload (w : Browser) (st : State) :
  kept Papa w st -> storage_ok w = true -> total Papa <= MAX_ARRAY_LENGTH ->
  currentIndex (mount Papa (browser st)) = currentIndex st.
Proof.
  intros (Hok & _ & _ & Hon & _ & Hr & Hz) Hw HL.
  unfold mount, persist_effect. cbn [currentIndex].
  destruct (Z.eq_dec (total Papa) 0) as [Ht|Ht].
  - rewrite Ht, Hz by exact Ht. reflexivity.
  - assert (Hpos : 0 < total Papa) by (unfold total in *; lia).
    apply stored_index_written; cbn [storage_ok storage];
      [congruence|apply Hon, Hw|apply Hr, Hpos|exact HL].
Qed.

Lemma embedded_mount_writes (w : Browser) :
  storage_ok w = true ->
  journal (browser (mount Papa w))
  = [SetItem STORAGE_KEY (JS.String_of (currentIndex (mount Papa w)))].
Proof.
  intros Hok. unfold mount, persist_effect, browser_after, try_catch, setItem, ret.
  cbn [browser currentIndex storage_ok]. rewrite Hok. reflexivity.
Qed.

End Facts.
End EmbeddedFacts.

(** ** The filter revision with no filter and the card revision *)

Lemma same_view_total {E} (Papa : string -> ParseResult E)
    (sf : AppFilter.State) (sc : AppCard.State) :
  same_view Papa sf sc -> AppFilter.total Papa sf = AppCard.total Papa sc.
Proof.
  intros (_ & _ & Hsel & Hcsv & _).
  unfold AppFilter.total, AppCard.total, AppFilter.filteredBusinesses,
    AppFilter.businesses, AppCard.businesses.
  rewrite Hsel, Hcsv. reflexivity.
Qed.

Lemma same_view_mount {E} (Papa : string -> ParseResult E) (w : Browser) :
  data (Papa EmptyString) = [] -> FilterSpec.first_industry w = EmptyString ->
  same_view Papa (AppFilter.mount Papa w) (AppCard.mount Papa w).
Proof.
  intros Hempty Hfirst. unfold same_view.
  split; [apply (FilterFacts.ranged_mount Papa Hempty)|].
  split; [apply (CardFacts.card_ranged_mount Papa Hempty)|].
  rewrite (FilterFacts.mount_eq Papa Hempty w), (CardFacts.card_mount_eq Papa Hempty w).
  cbn. repeat split; try reflexivity. exact Hfirst.
Qed.

Lemma same_view_step {E} (Papa : string -> ParseResult E)
    (sf : AppFilter.State) (sc : AppCard.State) (m : Move) :
  same_view Papa sf sc ->
  same_view Papa (AppFilter.step Papa sf (filter_event m))
    (AppCard.step Papa sc (card_event m)).
Proof.
  intros Hsim. pose proof (same_view_total Papa sf sc Hsim) as Ht.
  destruct Hsim as (Hrf & Hrc & Hsel & Hcsv & Hi & Hf & Hw).
  destruct (FilterFacts.ranged_step Papa sf (filter_event m) Hrf) as [Hrf' Hff'].
  destruct (CardFacts.card_ranged_step Papa sc (card_event m) Hrc) as [Hrc' Hfc'].
  assert (Hsel' : AppFilter.selectedIndustry (AppFilter.step Papa sf (filter_event m))
                  = EmptyString).
  { rewrite FilterFacts.step_keeps_industry; [exact Hsel|]. destruct m; discriminate. }
  assert (Hstay : AppFilter.step Papa sf (filter_event m) = sf ->
                  AppCard.step Papa sc (card_event m) = sc ->
                  same_view Papa (AppFilter.step Papa sf (filter_event m))
                    (AppCard.step Papa sc (card_event m))).
  { intros -> ->. exact (conj Hrf (conj Hrc (conj Hsel (conj Hcsv (conj Hi (conj Hf Hw)))))). }
  assert (Hmove : 0 < AppFilter.total Papa sf ->
                  AppFilter.currentIndex (AppFilter.step Papa sf (filter_event m))
                  = AppCard.currentIndex (AppCard.step Papa sc (card_event m)) ->
                  same_view Papa (AppFilter.step Papa sf (filter_event m))
                    (AppCard.step Papa sc (card_event m))).
  { intros Hpos Hi'.
    pose proof (FilterFacts.ranged_not_fetching Papa sf Hrf Hpos) as Hnf.
    assert (Hnc : AppCard.fetching sc = false) by congruence.
    split; [exact Hrf'|]. split; [exact Hrc'|]. split; [exact Hsel'|].
    split; [rewrite FilterFacts.step_keeps_text, CardFacts.card_step_keeps_text;
            assumption|].
    split; [exact Hi'|].
    rewrite (Hff' Hnf), (Hfc' Hnc). split; [reflexivity|discriminate]. }
  destruct m as [body| |]; cbn [filter_event card_event] in *.
  - destruct (AppFilter.fetching sf) eqn:Hfetch.
    + assert (Hfc : AppCard.fetching sc = true) by congruence.
      pose proof (FilterFacts.arrival Papa 1 sf body Hrf Hfetch) as HF.
      pose proof (CardFacts.card_arrival Papa 1 sc body Hrc Hfc) as HC.
      cbv zeta in HF, HC.
      rewrite <- FilterFacts.step_fetch in HF. rewrite <- CardFacts.card_step_fetch in HC.
      destruct HF as (_ & F2 & F3 & _ & _ & F6 & _).
      destruct HC as (_ & C2 & C3 & _ & C5 & _).
      split; [exact Hrf'|]. split; [exact Hrc'|]. split; [exact Hsel'|].
      split; [congruence|]. split.
      * rewrite F6, C5, Hsel, (Hw eq_refl). reflexivity.
      * rewrite F2, C2. split; [reflexivity|discriminate].
    + apply Hstay.
      * apply FilterFacts.late_answer; [apply Hrf|exact Hfetch].
      * apply CardFacts.card_late_answer; [apply Hrc|congruence].
  - destruct (Z.eq_dec (AppFilter.total Papa sf) 0) as [Hz|Hnz].
    + apply Hstay.
      * apply (FilterFacts.idle_navigation Papa sf Hrf Hz).
      * apply (CardFacts.card_idle_navigation Papa sc Hrc). congruence.
    + assert (Hpos : 0 < AppFilter.total Papa sf) by (unfold AppFilter.total in *; lia).
      apply Hmove; [exact Hpos|].
      pose proof Hrf as (Hsf & _ & _ & _ & _ & Hr). specialize (Hr Hpos).
      destruct (FilterFacts.filter_navigation Papa sf Hsf Hpos Hr) as (F1 & _).
      destruct (CardFacts.card_navigation Papa sc) as (C1 & _);
        [apply Hrc|rewrite <- Ht; exact Hpos|rewrite <- Ht, <- Hi; exact Hr|].
      cbv zeta in F1, C1. rewrite F1, C1, Hi. reflexivity.
  - destruct (Z.eq_dec (AppFilter.total Papa sf) 0) as [Hz|Hnz].
    + apply Hstay.
      * apply (FilterFacts.idle_navigation Papa sf Hrf Hz).
      * apply (CardFacts.card_idle_navigation Papa sc Hrc). congruence.
    + assert (Hpos : 0 < AppFilter.total Papa sf) by (unfold AppFilter.total in *; lia).
      apply Hmove; [exact Hpos|].
      pose proof Hrf as (Hsf & _ & _ & _ & _ & Hr). specialize (Hr Hpos).
      destruct (FilterFacts.filter_navigation Papa sf Hsf Hpos Hr) as (_ & F2 & _).
      destruct (CardFacts.card_navigation Papa sc) as (_ & C2 & _);
        [apply Hrc|rewrite <- Ht; exact Hpos|rewrite <- Ht, <- Hi; exact Hr|].
      cbv zeta in F2, C2. rewrite F2, C2, Hi, Ht. reflexivity.
Qed.

Lemma same_view_run {E} (Papa : string -> ParseResult E) (moves : list Move)
    (sf : AppFilter.State) (sc : AppCard.State) :
  same_view Papa sf sc ->
  same_view Papa (AppFilter.run Papa sf (filter_event <$> moves))
    (AppCard.run Papa sc (card_event <$> moves)).
Proof.
  revert sf sc. induction moves as [|m moves IH]; intros sf sc Hsim; [exact Hsim|].
  cbn [fmap list_fmap]. rewrite FilterFacts.run_cons, CardFacts.card_run_cons.
  apply IH, same_view_step, Hsim.
Qed.

(** * The claims *)

Lemma demo_parse_empty : data (demo_parse EmptyString) = [].
Proof. reflexivity. Qed.

Lemma demo_parse_array (text : string) :
  Z.of_nat (length (data (demo_parse text))) <= MAX_ARRAY_LENGTH.
Proof.
  unfold demo_parse.
  destruct (String.eqb text "csv"); [|destruct (String.eqb text "four")];
    vm_compute; discriminate.
Qed.

(** C1: in every run of either revision, each write to storage or to the
    URL comes after the hydration, which happens at most once; as long as
    the component is not hydrated the storage and the URL are those the
    page was loaded with. *)
Theorem no_write_before_hydration {E} (Papa : string -> ParseResult E) (w : Browser) :
  (forall events,
     let st := AppFilter.run Papa (AppFilter.mount Papa w) events in
     let j := journal (AppFilter.browser st) in
     writes_follow_hydration j /\ (hydrations j <= 1)%nat /\
     (AppFilter.hasInitializedRef st = false ->
      storage (AppFilter.browser st) = storage w /\
      url_industry (AppFilter.browser st) = url_industry w)) /\
  (forall events,
     let st := AppCard.run Papa (AppCard.mount Papa w) events in
     let j := journal (AppCard.browser st) in
     writes_follow_hydration j /\ (hydrations j <= 1)%nat /\
     (AppCard.hasInitializedRef st = false ->
      storage (AppCard.browser st) = storage w /\
      url_industry (AppCard.browser st) = url_industry w)).
Proof.
  split; intros events; cbv zeta.
  - destruct (FilterFacts.filter_no_write_before_hydration Papa w events)
      as (H1 & _ & H3 & H4).
    split; [exact H1|]. split; [|exact H3].
    rewrite H4. destruct (AppFilter.initializedRef _); lia.
  - destruct (CardFacts.card_no_write_before_hydration Papa w events)
      as (H1 & _ & H3 & H4).
    split; [exact H1|]. split; [|exact H3].
    rewrite H4. destruct (AppCard.initializedRef _); lia.
Qed.

Lemma no_write_before_hydration_witness :
  (storage (AppFilter.browser (AppFilter.run demo_parse
                                 (AppFilter.mount demo_parse demo_browser) []))
   = storage demo_browser) /\
  (storage (AppCard.browser (AppCard.run demo_parse
                               (AppCard.mount demo_parse demo_browser) []))
   = storage demo_browser) /\
  Hydrated ∈ [Hydrated].
Proof.
  destruct (no_write_before_hydration demo_parse demo_browser) as [HF HC].
  split; [|split].
  - pose proof (HF []) as H. cbv zeta in H. destruct H as (_ & _ & H).
    apply H. vm_compute. reflexivity.
  - pose proof (HC []) as H. cbv zeta in H. destruct H as (_ & _ & H).
    apply H. vm_compute. reflexivity.
  - pose proof (HC [AppCard.FetchDone (Some "four")]) as H. cbv zeta in H.
    destruct H as (H & _).
    apply (H [Hydrated] (SetItem STORAGE_KEY "2") []); vm_compute; reflexivity.
Defined.

(** C2: a reload that receives the same data comes back to the position
    (and, in the filter revision, the filter) the component was at, after
    any sequence of user actions; an action that moves the position stores
    the new one, and a stored position of the list is read back as it is.
    In both revisions a page loaded with position [k] of the list in
    storage shows row [k] once the rows have arrived, and is hydrated.
    With four rows, no filter and ["2"] stored, the third row is shown,
    in the filter revision and in the card revision. *)
Theorem reload_restores_position {E} (Papa : string -> ParseResult E)
    (w : Browser) (body : option string) :
  data (Papa EmptyString) = [] ->
  (forall text, Z.of_nat (length (data (Papa text))) <= MAX_ARRAY_LENGTH) ->
  storage_ok w = true ->
  (forall events,
     let st := AppFilter.run Papa (AppFilter.mount Papa w)
                 (AppFilter.FetchDone body :: events) in
     let st' := AppFilter.run Papa (AppFilter.mount Papa (AppFilter.browser st))
                  [AppFilter.FetchDone body] in
     AppFilter.currentIndex st' = AppFilter.currentIndex st /\
     AppFilter.selectedIndustry st' = AppFilter.selectedIndustry st /\
     AppFilter.currentBusiness Papa st' = AppFilter.currentBusiness Papa st) /\
  (forall events e,
     let st := AppFilter.run Papa (AppFilter.mount Papa w) events in
     let st2 := AppFilter.step Papa st e in
     AppFilter.currentIndex st2 <> AppFilter.currentIndex st ->
     storage (AppFilter.browser st2) !! STORAGE_KEY
     = Some (JS.String_of (AppFilter.currentIndex st2))) /\
  (forall events,
     let st := AppCard.run Papa (AppCard.mount Papa w)
                 (AppCard.FetchDone body :: events) in
     let st' := AppCard.run Papa (AppCard.mount Papa (AppCard.browser st))
                  [AppCard.FetchDone body] in
     AppCard.currentIndex st' = AppCard.currentIndex st /\
     AppCard.currentBusiness Papa st' = AppCard.currentBusiness Papa st) /\
  (forall events e,
     let st := AppCard.run Papa (AppCard.mount Papa w) events in
     let st2 := AppCard.step Papa st e in
     AppCard.currentIndex st2 <> AppCard.currentIndex st ->
     storage (AppCard.browser st2) !! STORAGE_KEY
     = Some (JS.String_of (AppCard.currentIndex st2))) /\
  (forall L k w',
     storage_ok w' = true -> storage w' !! STORAGE_KEY = Some (JS.String_of k) ->
     0 <= k <= L - 1 -> L <= MAX_ARRAY_LENGTH ->
     getStoredIndex L w' = (Normal k, w')) /\
  (let st := AppFilter.run demo_parse
               (AppFilter.mount demo_parse (browser_with (Some "2") None None))
               [AppFilter.FetchDone (Some "four")] in
   AppFilter.total demo_parse st = 4 /\
   AppFilter.selectedIndustry st = EmptyString /\
   AppFilter.currentIndex st = 2 /\
   AppFilter.currentBusiness demo_parse st
   = Some (normalize (row "" "" "Law Firm" "" "" "555-CALL-NOW"))) /\
  (forall k,
     let st := AppCard.step Papa (AppCard.mount Papa w) (AppCard.FetchDone body) in
     let L := AppCard.total Papa st in
     storage w !! STORAGE_KEY = Some (JS.String_of k) -> 0 <= k <= L - 1 ->
     AppCard.currentIndex st = k /\
     AppCard.currentBusiness Papa st
     = fst (parseBusinesses Papa (accepted_text body)) !! Z.to_nat k /\
     is_Some (AppCard.currentBusiness Papa st) /\
     AppCard.hasInitializedRef st = true) /\
  (forall k,
     let st := AppFilter.step Papa (AppFilter.mount Papa w) (AppFilter.FetchDone body) in
     let L := AppFilter.total Papa st in
     storage w !! STORAGE_KEY = Some (JS.String_of k) -> 0 <= k <= L - 1 ->
     AppFilter.currentIndex st = k /\
     AppFilter.currentBusiness Papa st
     = AppFilter.filterBusinesses (fst (parseBusinesses Papa (accepted_text body)))
         (FilterSpec.first_industry w) !! Z.to_nat k /\
     is_Some (AppFilter.currentBusiness Papa st) /\
     AppFilter.hasInitializedRef st = true) /\
  (let st := AppCard.run demo_parse
               (AppCard.mount demo_parse (browser_with (Some "2") None None))
               [AppCard.FetchDone (Some "four")] in
   AppCard.total demo_parse st = 4 /\
   AppCard.currentIndex st = 2 /\
   AppCard.currentBusiness demo_parse st
   = Some (normalize (row "" "" "Law Firm" "" "" "555-CALL-NOW"))).
Proof.
  intros Hempty Harray Hok.
  split; [|split; [|split; [|split; [|split; [|split; [|split; [|split]]]]]]].
  - intros events. cbv zeta.
    destruct (FilterFacts.reload_restores Papa Hempty Harray w body events Hok)
      as (H1 & H2 & _ & H4).
    auto.
  - intros events e. apply (FilterFacts.reachable_stores_move Papa Hempty Harray w events e Hok).
  - intros events. cbv zeta.
    destruct (CardFacts.card_reload_restores Papa Hempty Harray w body events Hok)
      as (H1 & _ & H3).
    auto.
  - intros events e.
    apply (CardFacts.card_reachable_stores_move Papa Hempty Harray w events e Hok).
  - intros L k w' Hok' Hs Hk HL. rewrite getStoredIndex_returns.
    f_equal. f_equal. apply stored_index_written; assumption.
  - vm_compute. repeat split; reflexivity.
  - intros k. cbv zeta.
    pose proof (CardFacts.card_first_answer Papa Hempty w body) as H. cbv zeta in H.
    revert H. generalize (AppCard.step Papa (AppCard.mount Papa w) (AppCard.FetchDone body)).
    intros st (Hran & _ & Hcsv & Ht & Hi & Hhr & _) Hs Hk.
    pose proof (CardFacts.card_rows_total_bounds Papa Harray (accepted_text body)) as HL.
    rewrite Ht in Hk.
    assert (Hidx : AppCard.currentIndex st = k)
      by (rewrite Hi; apply stored_index_written; [exact Hok|exact Hs|exact Hk|lia]).
    assert (Hpos : 0 < AppCard.total Papa st) by lia.
    split; [exact Hidx|]. split; [|split].
    + unfold AppCard.currentBusiness, AppCard.businesses. rewrite Hidx, Hcsv.
      apply at_index_lookup. lia.
    + apply (CardFacts.card_ranged_business Papa st Hran), Hpos.
    + rewrite Hhr. apply Z.ltb_lt. lia.
  - intros k. cbv zeta.
    pose proof (FilterFacts.first_answer Papa Hempty w body) as H. cbv zeta in H.
    revert H.
    generalize (AppFilter.step Papa (AppFilter.mount Papa w) (AppFilter.FetchDone body)).
    intros st (Hran & _ & Hcsv & Hsel & Ht & Hi & Hhr & _) Hs Hk.
    pose proof (FilterFacts.active_total_bounds Papa Harray (accepted_text body)
                  (FilterSpec.first_industry w)) as HL.
    rewrite Ht in Hk.
    assert (Hidx : AppFilter.currentIndex st = k)
      by (rewrite Hi; apply stored_index_written; [exact Hok|exact Hs|exact Hk|lia]).
    assert (Hpos : 0 < AppFilter.total Papa st) by lia.
    split; [exact Hidx|]. split; [|split].
    + unfold AppFilter.currentBusiness, AppFilter.filteredBusinesses, AppFilter.businesses.
      rewrite Hidx, Hcsv, Hsel. apply at_index_lookup. lia.
    + apply (FilterFacts.ranged_business Papa st Hran), Hpos.
    + rewrite Hhr. apply Z.ltb_lt. lia.
  - vm_compute. repeat split; reflexivity.
Qed.

Lemma reload_restores_position_witness :
  storage_ok demo_browser = true /\
  AppFilter.currentIndex filter_session = 1 /\
  AppFilter.selectedIndustry filter_session = "Home Services"%string /\
  AppFilter.currentIndex filter_reloaded = AppFilter.currentIndex filter_session /\
  AppFilter.selectedIndustry filter_reloaded = AppFilter.selectedIndustry filter_session /\
  AppFilter.currentBusiness demo_parse filter_reloaded
  = AppFilter.currentBusiness demo_parse filter_session /\
  AppCard.currentIndex card_demo = 2 /\
  AppCard.currentIndex card_session = 3 /\
  AppCard.currentIndex card_reloaded = AppCard.currentIndex card_session /\
  AppCard.currentBusiness demo_parse card_reloaded
  = AppCard.currentBusiness demo_parse card_session.
Proof.
  split; [reflexivity|]. split; [vm_compute; reflexivity|].
  split; [vm_compute; reflexivity|].
  pose proof (reload_restores_position demo_parse demo_browser (Some "csv")
                demo_parse_empty demo_parse_array eq_refl)
    as (HF & _ & HC & _ & _ & _ & HR & _).
  pose proof (HF [AppFilter.ClickNext; AppFilter.SelectIndustry "Home Services";
                  AppFilter.ClickNext]) as (F1 & F2 & F3).
  split; [exact F1|]. split; [exact F2|]. split; [exact F3|].
  split.
  - assert (Hs : storage demo_browser !! STORAGE_KEY = Some (JS.String_of 2))
      by (vm_compute; reflexivity).
    assert (Hk : 0 <= 2 <= AppCard.total demo_parse
                   (AppCard.step demo_parse (AppCard.mount demo_parse demo_browser)
                      (AppCard.FetchDone (Some "csv"))) - 1)
      by (vm_compute; split; discriminate).
    exact (proj1 (HR 2 Hs Hk)).
  - split; [vm_compute; reflexivity|].
    exact (HC [AppCard.ClickNext]).
Defined.

(** C3: in a hydrated component the filter effect puts the index back to
    0 once for each event that changes the selected industry and for no
    other event; selecting the same industry again changes nothing. *)
Theorem filter_change_resets_once {E} (Papa : string -> ParseResult E)
    (st : AppFilter.State) :
  FilterSpec.settled Papa st -> FilterSpec.hydrated st ->
  (forall e,
     resets (journal (AppFilter.browser (AppFilter.step Papa st e)))
     = (resets (journal (AppFilter.browser st))
        + (if FilterSpec.changes_filter Papa st e then 1 else 0))%nat) /\
  (forall value,
     AppFilter.card_shown Papa st = true -> value <> AppFilter.selectedIndustry st ->
     let st1 := AppFilter.step Papa st (AppFilter.SelectIndustry value) in
     AppFilter.currentIndex st1 = 0 /\
     AppFilter.selectedIndustry st1 = value /\
     resets (journal (AppFilter.browser st1))
     = S (resets (journal (AppFilter.browser st))) /\
     AppFilter.step Papa st1 (AppFilter.SelectIndustry value) = st1).
Proof.
  intros Hset Hhyd. split.
  - intros e. apply FilterFacts.resets_step; assumption.
  - intros value Hcard Hne. apply FilterFacts.select_twice; assumption.
Qed.

Lemma filter_demo_settled : FilterSpec.settled demo_parse filter_demo.
Proof. split; vm_compute; reflexivity. Qed.

Lemma filter_demo_hydrated : FilterSpec.hydrated filter_demo.
Proof. split; vm_compute; reflexivity. Qed.

Lemma filter_change_resets_once_witness :
  FilterSpec.settled demo_parse filter_demo /\ FilterSpec.hydrated filter_demo /\
  AppFilter.currentIndex filter_demo = 2 /\
  AppFilter.currentIndex filter_selected = 0 /\
  AppFilter.selectedIndustry filter_selected = "Law Firm"%string /\
  resets (journal (AppFilter.browser filter_selected))
  = S (resets (journal (AppFilter.browser filter_demo))) /\
  AppFilter.step demo_parse filter_selected (AppFilter.SelectIndustry "Law Firm")
  = filter_selected.
Proof.
  split; [exact filter_demo_settled|]. split; [exact filter_demo_hydrated|].
  split; [vm_compute; reflexivity|].
  apply (proj2 (filter_change_resets_once demo_parse filter_demo
                  filter_demo_settled filter_demo_hydrated)).
  - vm_compute. reflexivity.
  - discriminate.
Defined.

(** C4, as the card revision has it: a position typed in the editor that
    is out of range is not ignored, [commitIndex] moves to the nearest end
    of the list. *)
Lemma commitIndex_moves_out_of_range :
  AppCard.total demo_parse (card_editing "0") = 5 /\
  AppCard.currentIndex (card_editing "0") = 2 /\
  JS.parseInt (AppCard.inputIndex (card_editing "0")) = JS.Finite 0 /\
  AppCard.currentIndex (AppCard.step demo_parse (card_editing "0") AppCard.CommitEdit) = 0 /\
  JS.parseInt (AppCard.inputIndex (card_editing "6")) = JS.Finite 6 /\
  AppCard.currentIndex (AppCard.step demo_parse (card_editing "6") AppCard.CommitEdit) = 4.
Proof. vm_compute. repeat split; reflexivity. Qed.

(** C4, amended: [handleJump] of the filter revision accepts the number
    [n] read from the jump box exactly when [1 <= n <= L], moving to
    [n - 1], and leaves the component as it is for any other input;
    [commitIndex] of the card revision moves to [clamp (n - 1) 0 (L - 1)]
    for every number read ([n - 1] when [1 <= n <= L], the first row for
    [n <= 0], the last for [n > L]) and keeps the position only when no
    number is read. *)
Theorem jump_accepts_or_clamps {E} (Papa : string -> ParseResult E) :
  (forall st : AppFilter.State,
     FilterSpec.settled Papa st -> AppFilter.card_shown Papa st = true ->
     AppFilter.showJumpInput st = true ->
     let L := AppFilter.total Papa st in
     match JS.parseInt (AppFilter.jumpInput st) with
     | JS.Finite n =>
         (1 <= n <= L ->
          AppFilter.currentIndex (AppFilter.step Papa st AppFilter.SubmitJump) = n - 1) /\
         (~ 1 <= n <= L -> AppFilter.step Papa st AppFilter.SubmitJump = st)
     | _ => AppFilter.step Papa st AppFilter.SubmitJump = st
     end) /\
  (forall st : AppCard.State,
     CardSpec.settled Papa st -> AppCard.showNavigation Papa st = true ->
     AppCard.isEditingIndex st = true ->
     let L := AppCard.total Papa st in
     let st' := AppCard.step Papa st AppCard.CommitEdit in
     AppCard.isEditingIndex st' = false /\
     match JS.parseInt (AppCard.inputIndex st) with
     | JS.Finite n =>
         AppCard.currentIndex st' = clamp (n - 1) 0 (L - 1) /\
         (1 <= n <= L -> AppCard.currentIndex st' = n - 1) /\
         (n <= 0 -> AppCard.currentIndex st' = 0) /\
         (L < n -> AppCard.currentIndex st' = L - 1)
     | _ => AppCard.currentIndex st' = AppCard.currentIndex st
     end).
Proof.
  split.
  - intros st Hset Hcard Hshow. cbv zeta.
    pose proof (FilterFacts.filter_jump Papa st Hset Hcard Hshow) as H. cbv zeta in H.
    destruct (JS.parseInt (AppFilter.jumpInput st)) as [|neg|n]; try exact H.
    destruct (Z.leb_spec 1 n), (Z.leb_spec n (AppFilter.total Papa st));
      cbn [andb] in H; split; intros; try lia; exact H.
  - intros st Hset Hnav Hed. cbv zeta.
    destruct (CardFacts.card_commit Papa st Hset Hnav Hed) as [H1 H2].
    split; [exact H1|].
    unfold AppCard.showNavigation in Hnav. apply Z.ltb_lt in Hnav.
    destruct (JS.parseInt (AppCard.inputIndex st)) as [|neg|n]; try exact H2.
    rewrite H2. unfold clamp. repeat split; intros; lia.
Qed.

Lemma jump_accepts_or_clamps_witness :
  (FilterSpec.settled demo_parse (filter_jumping "1") /\
   AppFilter.currentIndex (filter_jumping "1") = 2 /\
   AppFilter.currentIndex
     (AppFilter.step demo_parse (filter_jumping "1") AppFilter.SubmitJump) = 1 - 1) /\
  (AppFilter.step demo_parse (filter_jumping "6") AppFilter.SubmitJump
   = filter_jumping "6") /\
  (CardSpec.settled demo_parse (card_editing "9") /\
   AppCard.currentIndex
     (AppCard.step demo_parse (card_editing "9") AppCard.CommitEdit)
   = AppCard.total demo_parse (card_editing "9") - 1).
Proof.
  destruct (jump_accepts_or_clamps demo_parse) as [HF HC].
  assert (S1 : FilterSpec.settled demo_parse (filter_jumping "1"))
    by (split; vm_compute; reflexivity).
  assert (S6 : FilterSpec.settled demo_parse (filter_jumping "6"))
    by (split; vm_compute; reflexivity).
  assert (S9 : CardSpec.settled demo_parse (card_editing "9"))
    by (split; vm_compute; reflexivity).
  split; [split; [exact S1|split; [vm_compute; reflexivity|]]|split; [|split; [exact S9|]]].
  - pose proof (HF (filter_jumping "1") S1 eq_refl eq_refl) as H. cbv zeta in H.
    change (JS.parseInt (AppFilter.jumpInput (filter_jumping "1"))) with (JS.Finite 1) in H.
    apply (proj1 H). vm_compute. split; discriminate.
  - pose proof (HF (filter_jumping "6") S6 eq_refl eq_refl) as H. cbv zeta in H.
    change (JS.parseInt (AppFilter.jumpInput (filter_jumping "6"))) with (JS.Finite 6) in H.
    apply (proj2 H). vm_compute. intros [_ H6]. apply H6. reflexivity.
  - pose proof (HC (card_editing "9") S9 eq_refl eq_refl) as H. cbv zeta in H.
    change (JS.parseInt (AppCard.inputIndex (card_editing "9"))) with (JS.Finite 9) in H.
    apply (proj2 (proj2 (proj2 (proj2 H)))). vm_compute. reflexivity.
Defined.

(** C5: with the index in the list, Previous gives [max 0 (i - 1)] and
    Next gives [min (L - 1) (i + 1)], in both revisions; at the first row
    Previous, and at the last row Next, change nothing; the index stays in
    the list.  Every state a run reaches is settled. *)
Theorem navigation_stays_in_range {E} (Papa : string -> ParseResult E) :
  (forall st : AppFilter.State,
     FilterSpec.settled Papa st ->
     let L := AppFilter.total Papa st in
     let i := AppFilter.currentIndex st in
     let previous := AppFilter.step Papa st AppFilter.ClickPrevious in
     let next := AppFilter.step Papa st AppFilter.ClickNext in
     0 < L -> 0 <= i <= L - 1 ->
     AppFilter.currentIndex previous = Z.max 0 (i - 1) /\
     AppFilter.currentIndex next = Z.min (L - 1) (i + 1) /\
     (i = 0 -> previous = st) /\ (i = L - 1 -> next = st) /\
     AppFilter.total Papa previous = L /\ AppFilter.total Papa next = L /\
     0 <= AppFilter.currentIndex previous <= L - 1 /\
     0 <= AppFilter.currentIndex next <= L - 1) /\
  (forall st : AppCard.State,
     CardSpec.settled Papa st ->
     let L := AppCard.total Papa st in
     let i := AppCard.currentIndex st in
     let previous := AppCard.step Papa st AppCard.ClickPrevious in
     let next := AppCard.step Papa st AppCard.ClickNext in
     0 < L -> 0 <= i <= L - 1 ->
     AppCard.currentIndex previous = Z.max 0 (i - 1) /\
     AppCard.currentIndex next = Z.min (L - 1) (i + 1) /\
     (i = 0 -> previous = st) /\ (i = L - 1 -> next = st) /\
     AppCard.total Papa previous = L /\ AppCard.total Papa next = L /\
     0 <= AppCard.currentIndex previous <= L - 1 /\
     0 <= AppCard.currentIndex next <= L - 1) /\
  (forall w events,
     FilterSpec.settled Papa (AppFilter.run Papa (AppFilter.mount Papa w) events)) /\
  (forall w events,
     CardSpec.settled Papa (AppCard.run Papa (AppCard.mount Papa w) events)).
Proof.
  split; [|split; [|split]].
  - intros st Hset; cbv zeta; intros HL Hi.
    destruct (FilterFacts.filter_navigation Papa st Hset HL Hi)
      as (H1 & H2 & H3 & H4 & H5 & H6). cbv zeta in *.
    rewrite H1, H2. repeat split; auto; lia.
  - intros st Hset; cbv zeta; intros HL Hi.
    destruct (CardFacts.card_navigation Papa st Hset HL Hi)
      as (H1 & H2 & H3 & H4 & H5 & H6). cbv zeta in *.
    rewrite H1, H2. repeat split; auto; lia.
  - apply FilterFacts.reachable_settled.
  - apply CardFacts.card_reachable_settled.
Qed.

Lemma card_demo_settled : CardSpec.settled demo_parse card_demo.
Proof. split; vm_compute; reflexivity. Qed.

Lemma navigation_stays_in_range_witness :
  (0 < AppFilter.total demo_parse filter_demo /\
   AppFilter.currentIndex filter_demo = 2 /\
   AppFilter.currentIndex (AppFilter.step demo_parse filter_demo AppFilter.ClickPrevious)
   = Z.max 0 (AppFilter.currentIndex filter_demo - 1)) /\
  (0 < AppCard.total demo_parse card_demo /\
   AppCard.currentIndex (AppCard.step demo_parse card_demo AppCard.ClickNext)
   = Z.min (AppCard.total demo_parse card_demo - 1) (AppCard.currentIndex card_demo + 1)).
Proof.
  destruct (navigation_stays_in_range demo_parse) as (HF & HC & _).
  split.
  - split; [vm_compute; reflexivity|]. split; [vm_compute; reflexivity|].
    apply (HF filter_demo filter_demo_settled); vm_compute; split; discriminate || reflexivity.
  - split; [vm_compute; reflexivity|].
    apply (HC card_demo card_demo_settled); vm_compute; split; discriminate || reflexivity.
Defined.

(** * Further properties of the code *)

(** X1: the industries the selector offers are exactly the industry
    values of the dataset that are not blank, each of them once, in
    ascending order of their character codes. *)
Theorem industries_sorted_distinct (bs : list Business) :
  let inds := AppFilter.industries_of bs in
  (forall x, x ∈ inds <->
             exists b, b ∈ bs /\ industry b = x /\ JS.trim x <> EmptyString) /\
  NoDup inds /\
  StronglySorted (fun a b => String.le a b /\ a <> b) inds.
Proof.
  cbv zeta. split; [|split].
  - intros x. apply industries_of_elem.
  - apply industries_of_NoDup.
  - apply industries_of_sorted.
Qed.

Lemma industries_sorted_distinct_witness :
  AppFilter.industries_of demo_businesses
  = ["Creative Agency"; "Home Services"; "Law Firm"]%string /\
  "Law Firm"%string ∈ AppFilter.industries_of demo_businesses.
Proof.
  split; [vm_compute; reflexivity|].
  apply (proj1 (industries_sorted_distinct demo_businesses)).
  exists (normalize (row "" "" "Law Firm" "" "" "555-CALL-NOW")).
  split; [|split; [reflexivity|vm_compute; discriminate]].
  apply (list_elem_of_lookup_2 _ 2%nat). vm_compute. reflexivity.
Defined.


(** X2: in every state the filter revision can reach with the card on
    screen, choosing an option of the selector ("All Industries" or one of
    the industries) keeps the card on screen with the same options; a new
    choice shows the first row of the chosen list, and the row shown after
    choosing an industry is of that industry. *)
Theorem select_offered_industry {E} (Papa : string -> ParseResult E)
    (w : Browser) (events : list AppFilter.Event) (value : string) :
  data (Papa EmptyString) = [] ->
  let st := AppFilter.run Papa (AppFilter.mount Papa w) events in
  let st1 := AppFilter.step Papa st (AppFilter.SelectIndustry value) in
  AppFilter.card_shown Papa st = true ->
  value ∈ AppFilter.filter_options Papa st ->
  AppFilter.selectedIndustry st1 = value /\
  AppFilter.card_shown Papa st1 = true /\
  AppFilter.filter_options Papa st1 = AppFilter.filter_options Papa st /\
  (value <> AppFilter.selectedIndustry st ->
   AppFilter.currentIndex st1 = 0 /\
   AppFilter.currentBusiness Papa st1
   = head (AppFilter.filterBusinesses (AppFilter.businesses Papa st) value)) /\
  (value <> EmptyString ->
   exists b, AppFilter.currentBusiness Papa st1 = Some b /\ industry b = value).
Proof.
  intros Hempty st st1 Hcard Hin.
  assert (Hran : FilterSpec.ranged Papa st)
    by apply (FilterFacts.reachable_ranged Papa Hempty).
  assert (Hran1 : FilterSpec.ranged Papa st1)
    by apply (FilterFacts.ranged_step Papa st _ Hran).
  pose proof (FilterFacts.card_shown_total Papa st Hcard) as Hpos.
  assert (Hstep : st1 = AppFilter.render Papa 2 (AppFilter.setSelectedIndustry value st))
    by (unfold st1, AppFilter.step; cbn [AppFilter.handler]; rewrite Hcard; reflexivity).
  destruct (FilterFacts.render_keeps_view Papa 2 (AppFilter.setSelectedIndustry value st))
    as [Hcsv Hsel].
  rewrite <- Hstep in Hcsv, Hsel.
  assert (Hcsv' : AppFilter.csvText st1 = AppFilter.csvText st)
    by (rewrite Hcsv; destruct st; reflexivity).
  assert (Hsel' : AppFilter.selectedIndustry st1 = value)
    by (rewrite Hsel; destruct st; reflexivity).
  assert (Hbs : AppFilter.businesses Papa st1 = AppFilter.businesses Papa st)
    by (unfold AppFilter.businesses; rewrite Hcsv'; reflexivity).
  assert (Hlist : AppFilter.filteredBusinesses Papa st1
                  = AppFilter.filterBusinesses (AppFilter.businesses Papa st) value)
    by (unfold AppFilter.filteredBusinesses; rewrite Hbs, Hsel'; reflexivity).
  assert (Hrows : AppFilter.businesses Papa st <> []).
  { intros Hnil. unfold AppFilter.total, AppFilter.filteredBusinesses in Hpos.
    rewrite Hnil in Hpos. unfold AppFilter.filterBusinesses in Hpos.
    destruct (negb (JS.truthy (AppFilter.selectedIndustry st))); cbn in Hpos; lia. }
  assert (Hpos1 : 0 < AppFilter.total Papa st1).
  { unfold AppFilter.total. rewrite Hlist.
    pose proof (offered_has_rows _ value Hrows Hin) as Hne.
    destruct (AppFilter.filterBusinesses (AppFilter.businesses Papa st) value);
      [congruence|cbn; lia]. }
  split; [exact Hsel'|]. split; [|split; [|split]].
  - rewrite (FilterFacts.ranged_card_shown Papa st1 Hran1). apply Z.ltb_lt, Hpos1.
  - unfold AppFilter.filter_options, AppFilter.industries. rewrite Hbs. reflexivity.
  - intros Hne.
    destruct (FilterFacts.select_twice Papa st value) as (H0 & _);
      [apply Hran|apply (FilterFacts.ranged_hydrated Papa st Hran Hpos)
      |exact Hcard|exact Hne|].
    fold st1 in H0. split; [exact H0|].
    unfold AppFilter.currentBusiness. rewrite H0, Hlist. apply at_index_0.
  - intros Hne.
    destruct (proj1 (FilterFacts.ranged_business Papa st1 Hran1) Hpos1) as [b Hb].
    exists b. split; [exact Hb|].
    apply (filtered_have_industry (AppFilter.businesses Papa st) value b Hne).
    rewrite <- Hlist. unfold AppFilter.currentBusiness, at_index in Hb.
    destruct (AppFilter.currentIndex st1 <? 0); [discriminate|].
    apply (list_elem_of_lookup_2 _ _ _ Hb).
Qed.

Lemma select_offered_industry_witness :
  AppFilter.card_shown demo_parse
    (AppFilter.run demo_parse (AppFilter.mount demo_parse demo_browser)
       [AppFilter.FetchDone (Some "csv")]) = true /\
  AppFilter.selectedIndustry
    (AppFilter.step demo_parse
       (AppFilter.run demo_parse (AppFilter.mount demo_parse demo_browser)
          [AppFilter.FetchDone (Some "csv")])
       (AppFilter.SelectIndustry "Law Firm")) = "Law Firm"%string /\
  AppFilter.card_shown demo_parse
    (AppFilter.step demo_parse
       (AppFilter.run demo_parse (AppFilter.mount demo_parse demo_browser)
          [AppFilter.FetchDone (Some "csv")])
       (AppFilter.SelectIndustry "Law Firm")) = true.
Proof.
  assert (Hcard : AppFilter.card_shown demo_parse
            (AppFilter.run demo_parse (AppFilter.mount demo_parse demo_browser)
               [AppFilter.FetchDone (Some "csv")]) = true)
    by (vm_compute; reflexivity).
  assert (Hin : "Law Firm"%string ∈ AppFilter.filter_options demo_parse
            (AppFilter.run demo_parse (AppFilter.mount demo_parse demo_browser)
               [AppFilter.FetchDone (Some "csv")]))
    by (apply (list_elem_of_lookup_2 _ 3%nat); vm_compute; reflexivity).
  split; [exact Hcard|].
  pose proof (select_offered_industry demo_parse demo_browser
                [AppFilter.FetchDone (Some "csv")] "Law Firm" demo_parse_empty) as H.
  cbv zeta in H. destruct (H Hcard Hin) as (H1 & H2 & _).
  split; [exact H1|exact H2].
Defined.

(** X3: the filter the page starts with is the [industry] parameter of
    the URL when it is not empty, else the industry kept in storage, else
    no filter (also when the storage throws); computing it never throws
    and writes nothing; the filter stays the same until the user chooses
    another one. *)
Theorem initial_filter_precedence {E} (Papa : string -> ParseResult E)
    (w : Browser) (events : list AppFilter.Event) :
  (forall value, AppFilter.SelectIndustry value ∉ events) ->
  let selected :=
    AppFilter.selectedIndustry (AppFilter.run Papa (AppFilter.mount Papa w) events) in
  (forall u, url_industry w = Some u -> u <> EmptyString -> selected = u) /\
  (url_industry w = None \/ url_industry w = Some EmptyString ->
   (storage_ok w = true ->
    selected = default EmptyString (storage w !! INDUSTRY_STORAGE_KEY)) /\
   (storage_ok w = false -> selected = EmptyString)) /\
  AppFilter.initial_industry w = (Normal (FilterSpec.first_industry w), w) /\
  AppFilter.selectedIndustry (AppFilter.mount Papa w) = FilterSpec.first_industry w.
Proof.
  intros Hno selected.
  assert (Hmount : AppFilter.selectedIndustry (AppFilter.mount Papa w)
                   = FilterSpec.first_industry w).
  { unfold AppFilter.mount. rewrite (proj2 (FilterFacts.render_keeps_view Papa 2 _)).
    reflexivity. }
  assert (Hsel : selected = FilterSpec.first_industry w).
  { unfold selected. rewrite (FilterFacts.run_keeps_industry Papa events _ Hno).
    exact Hmount. }
  rewrite Hsel, first_industry_cases. cbv zeta.
  split; [|split; [|split]].
  - intros u -> Hu. destruct u; [congruence|reflexivity].
  - intros [->| ->]; split; intros ->; reflexivity.
  - destruct (initial_industry_returns w) as [s Hs]. rewrite Hs. f_equal. f_equal.
    rewrite <- first_industry_cases. unfold FilterSpec.first_industry.
    rewrite FilterFacts.initial_industry_fresh. unfold result_of. rewrite Hs. reflexivity.
  - rewrite <- first_industry_cases. exact Hmount.
Qed.

Lemma initial_filter_precedence_witness :
  AppFilter.selectedIndustry
    (AppFilter.run demo_parse
       (AppFilter.mount demo_parse (browser_with None (Some "Home Services") (Some "Law Firm")))
       [AppFilter.FetchDone (Some "csv"); AppFilter.ClickNext])
  = "Law Firm"%string.
Proof.
  apply (proj1 (initial_filter_precedence demo_parse
                  (browser_with None (Some "Home Services") (Some "Law Firm"))
                  [AppFilter.FetchDone (Some "csv"); AppFilter.ClickNext]
                  ltac:(intros value H; repeat (apply elem_of_cons in H as [H|H];
                          [discriminate|]); apply not_elem_of_nil in H; exact H))
           "Law Firm"%string eq_refl).
  discriminate.
Defined.

(** X4: in a browser whose storage is disabled (every access throws)
    neither revision ever writes anything: the storage stays as it was
    and, in the filter revision, the URL is never updated either, because
    the update comes after the storage writes in the same [try]. *)
Theorem disabled_storage_writes_nothing {E} (Papa : string -> ParseResult E)
    (w : Browser) :
  storage_ok w = false ->
  (forall events,
     let w' := AppFilter.browser (AppFilter.run Papa (AppFilter.mount Papa w) events) in
     storage w' = storage w /\ url_industry w' = url_industry w /\
     Forall (fun a => is_write a = false) (journal w')) /\
  (forall events,
     let w' := AppCard.browser (AppCard.run Papa (AppCard.mount Papa w) events) in
     storage w' = storage w /\ url_industry w' = url_industry w /\
     Forall (fun a => is_write a = false) (journal w')).
Proof.
  intros Hok. split; intros events; cbv zeta.
  - destruct (FilterFacts.silent_run Papa w events Hok) as (_ & H). exact H.
  - destruct (CardFacts.card_silent_run Papa w events Hok) as (_ & H). exact H.
Qed.

Lemma disabled_storage_writes_nothing_witness :
  storage_ok disabled_browser = false /\
  AppFilter.selectedIndustry
    (AppFilter.run demo_parse (AppFilter.mount demo_parse disabled_browser)
       [AppFilter.FetchDone (Some "csv"); AppFilter.SelectIndustry "Home Services";
        AppFilter.ClickNext]) = "Home Services"%string /\
  url_industry
    (AppFilter.browser
       (AppFilter.run demo_parse (AppFilter.mount demo_parse disabled_browser)
          [AppFilter.FetchDone (Some "csv"); AppFilter.SelectIndustry "Home Services";
           AppFilter.ClickNext])) = url_industry disabled_browser.
Proof.
  split; [reflexivity|]. split; [vm_compute; reflexivity|].
  pose proof (proj1 (disabled_storage_writes_nothing demo_parse disabled_browser eq_refl)
                [AppFilter.FetchDone (Some "csv"); AppFilter.SelectIndustry "Home Services";
                 AppFilter.ClickNext]) as H.
  cbv zeta in H. exact (proj1 (proj2 H)).
Defined.

(** X5: when the answer leaves the active list empty (no row, or, in the
    filter revision, no row of the industry the page started with) the
    component is never hydrated, writes nothing, and no later event
    changes its state: the filter selector is part of the card, which is
    not on screen, so the filter cannot be changed. *)
Theorem empty_list_is_inert {E} (Papa : string -> ParseResult E)
    (w : Browser) (body : option string) :
  data (Papa EmptyString) = [] ->
  (FilterSpec.active_total Papa (accepted_text body) (FilterSpec.first_industry w) = 0 ->
   forall events,
     let st := AppFilter.run Papa (AppFilter.mount Papa w)
                 (AppFilter.FetchDone body :: events) in
     st = AppFilter.step Papa (AppFilter.mount Papa w) (AppFilter.FetchDone body) /\
     AppFilter.selectedIndustry st = FilterSpec.first_industry w /\
     AppFilter.card_shown Papa st = false /\
     AppFilter.currentBusiness Papa st = None /\
     AppFilter.currentIndex st = 0 /\
     AppFilter.hasInitializedRef st = false /\
     AppFilter.browser st = fresh w) /\
  (CardSpec.rows_total Papa (accepted_text body) = 0 ->
   forall events,
     let st := AppCard.run Papa (AppCard.mount Papa w)
                 (AppCard.FetchDone body :: events) in
     st = AppCard.step Papa (AppCard.mount Papa w) (AppCard.FetchDone body) /\
     AppCard.showNavigation Papa st = false /\
     AppCard.currentBusiness Papa st = None /\
     AppCard.currentIndex st = 0 /\
     AppCard.hasInitializedRef st = false /\
     AppCard.browser st = fresh w).
Proof.
  intros Hempty. split.
  - intros Ht events. cbv zeta. rewrite FilterFacts.run_cons.
    pose proof (FilterFacts.first_answer Papa Hempty w body) as H. cbv zeta in H.
    rewrite Ht in H.
    destruct H as (Hran1 & Hf1 & _ & Hsel1 & Ht1 & _ & Hhr & Hw1).
    rewrite (FilterFacts.idle_run Papa events _ Hran1 Ht1 Hf1).
    split; [reflexivity|]. split; [exact Hsel1|].
    split; [rewrite (FilterFacts.ranged_card_shown Papa _ Hran1), Ht1; reflexivity|].
    split; [apply (FilterFacts.ranged_business Papa _ Hran1), Ht1|].
    split; [apply Hran1, Ht1|]. split; [exact Hhr|].
    apply Hw1. reflexivity.
  - intros Ht events. cbv zeta. rewrite CardFacts.card_run_cons.
    pose proof (CardFacts.card_first_answer Papa Hempty w body) as H. cbv zeta in H.
    rewrite Ht in H.
    destruct H as (Hran1 & Hf1 & _ & Ht1 & _ & Hhr & Hw1).
    rewrite (CardFacts.card_idle_run Papa events _ Hran1 Ht1 Hf1).
    split; [reflexivity|].
    split; [unfold AppCard.showNavigation; rewrite Ht1; reflexivity|].
    split; [apply (CardFacts.card_ranged_business Papa _ Hran1), Ht1|].
    split; [apply Hran1, Ht1|]. split; [exact Hhr|].
    apply Hw1. reflexivity.
Qed.

Lemma empty_list_is_inert_witness :
  FilterSpec.first_industry stale_browser = "Bakery"%string /\
  FilterSpec.active_total demo_parse (accepted_text (Some "csv"%string))
    (FilterSpec.first_industry stale_browser) = 0 /\
  AppFilter.selectedIndustry
    (AppFilter.run demo_parse (AppFilter.mount demo_parse stale_browser)
       [AppFilter.FetchDone (Some "csv"); AppFilter.SelectIndustry "";
        AppFilter.ClickNext]) = FilterSpec.first_industry stale_browser.
Proof.
  split; [vm_compute; reflexivity|].
  assert (Ht : FilterSpec.active_total demo_parse (accepted_text (Some "csv"%string))
                 (FilterSpec.first_industry stale_browser) = 0)
    by (vm_compute; reflexivity).
  split; [exact Ht|].
  pose proof (proj1 (empty_list_is_inert demo_parse stale_browser (Some "csv"%string)
                       demo_parse_empty) Ht
                [AppFilter.SelectIndustry ""; AppFilter.ClickNext]) as H.
  cbv zeta in H. exact (proj1 (proj2 H)).
Defined.



(** X7: the text of the answer is kept only when it is not blank, and
    from then on it never changes; the first render with the answer puts
    the component at the position [getStoredIndex] gives for the length of
    the active list, and hydrates it exactly when that list has a row. *)
Theorem answer_fixes_the_rows {E} (Papa : string -> ParseResult E)
    (w : Browser) (body : option string) :
  data (Papa EmptyString) = [] ->
  (forall text, body = Some text -> JS.trim text <> EmptyString ->
                accepted_text body = text) /\
  (body = None \/ (exists text, body = Some text /\ JS.trim text = EmptyString) ->
   accepted_text body = EmptyString) /\
  (forall events,
     let st1 := AppFilter.step Papa (AppFilter.mount Papa w) (AppFilter.FetchDone body) in
     let st := AppFilter.run Papa (AppFilter.mount Papa w)
                 (AppFilter.FetchDone body :: events) in
     let t := FilterSpec.active_total Papa (accepted_text body)
                (FilterSpec.first_industry w) in
     AppFilter.total Papa st1 = t /\
     AppFilter.currentIndex st1 = stored_index t w /\
     AppFilter.hasInitializedRef st1 = (0 <? t) /\
     AppFilter.csvText st = accepted_text body /\
     AppFilter.fetching st = false) /\
  (forall events,
     let st1 := AppCard.step Papa (AppCard.mount Papa w) (AppCard.FetchDone body) in
     let st := AppCard.run Papa (AppCard.mount Papa w)
                 (AppCard.FetchDone body :: events) in
     let t := CardSpec.rows_total Papa (accepted_text body) in
     AppCard.total Papa st1 = t /\
     AppCard.currentIndex st1 = stored_index t w /\
     AppCard.hasInitializedRef st1 = (0 <? t) /\
     AppCard.csvText st = accepted_text body /\
     AppCard.fetching st = false).
Proof.
  intros Hempty. split; [|split; [|split]].
  - intros text -> Htrim. unfold accepted_text.
    assert (Htext : text <> EmptyString) by (intros ->; apply Htrim; reflexivity).
    destruct text as [|c text]; [congruence|]. cbn [JS.truthy andb].
    destruct (JS.trim (String c text)) as [|d s]; [congruence|]. reflexivity.
  - intros [->|(text & -> & Htrim)]; [reflexivity|]. unfold accepted_text.
    rewrite Htrim. cbn. rewrite andb_false_r. reflexivity.
  - intros events. cbv zeta. rewrite FilterFacts.run_cons.
    pose proof (FilterFacts.first_answer Papa Hempty w body) as H. cbv zeta in H.
    destruct H as (Hran1 & Hf1 & Hcsv & _ & Ht1 & Hi & Hhr & _).
    destruct (FilterFacts.ranged_run Papa events _ Hran1) as [_ Hkeep].
    destruct (Hkeep Hf1) as [Hf Hc].
    split; [exact Ht1|]. split; [exact Hi|]. split; [exact Hhr|].
    split; [rewrite Hc; exact Hcsv|exact Hf].
  - intros events. cbv zeta. rewrite CardFacts.card_run_cons.
    pose proof (CardFacts.card_first_answer Papa Hempty w body) as H. cbv zeta in H.
    destruct H as (Hran1 & Hf1 & Hcsv & Ht1 & Hi & Hhr & _).
    destruct (CardFacts.card_ranged_run Papa events _ Hran1) as [_ Hkeep].
    destruct (Hkeep Hf1) as [Hf Hc].
    split; [exact Ht1|]. split; [exact Hi|]. split; [exact Hhr|].
    split; [rewrite Hc; exact Hcsv|exact Hf].
Qed.

Lemma answer_fixes_the_rows_witness :
  accepted_text (Some "csv"%string) = "csv"%string /\
  AppCard.csvText
    (AppCard.run demo_parse (AppCard.mount demo_parse demo_browser)
       [AppCard.FetchDone (Some "csv"); AppCard.FetchDone (Some "four");
        AppCard.ClickNext]) = accepted_text (Some "csv"%string).
Proof.
  destruct (answer_fixes_the_rows demo_parse demo_browser (Some "csv"%string)
              demo_parse_empty) as (H1 & _ & _ & H4).
  split.
  - apply (H1 "csv"%string eq_refl). vm_compute. discriminate.
  - pose proof (H4 [AppCard.FetchDone (Some "four"); AppCard.ClickNext]) as H.
    cbv zeta in H. exact (proj1 (proj2 (proj2 (proj2 H)))).
Defined.

(** X8: in the card revision, opening the position editor fills it with
    the position on screen, which reads back as the same number; so
    committing the editor without typing, like cancelling it, gives back
    the state before it was opened (but for the text left in the closed
    editor): same row, nothing written. *)
Theorem editor_round_trip {E} (Papa : string -> ParseResult E)
    (w : Browser) (events : list AppCard.Event) :
  data (Papa EmptyString) = [] ->
  (forall text, Z.of_nat (length (data (Papa text))) <= MAX_ARRAY_LENGTH) ->
  let st := AppCard.run Papa (AppCard.mount Papa w) events in
  let opened := AppCard.step Papa st AppCard.ClickPosition in
  let closed := AppCard.setInputIndex (JS.String_of (AppCard.currentIndex st + 1)) st in
  AppCard.showNavigation Papa st = true -> AppCard.isEditingIndex st = false ->
  AppCard.isEditingIndex opened = true /\
  AppCard.inputIndex opened = JS.String_of (AppCard.currentIndex st + 1) /\
  JS.parseInt (AppCard.inputIndex opened) = JS.Finite (AppCard.currentIndex st + 1) /\
  AppCard.step Papa opened AppCard.CommitEdit = closed /\
  AppCard.step Papa opened AppCard.CancelEdit = closed /\
  AppCard.currentIndex closed = AppCard.currentIndex st /\
  AppCard.browser closed = AppCard.browser st.
Proof.
  intros Hempty Harray st opened closed Hnav Hed.
  pose proof (CardFacts.card_reachable_ranged Papa Hempty w events) as Hran.
  fold st in Hran.
  pose proof Hran as (Hset & _ & _ & _ & _ & Hr).
  assert (Hpos : 0 < AppCard.total Papa st) by (apply Z.ltb_lt, Hnav).
  specialize (Hr Hpos).
  pose proof (CardFacts.card_rows_total_bounds Papa Harray (AppCard.csvText st)) as HL.
  change (CardSpec.rows_total Papa (AppCard.csvText st)) with (AppCard.total Papa st) in HL.
  assert (Hopen : opened = AppCard.setInputIndex (JS.String_of (AppCard.currentIndex st + 1))
                             (AppCard.setIsEditingIndex true st))
    by apply (CardFacts.card_open_editor Papa st Hset Hnav Hed).
  assert (Hinput : AppCard.inputIndex opened = JS.String_of (AppCard.currentIndex st + 1))
    by (rewrite Hopen; reflexivity).
  split; [rewrite Hopen; reflexivity|]. split; [exact Hinput|].
  split; [rewrite Hinput; apply parseInt_String_of; pose proof overflow_above_arrays; lia|].
  split; [apply (CardFacts.card_commit_shown Papa st Hset Hnav Hed Hr); lia|].
  split; [apply (CardFacts.card_cancel_shown Papa st Hset Hnav Hed)|].
  split; destruct st; reflexivity.
Qed.

Lemma editor_round_trip_witness :
  AppCard.showNavigation demo_parse
    (AppCard.run demo_parse (AppCard.mount demo_parse demo_browser)
       [AppCard.FetchDone (Some "csv")]) = true /\
  AppCard.inputIndex
    (AppCard.step demo_parse
       (AppCard.run demo_parse (AppCard.mount demo_parse demo_browser)
          [AppCard.FetchDone (Some "csv")]) AppCard.ClickPosition)
  = JS.String_of
      (AppCard.currentIndex
         (AppCard.run demo_parse (AppCard.mount demo_parse demo_browser)
            [AppCard.FetchDone (Some "csv")]) + 1).
Proof.
  assert (Hnav : AppCard.showNavigation demo_parse
            (AppCard.run demo_parse (AppCard.mount demo_parse demo_browser)
               [AppCard.FetchDone (Some "csv")]) = true)
    by (vm_compute; reflexivity).
  assert (Hed : AppCard.isEditingIndex
            (AppCard.run demo_parse (AppCard.mount demo_parse demo_browser)
               [AppCard.FetchDone (Some "csv")]) = false)
    by (vm_compute; reflexivity).
  split; [exact Hnav|].
  pose proof (editor_round_trip demo_parse demo_browser [AppCard.FetchDone (Some "csv")]
                demo_parse_empty demo_parse_array) as H.
  cbv zeta in H. exact (proj1 (proj2 (H Hnav Hed))).
Defined.

(** X9: in the filter revision a number [n] of the jump box that is
    accepted (a position of the active list) puts the [n]-th row of the
    active list on screen and closes and empties the jump box; the filter
    and the active list stay the same. *)
Theorem accepted_jump_shows_row {E} (Papa : string -> ParseResult E)
    (w : Browser) (events : list AppFilter.Event) (n : Z) :
  let st := AppFilter.run Papa (AppFilter.mount Papa w) events in
  let st' := AppFilter.step Papa st AppFilter.SubmitJump in
  AppFilter.card_shown Papa st = true -> AppFilter.showJumpInput st = true ->
  JS.parseInt (AppFilter.jumpInput st) = JS.Finite n ->
  1 <= n <= AppFilter.total Papa st ->
  AppFilter.currentBusiness Papa st'
  = AppFilter.filteredBusinesses Papa st !! Z.to_nat (n - 1) /\
  is_Some (AppFilter.currentBusiness Papa st') /\
  AppFilter.currentIndex st' = n - 1 /\
  AppFilter.showJumpInput st' = false /\
  AppFilter.jumpInput st' = EmptyString /\
  AppFilter.selectedIndustry st' = AppFilter.selectedIndustry st /\
  AppFilter.filteredBusinesses Papa st' = AppFilter.filteredBusinesses Papa st.
Proof.
  intros st st' Hcard Hshow Hnum Hn.
  pose proof (FilterFacts.reachable_settled Papa w events) as Hset. fold st in Hset.
  destruct (FilterFacts.jump_accepted Papa st n Hset Hcard Hshow Hnum Hn)
    as (H1 & H2 & H3 & H4 & H5 & H6).
  fold st' in H1, H2, H3, H4, H5, H6.
  split; [exact H6|]. split.
  - rewrite H6. apply lookup_lt_is_Some. unfold AppFilter.total in Hn. lia.
  - split; [exact H1|]. split; [exact H2|]. split; [exact H3|]. split; [exact H5|].
    unfold AppFilter.filteredBusinesses, AppFilter.businesses. rewrite H4, H5. reflexivity.
Qed.

Lemma accepted_jump_shows_row_witness :
  JS.parseInt
    (AppFilter.jumpInput
       (AppFilter.run demo_parse (AppFilter.mount demo_parse demo_browser)
          [AppFilter.FetchDone (Some "csv"); AppFilter.ClickEntry;
           AppFilter.TypeJump " 5 "])) = JS.Finite 5 /\
  AppFilter.currentIndex
    (AppFilter.step demo_parse
       (AppFilter.run demo_parse (AppFilter.mount demo_parse demo_browser)
          [AppFilter.FetchDone (Some "csv"); AppFilter.ClickEntry;
           AppFilter.TypeJump " 5 "]) AppFilter.SubmitJump) = 5 - 1 /\
  AppFilter.showJumpInput
    (AppFilter.step demo_parse
       (AppFilter.run demo_parse (AppFilter.mount demo_parse demo_browser)
          [AppFilter.FetchDone (Some "csv"); AppFilter.ClickEntry;
           AppFilter.TypeJump " 5 "]) AppFilter.SubmitJump) = false.
Proof.
  assert (Hnum : JS.parseInt
            (AppFilter.jumpInput
               (AppFilter.run demo_parse (AppFilter.mount demo_parse demo_browser)
                  [AppFilter.FetchDone (Some "csv"); AppFilter.ClickEntry;
                   AppFilter.TypeJump " 5 "])) = JS.Finite 5)
    by (vm_compute; reflexivity).
  split; [exact Hnum|].
  pose proof (accepted_jump_shows_row demo_parse demo_browser
                [AppFilter.FetchDone (Some "csv"); AppFilter.ClickEntry;
                 AppFilter.TypeJump " 5 "] 5) as H.
  cbv zeta in H.
  assert (Hcard : AppFilter.card_shown demo_parse
            (AppFilter.run demo_parse (AppFilter.mount demo_parse demo_browser)
               [AppFilter.FetchDone (Some "csv"); AppFilter.ClickEntry;
                AppFilter.TypeJump " 5 "]) = true)
    by (vm_compute; reflexivity).
  assert (Hshow : AppFilter.showJumpInput
            (AppFilter.run demo_parse (AppFilter.mount demo_parse demo_browser)
               [AppFilter.FetchDone (Some "csv"); AppFilter.ClickEntry;
                AppFilter.TypeJump " 5 "]) = true)
    by (vm_compute; reflexivity).
  assert (Hn : 1 <= 5 <= AppFilter.total demo_parse
            (AppFilter.run demo_parse (AppFilter.mount demo_parse demo_browser)
               [AppFilter.FetchDone (Some "csv"); AppFilter.ClickEntry;
                AppFilter.TypeJump " 5 "]))
    by (vm_compute; split; discriminate).
  destruct (H Hcard Hshow Hnum Hn) as (_ & _ & H3 & H4 & _).
  split; [exact H3|exact H4].
Defined.

(** X10: from any state either revision can reach with rows in the
    list, pressing Next [k] times moves [k] rows forward and stops at the
    last row, pressing Previous [k] times moves [k] rows back and stops at
    the first row; the list stays the same. *)
Theorem repeated_navigation {E} (Papa : string -> ParseResult E) :
  data (Papa EmptyString) = [] ->
  (forall w events k,
     let st := AppFilter.run Papa (AppFilter.mount Papa w) events in
     let L := AppFilter.total Papa st in
     let forward := AppFilter.run Papa st (replicate k AppFilter.ClickNext) in
     let back := AppFilter.run Papa st (replicate k AppFilter.ClickPrevious) in
     0 < L ->
     AppFilter.currentIndex forward = Z.min (L - 1) (AppFilter.currentIndex st + Z.of_nat k) /\
     AppFilter.currentIndex back = Z.max 0 (AppFilter.currentIndex st - Z.of_nat k) /\
     AppFilter.total Papa forward = L /\ AppFilter.total Papa back = L /\
     (L - 1 <= Z.of_nat k -> AppFilter.currentIndex forward = L - 1 /\
                             AppFilter.currentIndex back = 0)) /\
  (forall w events k,
     let st := AppCard.run Papa (AppCard.mount Papa w) events in
     let L := AppCard.total Papa st in
     let forward := AppCard.run Papa st (replicate k AppCard.ClickNext) in
     let back := AppCard.run Papa st (replicate k AppCard.ClickPrevious) in
     0 < L ->
     AppCard.currentIndex forward = Z.min (L - 1) (AppCard.currentIndex st + Z.of_nat k) /\
     AppCard.currentIndex back = Z.max 0 (AppCard.currentIndex st - Z.of_nat k) /\
     AppCard.total Papa forward = L /\ AppCard.total Papa back = L /\
     (L - 1 <= Z.of_nat k -> AppCard.currentIndex forward = L - 1 /\
                             AppCard.currentIndex back = 0)).
Proof.
  intros Hempty. split; intros w events k; cbv zeta.
  - pose proof (FilterFacts.reachable_ranged Papa Hempty w events) as Hran.
    revert Hran. generalize (AppFilter.run Papa (AppFilter.mount Papa w) events).
    intros st Hran Hpos.
    destruct (FilterFacts.repeat_next Papa k st Hran Hpos) as [N1 N2].
    destruct (FilterFacts.repeat_previous Papa k st Hran Hpos) as [P1 P2].
    cbv zeta in N1, N2, P1, P2.
    pose proof Hran as (_ & _ & _ & _ & _ & Hr). specialize (Hr Hpos).
    rewrite N1, P1. repeat split; try assumption; lia.
  - pose proof (CardFacts.card_reachable_ranged Papa Hempty w events) as Hran.
    revert Hran. generalize (AppCard.run Papa (AppCard.mount Papa w) events).
    intros st Hran Hpos.
    destruct (CardFacts.card_repeat_next Papa k st Hran Hpos) as [N1 N2].
    destruct (CardFacts.card_repeat_previous Papa k st Hran Hpos) as [P1 P2].
    cbv zeta in N1, N2, P1, P2.
    pose proof Hran as (_ & _ & _ & _ & _ & Hr). specialize (Hr Hpos).
    rewrite N1, P1. repeat split; try assumption; lia.
Qed.

Lemma repeated_navigation_witness :
  AppCard.total demo_parse
    (AppCard.run demo_parse (AppCard.mount demo_parse demo_browser)
       [AppCard.FetchDone (Some "csv")]) = 5 /\
  AppCard.currentIndex
    (AppCard.run demo_parse
       (AppCard.run demo_parse (AppCard.mount demo_parse demo_browser)
          [AppCard.FetchDone (Some "csv")])
       (replicate 7 AppCard.ClickNext)) = 5 - 1.
Proof.
  assert (Ht : AppCard.total demo_parse
            (AppCard.run demo_parse (AppCard.mount demo_parse demo_browser)
               [AppCard.FetchDone (Some "csv")]) = 5)
    by (vm_compute; reflexivity).
  split; [exact Ht|].
  pose proof (proj2 (repeated_navigation demo_parse demo_parse_empty) demo_browser
                [AppCard.FetchDone (Some "csv")] 7%nat) as H.
  cbv zeta in H. rewrite Ht in H.
  destruct H as (_ & _ & _ & _ & H); [reflexivity|].
  apply H. vm_compute. discriminate.
Defined.

(** X11: in the filter revision with working storage, choosing another
    filter stores the new filter and position 0 under the two keys of the
    program, touches no other key, and mirrors the filter in the URL: the
    [industry] parameter is the chosen industry, and is removed for "All
    Industries". *)
Theorem filter_change_is_stored {E} (Papa : string -> ParseResult E)
    (w : Browser) (events : list AppFilter.Event) (value : string) :
  data (Papa EmptyString) = [] ->
  (forall text, Z.of_nat (length (data (Papa text))) <= MAX_ARRAY_LENGTH) ->
  storage_ok w = true ->
  let st := AppFilter.run Papa (AppFilter.mount Papa w) events in
  let w' := AppFilter.browser (AppFilter.step Papa st (AppFilter.SelectIndustry value)) in
  AppFilter.card_shown Papa st = true -> value <> AppFilter.selectedIndustry st ->
  storage w' !! INDUSTRY_STORAGE_KEY = Some value /\
  storage w' !! STORAGE_KEY = Some "0"%string /\
  (value <> EmptyString -> url_industry w' = Some value) /\
  (value = EmptyString -> url_industry w' = None) /\
  (forall k, k <> STORAGE_KEY -> k <> INDUSTRY_STORAGE_KEY ->
             storage w' !! k = storage (AppFilter.browser st) !! k).
Proof.
  intros Hempty Harray Hok st w' Hcard Hne.
  pose proof (FilterFacts.reachable_ranged Papa Hempty w events) as Hran. fold st in Hran.
  pose proof (FilterFacts.reachable_consistent Papa Hempty Harray w events Hok)
    as (_ & Hok' & _).
  fold st in Hok'.
  pose proof (FilterFacts.card_shown_total Papa st Hcard) as Hpos.
  destruct (FilterFacts.select_stores Papa st value)
    as (H1 & H2 & H3 & H4);
    [apply Hran|apply (FilterFacts.ranged_hydrated Papa st Hran Hpos)
    |exact Hcard|exact Hok'|exact Hne|].
  fold w' in H1, H2, H3, H4.
  split; [exact H1|]. split; [exact H2|].
  split; [|split; [|exact H4]].
  - intros Hv. rewrite H3. destruct value; [congruence|reflexivity].
  - intros ->. exact H3.
Qed.

Lemma filter_change_is_stored_witness :
  storage_ok (browser_with (Some "2") (Some "Law Firm") (Some "Law Firm")) = true /\
  url_industry
    (AppFilter.browser
       (AppFilter.step demo_parse
          (AppFilter.run demo_parse
             (AppFilter.mount demo_parse
                (browser_with (Some "2") (Some "Law Firm") (Some "Law Firm")))
             [AppFilter.FetchDone (Some "csv")])
          (AppFilter.SelectIndustry ""))) = None.
Proof.
  split; [reflexivity|].
  pose proof (filter_change_is_stored demo_parse
                (browser_with (Some "2") (Some "Law Firm") (Some "Law Firm"))
                [AppFilter.FetchDone (Some "csv")] ""
                demo_parse_empty demo_parse_array eq_refl) as H.
  cbv zeta in H.
  assert (Hcard : AppFilter.card_shown demo_parse
            (AppFilter.run demo_parse
               (AppFilter.mount demo_parse
                  (browser_with (Some "2") (Some "Law Firm") (Some "Law Firm")))
               [AppFilter.FetchDone (Some "csv")]) = true)
    by (vm_compute; reflexivity).
  assert (Hne : ""%string <> AppFilter.selectedIndustry
            (AppFilter.run demo_parse
               (AppFilter.mount demo_parse
                  (browser_with (Some "2") (Some "Law Firm") (Some "Law Firm")))
               [AppFilter.FetchDone (Some "csv")]))
    by (vm_compute; discriminate).
  destruct (H Hcard Hne) as (_ & _ & _ & H4 & _). apply H4. reflexivity.
Defined.

(** X12: for a limit [maxRows] that is not negative (100 when it is not
    given) the table shows the first [maxRows] rows, in order and numbered
    from 0, or all of them when there are fewer; the line "No rows to
    display." stands for an empty table; the note under the table is there
    exactly when a row is left out, and then gives the number of lines and
    the number of rows; no cell is empty.  A negative limit leaves rows
    out from the end instead, and the note, always there, gives the
    negative limit. *)
Theorem CsvTable_shows_first_rows (rows : list Business) (maxRows : option Z) :
  let m := default 100 maxRows in
  let n := length rows in
  let v := CsvTable.CsvTable rows (JS.Finite <$> maxRows) in
  (0 <= m ->
   length (CsvTable.lines v) = Nat.min (Z.to_nat m) n /\
   (forall k, (k < Z.to_nat m)%nat ->
              CsvTable.lines v !! k = CsvTable.tr k <$> rows !! k) /\
   (CsvTable.tbody v = CsvTable.NoRows <-> n = 0%nat \/ m = 0) /\
   (CsvTable.note v = None <-> length (CsvTable.lines v) = n) /\
   (forall nt, CsvTable.note v = Some nt ->
               CsvTable.shown nt = JS.Finite (Z.of_nat (length (CsvTable.lines v))) /\
               CsvTable.of_rows nt = n)) /\
  (m < 0 ->
   length (CsvTable.lines v) = Z.to_nat (Z.of_nat n + m) /\
   CsvTable.note v = Some (CsvTable.mkNote (JS.Finite m) n)) /\
  (forall t c, t ∈ CsvTable.lines v -> c ∈ CsvTable.cells t ->
               CsvTable.cell_filled c = true).
Proof.
  intros m n v.
  assert (Hm : default (JS.Finite 100) (JS.Finite <$> maxRows) = JS.Finite m)
    by (destruct maxRows; reflexivity).
  assert (Hlines : CsvTable.lines v
                   = imap CsvTable.tr (CsvTable.slice_to rows (JS.Finite m)))
    by (unfold v; rewrite CsvTable_lines, Hm; reflexivity).
  assert (Hnote : CsvTable.note v
                  = if m <? Z.of_nat n then Some (CsvTable.mkNote (JS.Finite m) n) else None)
    by (unfold v, CsvTable.CsvTable; cbn [CsvTable.note]; rewrite Hm; reflexivity).
  assert (Hbody : CsvTable.tbody v = CsvTable.NoRows
                  <-> length (CsvTable.slice_to rows (JS.Finite m)) = 0%nat).
  { unfold v, CsvTable.CsvTable. cbn [CsvTable.tbody]. rewrite Hm.
    destruct (Nat.eqb_spec (length (CsvTable.slice_to rows (JS.Finite m))) 0);
      split; intros; congruence. }
  split; [|split].
  - intros Hpos.
    assert (Hslice : CsvTable.slice_to rows (JS.Finite m) = take (Z.to_nat m) rows).
    { unfold CsvTable.slice_to, CsvTable.slice_end.
      destruct (Z.ltb_spec m 0); [lia|]. fold n.
      destruct (Z.le_ge_cases m (Z.of_nat n)).
      - rewrite Z.min_l by lia. reflexivity.
      - rewrite Z.min_r by lia. rewrite Nat2Z.id.
        rewrite !firstn_all2 by (fold n; lia). reflexivity. }
    rewrite Hslice in Hlines, Hbody.
    assert (Hlen : length (CsvTable.lines v) = Nat.min (Z.to_nat m) n)
      by (rewrite Hlines, length_imap, length_take; reflexivity).
    split; [exact Hlen|]. split; [|split; [|split]].
    + intros k Hk. rewrite Hlines, list_lookup_imap, lookup_take_lt by exact Hk.
      reflexivity.
    + rewrite Hbody, length_take. fold n. lia.
    + rewrite Hnote, Hlen. destruct (Z.ltb_spec m (Z.of_nat n)); split; intros; try lia;
        congruence.
    + intros nt. rewrite Hnote, Hlen. destruct (Z.ltb_spec m (Z.of_nat n)); [|discriminate].
      intros [= <-]. cbn [CsvTable.shown CsvTable.of_rows]. split; [|reflexivity].
      f_equal. lia.
  - intros Hneg. split.
    + rewrite Hlines, length_imap. unfold CsvTable.slice_to, CsvTable.slice_end.
      destruct (Z.ltb_spec m 0); [|lia]. fold n. rewrite length_take. fold n. lia.
    + rewrite Hnote. destruct (Z.ltb_spec m (Z.of_nat n)); [reflexivity|lia].
  - intros t c Ht Hc. rewrite Hlines in Ht.
    apply elem_of_lookup_imap_1 in Ht as (k & row & -> & _).
    apply (tr_cells_filled k row c Hc).
Qed.

Lemma CsvTable_shows_first_rows_witness :
  length demo_businesses = 5%nat /\
  length (CsvTable.lines (CsvTable.CsvTable demo_businesses (JS.Finite <$> Some 2))) = 2%nat /\
  CsvTable.note (CsvTable.CsvTable demo_businesses (JS.Finite <$> Some 2))
  <> None.
Proof.
  assert (Hn : length demo_businesses = 5%nat) by (vm_compute; reflexivity).
  split; [exact Hn|].
  pose proof (CsvTable_shows_first_rows demo_businesses (Some 2)) as H. cbv zeta in H.
  destruct H as (H & _ & _).
  destruct H as (H1 & _ & _ & H4 & _); [cbn; lia|].
  rewrite Hn in H1, H4. split; [exact H1|].
  intros Hnone. apply H4 in Hnone. rewrite H1 in Hnone. discriminate Hnone.
Defined.

(** X13: the first revision, which has its data in the program and no
    hydration step, writes the position when the page loads and at every
    move: with a working storage the stored position is the position on
    screen in every state, so a reload comes back to it; the position is
    always in the list (0 when the list is empty, whatever was stored
    before); no other key and nothing of the URL is touched, and a
    disabled storage is left alone. *)
Theorem embedded_position_is_stored {E} (Papa : string -> ParseResult E)
    (w : Browser) (events : list AppEmbedded.Event) :
  let st := AppEmbedded.run Papa (AppEmbedded.mount Papa w) events in
  let L := AppEmbedded.total Papa in
  (0 < L -> 0 <= AppEmbedded.currentIndex st <= L - 1 /\
            is_Some (AppEmbedded.currentBusiness Papa st)) /\
  (L = 0 -> AppEmbedded.currentIndex st = 0) /\
  url_industry (AppEmbedded.browser st) = url_industry w /\
  (forall k, k <> STORAGE_KEY ->
             storage (AppEmbedded.browser st) !! k = storage w !! k) /\
  (storage_ok w = false ->
   storage (AppEmbedded.browser st) = storage w /\
   journal (AppEmbedded.browser st) = []) /\
  (storage_ok w = true ->
   storage (AppEmbedded.browser st) !! STORAGE_KEY
   = Some (JS.String_of (AppEmbedded.currentIndex st)) /\
   journal (AppEmbedded.browser (AppEmbedded.mount Papa w))
   = [SetItem STORAGE_KEY
        (JS.String_of (AppEmbedded.currentIndex (AppEmbedded.mount Papa w)))] /\
   (L <= MAX_ARRAY_LENGTH ->
    AppEmbedded.currentIndex (AppEmbedded.mount Papa (AppEmbedded.browser st))
    = AppEmbedded.currentIndex st)).
Proof.
  intros st L.
  pose proof (EmbeddedFacts.embedded_run_kept Papa w events) as Hk. fold st in Hk.
  pose proof Hk as (Hok & Hurl & Hkeys & Hon & Hoff & Hr & Hz).
  split; [|split; [exact Hz|split; [exact Hurl|split; [exact Hkeys|split; [exact Hoff|]]]]].
  - intros Hpos. split; [apply Hr, Hpos|].
    unfold AppEmbedded.currentBusiness. apply at_index_is_Some.
    specialize (Hr Hpos). unfold L, AppEmbedded.total in *. lia.
  - intros Hw. split; [apply Hon, Hw|].
    split; [apply EmbeddedFacts.embedded_mount_writes, Hw|].
    intros HL. apply (EmbeddedFacts.embedded_reload Papa w st Hk Hw HL).
Qed.

Lemma embedded_position_is_stored_witness :
  storage_ok (browser_with (Some "7") None None) = true /\
  AppEmbedded.currentIndex
    (AppEmbedded.mount embedded_parse (browser_with (Some "7") None None)) = 3 /\
  storage
    (AppEmbedded.browser
       (AppEmbedded.run embedded_parse
          (AppEmbedded.mount embedded_parse (browser_with (Some "7") None None))
          [AppEmbedded.ClickPrevious])) !! STORAGE_KEY
  = Some (JS.String_of
            (AppEmbedded.currentIndex
               (AppEmbedded.run embedded_parse
                  (AppEmbedded.mount embedded_parse (browser_with (Some "7") None None))
                  [AppEmbedded.ClickPrevious]))).
Proof.
  split; [reflexivity|]. split; [vm_compute; reflexivity|].
  pose proof (embedded_position_is_stored embedded_parse (browser_with (Some "7") None None)
                [AppEmbedded.ClickPrevious]) as H.
  cbv zeta in H.
  destruct H as (_ & _ & _ & _ & _ & H). exact (proj1 (H eq_refl)).
Defined.

(** X14: a page of the filter revision that starts with no filter shows,
    after the same answer and the same presses of Previous and Next, the
    same position of the same list as the card revision: the same current
    business, and the card is on screen exactly when the card revision
    shows its navigation. *)
Theorem filter_revision_extends_card {E} (Papa : string -> ParseResult E)
    (w : Browser) (moves : list Move) :
  data (Papa EmptyString) = [] ->
  FilterSpec.first_industry w = EmptyString ->
  let sf := AppFilter.run Papa (AppFilter.mount Papa w) (filter_event <$> moves) in
  let sc := AppCard.run Papa (AppCard.mount Papa w) (card_event <$> moves) in
  AppFilter.selectedIndustry sf = EmptyString /\
  AppFilter.currentIndex sf = AppCard.currentIndex sc /\
  AppFilter.total Papa sf = AppCard.total Papa sc /\
  AppFilter.currentBusiness Papa sf = AppCard.currentBusiness Papa sc /\
  AppFilter.card_shown Papa sf = AppCard.showNavigation Papa sc.
Proof.
  intros Hempty Hfirst sf sc.
  pose proof (same_view_run Papa moves _ _ (same_view_mount Papa w Hempty Hfirst)) as Hsim.
  fold sf sc in Hsim.
  pose proof (same_view_total Papa sf sc Hsim) as Ht.
  destruct Hsim as (Hrf & _ & Hsel & Hcsv & Hi & _).
  split; [exact Hsel|]. split; [exact Hi|]. split; [exact Ht|]. split.
  - unfold AppFilter.currentBusiness, AppCard.currentBusiness,
      AppFilter.filteredBusinesses, AppFilter.businesses, AppCard.businesses.
    rewrite Hsel, Hcsv, Hi. reflexivity.
  - rewrite (FilterFacts.ranged_card_shown Papa sf Hrf), Ht. reflexivity.
Qed.

Lemma filter_revision_extends_card_witness :
  FilterSpec.first_industry demo_browser = EmptyString /\
  AppCard.currentIndex
    (AppCard.run demo_parse (AppCard.mount demo_parse demo_browser)
       (card_event <$> [Answer (Some "csv"%string); Next])) = 3 /\
  AppFilter.currentIndex
    (AppFilter.run demo_parse (AppFilter.mount demo_parse demo_browser)
       (filter_event <$> [Answer (Some "csv"%string); Next]))
  = AppCard.currentIndex
      (AppCard.run demo_parse (AppCard.mount demo_parse demo_browser)
         (card_event <$> [Answer (Some "csv"%string); Next])).
Proof.
  assert (Hfirst : FilterSpec.first_industry demo_browser = EmptyString)
    by (vm_compute; reflexivity).
  split; [exact Hfirst|]. split; [vm_compute; reflexivity|].
  pose proof (filter_revision_extends_card demo_parse demo_browser
                [Answer (Some "csv"%string); Next] demo_parse_empty Hfirst) as H.
  cbv zeta in H. exact (proj1 (proj2 H)).
Defined.
